(** * dockerd: registry, command dispatch and process runner

    A shallow embedding of [src/dockerd/dockerd.go].

    Conventions.
    - A Go [string] is a byte sequence: Rocq's [string] (a list of 8-bit
      [ascii]).  [name[:1]] and [name[1:]] slice bytes, as in Go.
    - A Go [error] is [option string]: [None] is [nil], [Some msg] is an
      error whose text is [msg].
    - [map[string]T] is [gmap string T]; assignment [m[k] = v] is [<[k:=v]> m]
      and copies [v] (Go maps of struct values store copies).
    - [uint] values are [Z]; the program performs no arithmetic on them.
    - Everything the program obtains from outside itself (math/rand, the
      clock, the operating system's processes, the order in which the run
      time iterates over a map) is read from the [World]. *)

From Stdlib Require Import ZArith Ascii String List Lia.
From stdpp Require Import base option list gmap strings.
Import ListNotations.

Local Open Scope string_scope.
Local Open Scope Z_scope.

(** ** Errors *)

Definition error : Type := option string.

(** [errors.New] *)
Definition errors_New (msg : string) : error := Some msg.

(** ** Data model *)

Module Layer.
Record t : Type := mk {
  Id : string;
  Name : string;
  Added : Z;
  Size : Z;
  Source : string
}.
End Layer.

Module Container.
Record t : Type := mk {
  Id : string;
  Cmd : string;
  Args : list string;
  Layers : list Layer.t;
  Created : Z;
  FilesChanged : Z;
  BytesChanged : Z;
  Running : bool
}.

(** [c.Running = b] *)
Definition set_Running (b : bool) (c : t) : t :=
  mk (Id c) (Cmd c) (Args c) (Layers c) (Created c)
     (FilesChanged c) (BytesChanged c) b.

(** [c.Layers = ls] *)
Definition set_Layers (ls : list Layer.t) (c : t) : t :=
  mk (Id c) (Cmd c) (Args c) ls (Created c)
     (FilesChanged c) (BytesChanged c) (Running c).
End Container.

Record Docker : Type := mkDocker {
  layers : gmap string Layer.t;
  containers : gmap string Container.t
}.

(** [New()] *)
Definition New : Docker := mkDocker ∅ ∅.

(** ** The process runner: [Container.Run] *)

(** What the operating system does with one execution of a command: the
    result of [startCommand], of [cmd.Wait()], and of the [io.Copy] from the
    child's standard output (the bytes it delivered and its error). *)
Record ProcOutcome : Type := mkProc {
  po_start : error;
  po_wait : error;
  po_copied : string;
  po_copy : error
}.

(** I/O actions of the two goroutines of [Run]. *)
Inductive IOEvent : Type :=
| WriteStdout (bytes : string)      (* io.Copy(stdout, cmd_stdout) *)
| WriteChildStdin (bytes : string)  (* io.Copy(cmd_stdin, stdin) *)
| CloseChildStdin                   (* cmd_stdin.Close() *)
| CloseStdin.                       (* stdin.Close() *)

(** One goroutine started by [Go(f)]: what [f] did and the value it sends
    on its channel. *)
Record TaskRun : Type := mkTask {
  task_io : list IOEvent;
  task_ret : error
}.

Inductive Task : Type := CopyOut | CopyIn.

(** Steps of the goroutine that executes [Run], in program order. *)
Inductive Step : Type :=
| SStart (cmd : string) (args : list string)  (* startCommand(exec.Command(..), false) *)
| SGo (t : Task)                              (* Go(func() error {...}) *)
| SWait                                       (* cmd.Wait() *)
| SRecv (t : Task).                           (* <-copy_in, <-copy_out *)

(** The [return] statement of [Run] that was executed. *)
Inductive RetSite : Type :=
| AtAlreadyRunning | AtStartErr | AtWaitErr | AtCopyInErr | AtCopyOutErr | AtEnd.

Record RunResult : Type := mkRun {
  rr_container : Container.t;   (* the receiver [*c] afterwards *)
  rr_err : error;               (* the returned error *)
  rr_site : RetSite;
  rr_steps : list Step;
  rr_copy_out : option TaskRun; (* the goroutines, when they were started *)
  rr_copy_in : option TaskRun
}.

Definition set_rr_container (c : Container.t) (r : RunResult) : RunResult :=
  mkRun c (rr_err r) (rr_site r) (rr_steps r) (rr_copy_out r) (rr_copy_in r).

(** The closure given to the first [Go]:
    [_, err := io.Copy(stdout, cmd_stdout); return err]. *)
Definition copy_out_task (po : ProcOutcome) : TaskRun :=
  mkTask [WriteStdout (po_copied po)] (po_copy po).

(** The closure given to the second [Go]; [stdin] is what the caller has
    sent on its input stream.  The [io.Copy(cmd_stdin, stdin)] is commented
    out in the source: the closure closes both ends and returns [nil]. *)
Definition copy_in_task (stdin : string) : TaskRun :=
  mkTask [CloseChildStdin; CloseStdin] None.

(** The statements of [Run] after the [defer]. *)
Definition Run_body (c : Container.t) (stdin : string) (po : ProcOutcome)
  : RunResult :=
  let start := SStart (Container.Cmd c) (Container.Args c) in
  match po_start po with
  | Some err => mkRun c (Some err) AtStartErr [start] None None
  | None =>
    let copy_out := copy_out_task po in
    let copy_in := copy_in_task stdin in
    let steps := [start; SGo CopyOut; SGo CopyIn; SWait] in
    match po_wait po with
    | Some err =>
        mkRun c (Some err) AtWaitErr steps (Some copy_out) (Some copy_in)
    | None =>
      match task_ret copy_in with
      | Some err =>
          mkRun c (Some err) AtCopyInErr (steps ++ [SRecv CopyIn])
                (Some copy_out) (Some copy_in)
      | None =>
        match task_ret copy_out with
        | Some err =>
            mkRun c (Some err) AtCopyOutErr
                  (steps ++ [SRecv CopyIn; SRecv CopyOut])
                  (Some copy_out) (Some copy_in)
        | None =>
            mkRun c None AtEnd (steps ++ [SRecv CopyIn; SRecv CopyOut])
                  (Some copy_out) (Some copy_in)
        end
      end
    end
  end.

(** [defer func() { c.Running = false }()] *)
Definition release (c : Container.t) : Container.t :=
  Container.set_Running false c.

(** [func (c *Container) Run(stdin io.ReadCloser, stdout io.Writer) error] *)
Definition Run (c : Container.t) (stdin : string) (po : ProcOutcome)
  : RunResult :=
  if Container.Running c then
    mkRun c (errors_New "Already running") AtAlreadyRunning [] None None
  else
    let c := Container.set_Running true c in
    let r := Run_body c stdin po in
    set_rr_container (release (rr_container r)) r.

(** All bytes written to the child's standard input by a run. *)
Definition child_stdin_bytes (r : RunResult) : list string :=
  match rr_copy_in r with
  | Some t =>
      omap (fun e => match e with WriteChildStdin b => Some b | _ => None end)
           (task_io t)
  | None => []
  end.

(** ** Go strings *)

Fixpoint string_map (f : ascii -> ascii) (s : string) : string :=
  match s with
  | EmptyString => EmptyString
  | String a r => String (f a) (string_map f r)
  end.

Fixpoint string_forallb (p : ascii -> bool) (s : string) : bool :=
  match s with
  | EmptyString => true
  | String a r => p a && string_forallb p r
  end.

Definition byte_val (a : ascii) : Z := Z.of_N (N_of_ascii a).

(** [c < utf8.RuneSelf] *)
Definition is_ascii_byte (a : ascii) : bool := byte_val a <? 128.

Definition isASCII (s : string) : bool := string_forallb is_ascii_byte s.

Definition upper_byte (a : ascii) : ascii :=
  let v := byte_val a in
  if (97 <=? v) && (v <=? 122) then ascii_of_N (Z.to_N (v - 32)) else a.

Definition lower_byte (a : ascii) : ascii :=
  let v := byte_val a in
  if (65 <=? v) && (v <=? 90) then ascii_of_N (Z.to_N (v + 32)) else a.

(** [len(s)] *)
Definition len (s : string) : Z := Z.of_nat (String.length s).

(** [strings.Join] *)
Fixpoint strings_Join (l : list string) (sep : string) : string :=
  match l with
  | [] => ""
  | [s] => s
  | s :: r => s ++ sep ++ strings_Join r sep
  end.

(** Lower-case hexadecimal, as [%x] prints it. *)
Definition hex_digit (d : Z) : ascii :=
  if d <? 10 then ascii_of_N (Z.to_N (48 + d))
  else ascii_of_N (Z.to_N (87 + d)).

Fixpoint hex_loop (fuel : nat) (n : Z) (acc : string) : string :=
  match fuel with
  | O => acc
  | S f =>
      let acc' := String (hex_digit (n mod 16)) acc in
      if n / 16 =? 0 then acc' else hex_loop f (n / 16) acc'
  end.

(** [fmt.Sprintf("%x", v)] for a non-negative [int] (at most 16 digits). *)
Definition hex_int (v : Z) : string := hex_loop 16 v "".

(** [fmt.Sprintf("%x", b)] for a byte slice: two digits per byte. *)
Fixpoint hex_bytes (b : string) : string :=
  match b with
  | EmptyString => EmptyString
  | String a r =>
      String (hex_digit (byte_val a / 16))
        (String (hex_digit (byte_val a mod 16)) (hex_bytes r))
  end.

(** [b[:n]] on a byte slice at least [n] long. *)
Fixpoint prefix_bytes (n : nat) (b : string) : string :=
  match n, b with
  | S m, String a r => String a (prefix_bytes m r)
  | _, _ => EmptyString
  end.

(** ** Readers *)

(** An [io.Reader] as [io.Copy] sees it: the bytes it yields until it
    ends, and the error that ended it ([None] for [io.EOF]). *)
Record Reader : Type := mkReader {
  rd_bytes : string;
  rd_err : error
}.

(** [bytes.NewBuffer(b)]: reading a buffer yields its bytes and ends with
    [io.EOF]. *)
Definition bytes_NewBuffer (b : string) : Reader := mkReader b None.

(** ** The world outside the program *)

(** [rand_src] and [clock_src] are the successive values that math/rand's
    global source and the system clock will yield, [proc_src] the fate of
    the successive child processes, [range_src] the choices the run time
    makes for the successive [range] statements over a map; the [_pos]
    fields count the values consumed so far. *)
Record World : Type := mkWorld {
  rand_src : nat -> Z;
  rand_pos : nat;
  clock_src : nat -> Z;
  clock_pos : nat;
  proc_src : nat -> ProcOutcome;
  proc_pos : nat;
  range_src : nat -> nat -> nat;
  range_pos : nat
}.

(** ** Output *)

(** Errors of the flag package. *)
Inductive FlagErr : Type :=
| BadSyntax (arg : string)             (* bad flag syntax: %s *)
| NotDefined (name : string)           (* flag provided but not defined: -%s *)
| NeedsArg (name : string)             (* flag needs an argument: -%s *)
| InvalidBool (value name : string)    (* invalid boolean value %q for -%s: %v *)
| ErrHelp.                             (* flag: help requested *)

(** What is written on a handler's [stdout].  Writes whose bytes are fixed
    by strings alone are [OBytes]; writes that go through float formatting,
    durations, the tabwriter or the flag package keep their arguments. *)
Inductive Out : Type :=
| OBytes (s : string)
| OFlagErr (e : FlagErr)                 (* fmt.Fprintln(f.out(), err) *)
| OSubcmdUsage (name signature description : string)
                                         (* the Usage closure of Subcmd *)
| ONewLayer (l : Layer.t)                (* "New layer: %s %s %.1fM\n" *)
| OLayersHeader                          (* "ID\tNAME\tSIZE\tADDED\tSOURCE\n" *)
| OLayersRow (l : Layer.t) (now : Z)
| OLayersFlush                           (* w.Flush() *)
| OListHeader (longestCol : Z)
| OListRow (longestCol : Z) (c : Container.t) (now : Z).

(** ** Handler state and monad *)

Record St : Type := mkSt {
  docker : Docker;
  world : World;
  out : list Out;            (* everything written so far, oldest first *)
  runs : list RunResult      (* the executions of [Container.Run] so far *)
}.

Inductive Res (A : Type) : Type :=
| Val (a : A)
| Panic (msg : string)       (* a Go run-time panic *)
| OutOfFuel.                 (* the call depth bound of [call] was reached *)
Arguments Val {A} a.
Arguments Panic {A} msg.
Arguments OutOfFuel {A}.

Definition M (A : Type) : Type := St -> Res A * St.

Definition ret {A} (a : A) : M A := fun s => (Val a, s).

Definition bind {A B} (m : M A) (k : A -> M B) : M B :=
  fun s =>
    match m s with
    | (Val a, s') => k a s'
    | (Panic msg, s') => (Panic msg, s')
    | (OutOfFuel, s') => (OutOfFuel, s')
    end.

Notation "'do' x <- m ; k" := (bind m (fun x => k))
  (at level 10, x name, m at level 100, k at level 200).
Notation "'do_' m ; k" := (bind m (fun _ => k))
  (at level 10, m at level 100, k at level 200).

Definition get_docker : M Docker := fun s => (Val (docker s), s).

Definition put_docker (d : Docker) : M unit :=
  fun s => (Val tt, mkSt d (world s) (out s) (runs s)).

(** A write on [stdout]. *)
Definition write (o : Out) : M unit :=
  fun s => (Val tt, mkSt (docker s) (world s) (out s ++ [o]) (runs s)).

Definition log_run (r : RunResult) : M unit :=
  fun s => (Val tt, mkSt (docker s) (world s) (out s) (runs s ++ [r])).

(** The next value of math/rand's source. *)
Definition rand_next : M Z :=
  fun s =>
    let w := world s in
    (Val (rand_src w (rand_pos w)),
     mkSt (docker s)
          (mkWorld (rand_src w) (S (rand_pos w)) (clock_src w) (clock_pos w)
                   (proc_src w) (proc_pos w) (range_src w) (range_pos w))
          (out s) (runs s)).

(** [rand.Int31n(n)]: a value in [[0, n)]. *)
Definition rand_Int31n (n : Z) : M Z :=
  do v <- rand_next; ret (v mod n).

(** [rand.Int()]: a non-negative 63-bit value. *)
Definition rand_Int : M Z :=
  do v <- rand_next; ret (v mod 2 ^ 63).

(** [time.Now()] *)
Definition time_Now : M Z :=
  fun s =>
    let w := world s in
    (Val (clock_src w (clock_pos w)),
     mkSt (docker s)
          (mkWorld (rand_src w) (rand_pos w) (clock_src w) (S (clock_pos w))
                   (proc_src w) (proc_pos w) (range_src w) (range_pos w))
          (out s) (runs s)).

(** The fate of the next child process. *)
Definition next_proc : M ProcOutcome :=
  fun s =>
    let w := world s in
    (Val (proc_src w (proc_pos w)),
     mkSt (docker s)
          (mkWorld (rand_src w) (rand_pos w) (clock_src w) (clock_pos w)
                   (proc_src w) (S (proc_pos w)) (range_src w) (range_pos w))
          (out s) (runs s)).

(** [for _, x := range l { body(x) }] *)
Fixpoint for_each {A} (l : list A) (body : A -> M unit) : M unit :=
  match l with
  | [] => ret tt
  | x :: r => do_ body x; for_each r body
  end.

(** *** The order of a [range] over a map

    Go leaves the order in which [range] visits a map unspecified, and the
    run time varies it from one [range] statement to the next.  Here the
    world chooses: the entries are visited in the order [shuffle choice l],
    where [l] lists the entries and [choice] is what the world holds for
    this [range].  Whatever the choice, every entry is visited once
    ([shuffle_Permutation]), and every order is the result of some choice
    ([shuffle_onto]). *)

(** [x] put at position [k] of [l], at its end when [l] is shorter. *)
Fixpoint insert_at {A} (k : nat) (x : A) (l : list A) : list A :=
  match k, l with
  | S k', y :: l' => y :: insert_at k' x l'
  | _, _ => x :: l
  end.

Fixpoint shuffle {A} (choice : nat -> nat) (l : list A) : list A :=
  match l with
  | [] => []
  | x :: r => insert_at (choice (length r)) x (shuffle choice r)
  end.

(** The entries of [m] in the order the next [range] over [m] visits
    them. *)
Definition range_map {V} (m : gmap string V) : M (list (string * V)) :=
  fun s =>
    let w := world s in
    (Val (shuffle (range_src w (range_pos w)) (map_to_list m)),
     mkSt (docker s)
          (mkWorld (rand_src w) (rand_pos w) (clock_src w) (clock_pos w)
                   (proc_src w) (proc_pos w) (range_src w) (S (range_pos w)))
          (out s) (runs s)).

(** ** The flag package

    [flag.FlagSet] with [ContinueOnError], restricted to what the handlers
    declare: boolean flags ([flags.Bool]) and [ArgList] values
    ([flags.Var]).  [fs_bools] and [fs_lists] hold the flags that were
    declared, with their current values; [fs_args] is what [flags.Args()]
    returns. *)

Record FlagSet : Type := mkFlagSet {
  fs_name : string;
  fs_signature : string;
  fs_description : string;
  fs_bools : gmap string bool;
  fs_lists : gmap string (list string);
  fs_args : list string
}.

(** [Subcmd(output, name, signature, description)] *)
Definition Subcmd (name signature description : string) : FlagSet :=
  mkFlagSet name signature description ∅ ∅ [].

(** [flags.Bool(name, value, usage)] *)
Definition flags_Bool (name : string) (value : bool) (f : FlagSet) : FlagSet :=
  mkFlagSet (fs_name f) (fs_signature f) (fs_description f)
            (<[name := value]> (fs_bools f)) (fs_lists f) (fs_args f).

(** [flags.Var(new(ArgList), name, usage)] *)
Definition flags_Var (name : string) (f : FlagSet) : FlagSet :=
  mkFlagSet (fs_name f) (fs_signature f) (fs_description f)
            (fs_bools f) (<[name := []]> (fs_lists f)) (fs_args f).

Definition set_args (args : list string) (f : FlagSet) : FlagSet :=
  mkFlagSet (fs_name f) (fs_signature f) (fs_description f)
            (fs_bools f) (fs_lists f) args.

(** [flags.NArg()], [flags.Arg(i)], [flags.Args()] *)
Definition flags_NArg (f : FlagSet) : Z := Z.of_nat (length (fs_args f)).
Definition flags_Arg (f : FlagSet) (i : nat) : string :=
  default "" (fs_args f !! i).
Definition flags_Args (f : FlagSet) : list string := fs_args f.

(** The value of a declared boolean flag, of a declared [ArgList]. *)
Definition bool_flag (f : FlagSet) (name : string) : bool :=
  default false (fs_bools f !! name).
Definition list_flag (f : FlagSet) (name : string) : list string :=
  default [] (fs_lists f !! name).

(** [strconv.ParseBool] *)
Definition ParseBool (s : string) : option bool :=
  if bool_decide (s ∈ ["1"; "t"; "T"; "TRUE"; "true"; "True"]) then Some true
  else if bool_decide (s ∈ ["0"; "f"; "F"; "FALSE"; "false"; "False"])
  then Some false
  else None.

(** The first ['='] of [s]: the bytes before it and the bytes after it. *)
Fixpoint cut_eq (s : string) : option (string * string) :=
  match s with
  | EmptyString => None
  | String c r =>
      if Ascii.eqb c "="%char then Some (EmptyString, r)
      else match cut_eq r with
           | Some (n, v) => Some (String c n, v)
           | None => None
           end
  end.

(** [name=value], where the ['='] cannot be the first byte. *)
Definition split_value (name : string) : string * option string :=
  match name with
  | EmptyString => (EmptyString, None)
  | String a r =>
      match cut_eq r with
      | Some (n, v) => (String a n, Some v)
      | None => (name, None)
      end
  end.

Inductive ParseStep : Type :=
| Seen (f : FlagSet)                 (* a flag was consumed *)
| Stop (f : FlagSet)                 (* no more flags *)
| Fail (e : FlagErr) (f : FlagSet).

(** [func (f *FlagSet) parseOne() (bool, error)] *)
Definition parseOne (f : FlagSet) : ParseStep :=
  match fs_args f with
  | [] => Stop f
  | s :: rest =>
    match s with
    | String c0 (String c1 r1 as s1) =>
      if negb (Ascii.eqb c0 "-"%char) then Stop f
      else if Ascii.eqb c1 "-"%char && String.eqb r1 "" then
        Stop (set_args rest f)          (* "--" terminates the flags *)
      else
        let name := if Ascii.eqb c1 "-"%char then r1 else s1 in
        match name with
        | EmptyString => Fail (BadSyntax s) f
        | String n0 _ =>
          if Ascii.eqb n0 "-"%char || Ascii.eqb n0 "="%char
          then Fail (BadSyntax s) f
          else
            let f := set_args rest f in
            let '(name, value) := split_value name in
            match fs_bools f !! name, fs_lists f !! name with
            | Some _, _ =>
                match value with
                | Some v =>
                    match ParseBool v with
                    | Some b => Seen (flags_Bool name b f)
                    | None =>
                        (* [boolValue.Set] stores the zero value that
                           [strconv.ParseBool] returns with its error *)
                        Fail (InvalidBool v name) (flags_Bool name false f)
                    end
                | None => Seen (flags_Bool name true f)
                end
            | None, Some l =>
                match value, fs_args f with
                | Some v, _ =>
                    Seen (mkFlagSet (fs_name f) (fs_signature f)
                            (fs_description f) (fs_bools f)
                            (<[name := (l ++ [v])%list]> (fs_lists f)) (fs_args f))
                | None, v :: rest' =>
                    Seen (mkFlagSet (fs_name f) (fs_signature f)
                            (fs_description f) (fs_bools f)
                            (<[name := (l ++ [v])%list]> (fs_lists f)) rest')
                | None, [] => Fail (NeedsArg name) f
                end
            | None, None =>
                if String.eqb name "help" || String.eqb name "h"
                then Fail ErrHelp f
                else Fail (NotDefined name) f
            end
        end
    | _ => Stop f     (* len(s) < 2 || s[0] != '-' *)
    end
  end.

(** The loop of [func (f *FlagSet) Parse(arguments []string) error]; every
    flag that is seen consumes an argument, so [fuel] above the number of
    arguments is never exhausted ([parse_loop_fuel]). *)
Fixpoint parse_loop (fuel : nat) (f : FlagSet) : FlagSet * option FlagErr :=
  match fuel with
  | O => (f, None)
  | S n =>
      match parseOne f with
      | Seen f' => parse_loop n f'
      | Stop f' => (f', None)
      | Fail e f' => (f', Some e)
      end
  end.

Definition flag_Parse (f : FlagSet) (args : list string)
  : FlagSet * option FlagErr :=
  parse_loop (S (length args)) (set_args args f).

(** [flags.Usage()] as set by [Subcmd] *)
Definition flags_Usage (f : FlagSet) : M unit :=
  write (OSubcmdUsage (fs_name f) (fs_signature f) (fs_description f)).

(** [flags.Parse(args)], with what [failf] and the help case print. *)
Definition flags_Parse (f : FlagSet) (args : list string)
  : M (FlagSet * option FlagErr) :=
  let '(f', e) := flag_Parse f args in
  match e with
  | None => ret (f', None)
  | Some ErrHelp => do_ flags_Usage f'; ret (f', Some ErrHelp)
  | Some err => do_ write (OFlagErr err); do_ flags_Usage f'; ret (f', Some err)
  end.

Notation "'do' ' pat <- m ; k" :=
  (bind m (fun x => match x with pat => k end))
  (at level 10, pat pattern, m at level 100, k at level 200).

(** ** The registry and the handlers *)

(** The methods of [*Docker] whose name starts with [Cmd]; [getMethod] can
    name no other method, since it looks up ["Cmd" + ...].  [CmdUsage] is
    among them: [ServeHTTP] calls [docker.CmdUsage], although the source
    does not hold its body. *)
Inductive Method : Type :=
| MHelp | MLayers | MGet | MPut | MExport | MRun | MClone | MList | MUsage.

Global Instance Method_eq_dec : EqDecision Method.
Proof. solve_decision. Defined.

Definition method_name (m : Method) : string :=
  match m with
  | MHelp => "CmdHelp" | MLayers => "CmdLayers" | MGet => "CmdGet"
  | MPut => "CmdPut" | MExport => "CmdExport" | MRun => "CmdRun"
  | MClone => "CmdClone" | MList => "CmdList" | MUsage => "CmdUsage"
  end.

Definition methods : list Method :=
  [MHelp; MLayers; MGet; MPut; MExport; MRun; MClone; MList; MUsage].

(** [reflect.TypeOf(docker).MethodByName(methodName)] *)
Definition MethodByName (methodName : string) : option Method :=
  List.find (fun m => String.eqb (method_name m) methodName) methods.

(** [type Cmd func(io.ReadCloser, io.Writer, ...string) error]: the first
    argument is what the caller sends on [stdin]; [stdout] is the [out]
    component of the state. *)
Definition Cmd : Type := string -> list string -> M error.

(** ** The request boundary: [URLToCall] *)

(** [strings.LastIndex(path, "/") >= 0] *)
Definition has_slash (p : string) : bool :=
  negb (string_forallb (fun c => negb (Ascii.eqb c "/"%char)) p).

(** The loop of [path.Base] that strips the trailing slashes. *)
Fixpoint strip_trailing_slashes (p : string) : string :=
  match p with
  | EmptyString => EmptyString
  | String c r =>
      match strip_trailing_slashes r with
      | EmptyString =>
          if Ascii.eqb c "/"%char then EmptyString else String c EmptyString
      | r' => String c r'
      end
  end.

(** [path[strings.LastIndex(path, "/")+1:]], or [path] without a slash. *)
Fixpoint last_element (p : string) : string :=
  match p with
  | EmptyString => EmptyString
  | String c r =>
      if has_slash r then last_element r
      else if Ascii.eqb c "/"%char then r
      else p
  end.

(** [path.Base] of the Go library: the last element of a path; ["."] for
    the empty path, ["/"] for a path of slashes only. *)
Definition path_Base (p : string) : string :=
  if String.eqb p "" then "."
  else
    let p := last_element (strip_trailing_slashes p) in
    if String.eqb p "" then "/" else p.

(** What [URLToCall] reads of a [*url.URL]: its path, and its query as
    [u.Query()] returns it. *)
Record URL : Type := mkURL {
  url_Path : string;
  url_Query : gmap string (list string)
}.

Definition ARG_URL_KEY : string := "q".

(** [func URLToCall(u *url.URL) (method string, args []string)]; a key
    that is absent from the query gives the nil slice. *)
Definition URLToCall (u : URL) : string * list string :=
  (path_Base (url_Path u), default [] (url_Query u !! ARG_URL_KEY)).

(** ** Sample inputs

    Concrete values on which the properties below are exercised. *)

(** A world whose random source counts up from 1000, whose clock counts up
    from 5000, where every process prints "hi" and exits cleanly, and
    where the [n]-th [range] over a map puts each entry [n] places down. *)
Definition sample_world : World :=
  mkWorld (fun n => 1000 + Z.of_nat n) 0 (fun n => 5000 + Z.of_nat n) 0
          (fun _ => mkProc None None "hi" None) 0
          (fun n _ => n) 0.

(** A world whose random source only yields zero. *)
Definition zero_world : World :=
  mkWorld (fun _ => 0) 0 (fun _ => 0) 0 (fun _ => mkProc None None "" None) 0
          (fun _ _ => O) 0.

(** A process that starts, prints "partial" and exits with an error, its
    output copy failing as well. *)
Definition failing_proc : ProcOutcome :=
  mkProc None (Some "exit status 1") "partial" (Some "broken pipe").

Definition idle_container : Container.t :=
  Container.mk "00c0ffee00c0ffee" "echo" ["hi"] [] 5000 3 4096 false.

Definition running_container : Container.t :=
  Container.set_Running true idle_container.

(** Stand-ins for the library functions: case mapping that leaves
    non-ASCII strings alone, and a digest that pads its input. *)
Definition sample_case (s : string) : string := s.
Definition sample_digest (s : string) : string := s ++ "........".

Section Dockerd.

(** Go's case mapping of a string that is not pure ASCII, and SHA-256:
    library functions the program calls and does not define. *)
Variable unicode_ToUpper unicode_ToLower : string -> string.
Variable sha256_Sum : string -> string.

(** [strings.ToUpper], [strings.ToLower] *)
Definition strings_ToUpper (s : string) : string :=
  if isASCII s then string_map upper_byte s else unicode_ToUpper s.
Definition strings_ToLower (s : string) : string :=
  if isASCII s then string_map lower_byte s else unicode_ToLower s.

(** ["Cmd"+strings.ToUpper(name[:1])+strings.ToLower(name[1:])] *)
Definition methodName (first : ascii) (rest : string) : string :=
  "Cmd" ++ strings_ToUpper (String first "") ++ strings_ToLower rest.

(** [func (docker *Docker) getMethod(name string) Cmd]; the closure it
    returns calls the method found, so it is represented by that method.
    [name[:1]] panics on the empty string. *)
Definition getMethod (name : string) : Res (option Method) :=
  match name with
  | EmptyString => Panic "slice bounds out of range"
  | String first rest => Val (MethodByName (methodName first rest))
  end.

Definition lift {A} (r : Res A) : M A := fun s => (r, s).

(** [randomBytes()]: a buffer that holds [fmt.Sprintf("%x", rand.Int())] *)
Definition randomBytes : M Reader :=
  do v <- rand_Int; ret (bytes_NewBuffer (hex_int v)).

(** [ComputeId(content)]: [io.Copy(h, content)] reads [content] to its
    end and returns the error that ended it, if any; writing into the hash
    does not fail. *)
Definition ComputeId (content : Reader) : string * error :=
  match rd_err content with
  | Some err => ("", Some err)
  | None =>
      (hex_bytes (prefix_bytes 8 (sha256_Sum (rd_bytes content))), None)
  end.

(** [randomId()]: [id, _ := ComputeId(randomBytes())] *)
Definition randomId : M string :=
  do content <- randomBytes; ret (fst (ComputeId content)).

(** [func (docker *Docker) addLayer(name string, source string, size uint) Layer] *)
Definition addLayer (name source : string) (size : Z) : M Layer.t :=
  do size <- (if size =? 0 then rand_Int31n (142 * 1024 * 1024)
              else ret size);
  do id <- randomId;
  do now <- time_Now;
  let layer := Layer.mk id name now size source in
  do d <- get_docker;
  do_ put_docker (mkDocker (<[Layer.Id layer := layer]> (layers d))
                           (containers d));
  ret layer.

(** *** help *)

Definition help_header : string :=
  "Usage: docker COMMAND [arg...]

A self-sufficient runtime for linux containers.

Commands:
".

Definition help_commands : list (string * string) :=
  [ ("run", "Run a command in a container");
    ("clone", "Duplicate a container");
    ("list", "Display a list of containers");
    ("layers", "Display a list of layers");
    ("get", "Download a layer from a remote location");
    ("wait", "Wait for the state of a container to change");
    ("stop", "Stop a running container");
    ("logs", "Fetch the logs of a container");
    ("export", "Extract changes to a container's filesystem into a new layer");
    ("attach", "Attach to the standard inputs and outputs of a running container");
    ("info", "Display system-wide information") ].

Fixpoint spaces (n : nat) : string :=
  match n with O => "" | S m => String " "%char (spaces m) end.

(** [%-10.10s] on an ASCII string: cut to 10 bytes, then padded on the
    right to 10. *)
Definition pad10 (s : string) : string :=
  let t := prefix_bytes 10 s in
  t ++ spaces (10 - String.length t).

Definition newline : string := String (ascii_of_N 10) "".

(** The command summary: the [len(args) == 0] branch of [CmdHelp]. *)
Definition write_summary : M unit :=
  do_ write (OBytes help_header);
  for_each help_commands
    (fun cmd => write (OBytes ("    " ++ pad10 (fst cmd) ++ snd cmd ++ newline))).

(** [func (docker *Docker) CmdHelp(...)]; [invoke] runs the closure that
    [getMethod] returned. *)
Definition CmdHelp (invoke : Method -> Cmd) : Cmd := fun stdin args =>
  match args with
  | [] => do_ write_summary; ret None
  | arg0 :: _ =>
      do method <- lift (getMethod arg0);
      match method with
      | None => ret (errors_New ("No such command: " ++ arg0))
      | Some m => do_ invoke m stdin ["--help"]; ret None
      end
  end.

(** Modelled from the spec: [CmdUsage], which [ServeHTTP] calls and the
    source does not define.  Spec 4.3: invoking with no recognized command
    writes a fixed command summary to the output stream and returns
    success, not an error.  The summary is the one [CmdHelp] prints. *)
Definition CmdUsage : Cmd := fun stdin args =>
  do_ write_summary; ret None.

(** *** layers, get, put, export *)

Definition CmdLayers : Cmd := fun stdin args =>
  let flags := Subcmd "layers" "[OPTIONS] [NAME]"
                      "Show available filesystem layers" in
  let flags := flags_Bool "q" false flags in
  do ' (flags, _) <- flags_Parse flags args;
  if flags_NArg flags >? 1 then do_ flags_Usage flags; ret None
  else
    let nameFilter :=
      if flags_NArg flags =? 1 then flags_Arg flags 0 else "" in
    let skip (layer : Layer.t) : bool :=
      negb (String.eqb nameFilter "")
      && negb (String.eqb nameFilter (Layer.Name layer)) in
    do d <- get_docker;
    if bool_flag flags "q" then
      do entries <- range_map (layers d);
      do_ for_each entries
            (fun kv => if skip (snd kv) then ret tt
                       else write (OBytes (fst kv ++ newline)));
      ret None
    else
      do_ write OLayersHeader;
      do entries <- range_map (layers d);
      do_ for_each entries
            (fun kv => if skip (snd kv) then ret tt
                       else do now <- time_Now;
                            write (OLayersRow (snd kv) now));
      do_ write OLayersFlush;
      ret None.

Definition CmdGet : Cmd := fun stdin args =>
  match args with
  | [] => ret (errors_New "Not enough arguments")
  | arg0 :: _ =>
      do_ write (OBytes ("Downloading from " ++ arg0 ++ "..." ++ newline));
      do layer <- addLayer arg0 "download" 0;
      do_ write (ONewLayer layer);
      ret None
  end.

Definition CmdPut : Cmd := fun stdin args =>
  match args with
  | [] => ret (errors_New "Not enough arguments")
  | arg0 :: _ =>
      do layer <- addLayer arg0 "upload" 0;
      do_ write (ONewLayer layer);
      ret None
  end.

Definition CmdExport : Cmd := fun stdin args =>
  let flags := Subcmd "export" "CONTAINER LAYER"
    "Create a new layer from the changes on a container's filesystem" in
  let flags := flags_Bool "s" false flags in
  do ' (flags, err) <- flags_Parse flags args;
  match err with
  | Some _ => ret None
  | None =>
    if flags_NArg flags <? 2 then ret (errors_New "Not enough arguments")
    else
      do d <- get_docker;
      match containers d !! flags_Arg flags 0 with
      | None => ret (errors_New "No such container")
      | Some container =>
          do layer <- addLayer (flags_Arg flags 1)
                        ("export:" ++ Container.Id container)
                        (Container.BytesChanged container);
          do_ write (ONewLayer layer);
          ret None
      end
  end.

(** *** run, clone, list *)

(** The loop [for _, name := range *fl_layers] of [CmdRun]: the container
    with the layers of [names] appended, or the error of the first name
    that is neither a key of [docker.layers] nor of [docker.containers]. *)
Fixpoint add_layers (d : Docker) (names : list string)
    (container : Container.t) : Container.t + string :=
  match names with
  | [] => inl container
  | name :: names' =>
      match layers d !! name with
      | Some layer =>
          add_layers d names'
            (Container.set_Layers
               (Container.Layers container ++ [layer])%list container)
      | None =>
          match containers d !! name with
          | Some srcContainer =>
              add_layers d names'
                (Container.set_Layers
                   (Container.Layers container
                      ++ Container.Layers srcContainer)%list container)
          | None => inr ("No such layer or container: " ++ name)
          end
      end
  end.

(** What the output-copy goroutine of a run wrote on [stdout]. *)
Definition run_output (r : RunResult) : list Out :=
  match rr_copy_out r with
  | Some t =>
      omap (fun e => match e with WriteStdout b => Some (OBytes b)
                             | _ => None end) (task_io t)
  | None => []
  end.

(** [container.Run(stdin, stdout)] inside a handler: the child process,
    if one is started, meets the next fate the world holds. *)
Definition container_Run (c : Container.t) (stdin : string) : M error :=
  do po <- (if Container.Running c then ret (mkProc None None "" None)
            else next_proc);
  let r := Run c stdin po in
  do_ for_each (run_output r) write;
  do_ log_run r;
  ret (rr_err r).

(** The flag set of [CmdRun]: [Subcmd(...)] and [flags.Var(fl_layers, "l", ...)] *)
Definition run_flags : FlagSet :=
  flags_Var "l"
    (Subcmd "run" "-l LAYER [-l LAYER...] COMMAND {ARG...]"
            "Run a command in a container").

Definition CmdRun : Cmd := fun stdin args =>
  do ' (flags, err) <- flags_Parse run_flags args;
  match err with
  | Some _ => ret None
  | None =>
    let fl_layers := list_flag flags "l" in
    if Z.of_nat (length fl_layers) <? 1 then
      ret (errors_New "Please specify at least one layer")
    else if flags_NArg flags <? 1 then
      ret (errors_New "No command specified")
    else
      let cmd := flags_Arg flags 0 in
      let cmd_args :=
        if flags_NArg flags >? 1 then drop 1 (flags_Args flags) else [] in
      do id <- randomId;
      do now <- time_Now;
      do filesChanged <- rand_Int31n 42;
      do bytesChanged <- rand_Int31n (24 * 1024 * 1024);
      let container :=
        Container.mk id cmd cmd_args [] now filesChanged bytesChanged false in
      do d <- get_docker;
      match add_layers d fl_layers container with
      | inr msg => ret (errors_New msg)
      | inl container =>
          do_ put_docker
                (mkDocker (layers d)
                   (<[Container.Id container := container]> (containers d)));
          container_Run container stdin
      end
  end.

(** The flag set of [CmdClone]: [Subcmd(...)] and [flags.Bool("r", true, ...)] *)
Definition clone_flags : FlagSet :=
  flags_Bool "r" true
    (Subcmd "Clone" "[OPTIONS] CONTAINER_ID" "Duplicate a container").

Definition CmdClone : Cmd := fun stdin args =>
  do ' (flags, _) <- flags_Parse clone_flags args;
  if negb (bool_flag flags "r") then
    ret (errors_New
           "Only reset mode is available for now. Please use -r")
  else if negb (flags_NArg flags =? 1) then
    do_ flags_Usage flags; ret None
  else
    do d <- get_docker;
    match containers d !! flags_Arg flags 0 with
    | None => ret (errors_New ("No such container: " ++ flags_Arg flags 0))
    | Some container =>
        CmdRun stdin
          ("-l" :: Container.Id container :: "--"
                :: Container.Cmd container :: Container.Args container)
    end.

(** [func (c *Container) CmdString() string] *)
Definition CmdString (c : Container.t) : string :=
  strings_Join (Container.Cmd c :: Container.Args c) " ".

Definition CmdList : Cmd := fun stdin args =>
  do d <- get_docker;
  do entries <- range_map (containers d);
  let longestCol :=
    fold_left (fun acc kv =>
                 let l := len (CmdString (snd kv)) in
                 if l >? acc then l else acc) entries 0 in
  let longestCol :=
    if longestCol >? 50 then 50
    else if longestCol <? 5 then 8 else longestCol in
  do_ write (OListHeader longestCol);
  do entries <- range_map (containers d);
  do_ for_each entries
        (fun kv => do now <- time_Now;
                   write (OListRow longestCol (snd kv) now));
  ret None.

(** *** Dispatch *)

(** Calling the closure returned by [getMethod].  [CmdHelp] calls such a
    closure itself; [fuel] bounds the depth of these calls, and depth 2
    is never exceeded ([call_depth]). *)
Fixpoint call (fuel : nat) (m : Method) : Cmd :=
  match fuel with
  | O => fun _ _ s => (OutOfFuel, s)
  | S n =>
      match m with
      | MHelp => CmdHelp (call n)
      | MLayers => CmdLayers
      | MGet => CmdGet
      | MPut => CmdPut
      | MExport => CmdExport
      | MRun => CmdRun
      | MClone => CmdClone
      | MList => CmdList
      | MUsage => CmdUsage
      end
  end.

Definition invoke : Method -> Cmd := call 2.

(** [func (docker *Docker) ServeHTTP(w, r)], after
    [cmd, args := URLToCall(r.URL)]; [body] is the request body. *)
Definition ServeHTTP (cmd : string) (args : list string) (body : string)
  : M unit :=
  if String.eqb cmd "" then
    do_ CmdUsage body [""]; ret tt
  else
    do method <- lift (getMethod cmd);
    match method with
    | None => do_ CmdUsage body [cmd]; ret tt
    | Some m =>
        do err <- invoke m body args;
        match err with
        | Some msg => write (OBytes ("Error: " ++ msg ++ newline))
        | None => ret tt
        end
    end.

(** [ServeHTTP] from its first statement on: the call is read off the
    URL of the request. *)
Definition ServeHTTP_url (u : URL) (body : string) : M unit :=
  let '(cmd, args) := URLToCall u in
  ServeHTTP cmd args body.

(** ** Notions used by the properties *)

(** The name [getMethod] looks up, without its ["Cmd"] prefix: first byte
    upper-cased, remainder lower-cased. *)
Definition normalize (name : string) : string :=
  match name with
  | EmptyString => EmptyString
  | String first rest =>
      strings_ToUpper (String first "") ++ strings_ToLower rest
  end.


(** The identifier [randomId] makes of the [i]-th value of math/rand. *)
Definition id_at (w : World) (i : nat) : string :=
  fst (ComputeId (bytes_NewBuffer (hex_int (rand_src w i mod 2 ^ 63)))).

(** The identifiers made of the first [n] values are pairwise distinct. *)
Definition ids_distinct (w : World) (n : nat) : Prop :=
  NoDup (map (id_at w) (seq 0 n)).

(** The states of the service: it starts with [New()] and serves one
    request after the other. *)
Inductive reachable : St -> Prop :=
| reach_New (w : World) : reachable (mkSt New w [] [])
| reach_ServeHTTP (s : St) (cmd : string) (args : list string)
    (body : string) :
    reachable s -> reachable (snd (ServeHTTP cmd args body s)).

(** The layers that the names of a layer list stand for, when the list
    resolves: a layer id stands for its layer, a container id for the
    layers of that container. *)
Definition resolved (d : Docker) (name : string) : bool :=
  bool_decide (is_Some (layers d !! name))
  || bool_decide (is_Some (containers d !! name)).

(** The command summary as a list of writes. *)
Definition summary : list Out :=
  OBytes help_header
  :: map (fun cmd => OBytes ("    " ++ pad10 (fst cmd) ++ snd cmd ++ newline))
         help_commands.

(** An identifier that [randomId] has generated so far. *)
Definition generated (w : World) (k : string) : Prop :=
  exists i, (i < rand_pos w)%nat /\ k = id_at w i.

(** What a computation may do to the source of random values: read on. *)
Definition frame (s s' : St) : Prop :=
  rand_src (world s') = rand_src (world s)
  /\ (rand_pos (world s) <= rand_pos (world s'))%nat.

(** What a handler may do to the registry: nothing, store one layer
    under a newly generated identifier, or store one container that is
    not running under a newly generated identifier. *)
Inductive effect (s s' : St) : Prop :=
| eff_none :
    docker s' = docker s -> effect s s'
| eff_layer (l : Layer.t) (p : nat) :
    (rand_pos (world s) <= p < rand_pos (world s'))%nat ->
    Layer.Id l = id_at (world s) p ->
    docker s'
    = mkDocker (<[Layer.Id l := l]> (layers (docker s)))
               (containers (docker s)) ->
    effect s s'
| eff_container (c : Container.t) (p : nat) :
    (rand_pos (world s) <= p < rand_pos (world s'))%nat ->
    Container.Id c = id_at (world s) p ->
    Container.Running c = false ->
    docker s'
    = mkDocker (layers (docker s))
               (<[Container.Id c := c]> (containers (docker s))) ->
    effect s s'.

Definition quiet_step (s s' : St) : Prop :=
  docker s' = docker s /\ frame s s'.

Definition tame_step (s s' : St) : Prop :=
  frame s s' /\ effect s s'.

Definition quiet {A} (m : M A) : Prop :=
  forall s, quiet_step s (snd (m s)).

Definition tame {A} (m : M A) : Prop :=
  forall s, tame_step s (snd (m s)).

(** The invariant of the registry: every key was generated by
    [randomId]; a container is stored under its own identifier and is
    not running; and, as long as the generated identifiers are pairwise
    distinct, no key names both a layer and a container. *)
Record Inv (s : St) : Prop := mkInv {
  inv_layers :
    forall k l, layers (docker s) !! k = Some l -> generated (world s) k;
  inv_containers :
    forall k c, containers (docker s) !! k = Some c ->
      Container.Id c = k /\ Container.Running c = false
      /\ generated (world s) k;
  inv_disjoint :
    ids_distinct (world s) (rand_pos (world s)) ->
    forall k, is_Some (layers (docker s) !! k) ->
      containers (docker s) !! k = None
}.

(** A computation that never reports the depth bound. *)
Definition returns {A} (m : M A) : Prop :=
  forall s, fst (m s) <> OutOfFuel.

(** *** Further notions *)

(** The layers a name of a layer list stands for: the layer stored under
    it, else the layers of the container stored under it. *)
Definition layers_of (d : Docker) (name : string) : option (list Layer.t) :=
  match layers d !! name with
  | Some layer => Some [layer]
  | None => Container.Layers <$> containers d !! name
  end.

(** The layers of a whole layer list, in its order, when every name
    resolves. *)
Fixpoint resolve_all (d : Docker) (names : list string)
  : option (list Layer.t) :=
  match names with
  | [] => Some []
  | name :: names' =>
      match layers_of d name, resolve_all d names' with
      | Some ls, Some rest => Some (ls ++ rest)%list
      | _, _ => None
      end
  end.

(** The flag sets that [CmdLayers] and [CmdExport] declare. *)
Definition layers_flags : FlagSet :=
  flags_Bool "q" false
    (Subcmd "layers" "[OPTIONS] [NAME]" "Show available filesystem layers").

Definition export_flags : FlagSet :=
  flags_Bool "s" false
    (Subcmd "export" "CONTAINER LAYER"
       "Create a new layer from the changes on a container's filesystem").

(** The world after [dr] more random values, [dc] more readings of the
    clock and [dp] more processes. *)
Definition advance (dr dc dp : nat) (w : World) : World :=
  mkWorld (rand_src w) (dr + rand_pos w) (clock_src w) (dc + clock_pos w)
          (proc_src w) (dp + proc_pos w) (range_src w) (range_pos w).

(** The world after [n] more [range] statements over a map. *)
Definition ranged (n : nat) (w : World) : World :=
  mkWorld (rand_src w) (rand_pos w) (clock_src w) (clock_pos w)
          (proc_src w) (proc_pos w) (range_src w) (n + range_pos w).

(** The order in which the [i]-th next [range] of world [w] visits the
    entries [l]. *)
Definition range_order {A} (w : World) (i : nat) (l : list A) : list A :=
  shuffle (range_src w (i + range_pos w)) l.

(** The world [w] with [choice] for its next [range]. *)
Definition with_next_range (choice : nat -> nat) (w : World) : World :=
  mkWorld (rand_src w) (rand_pos w) (clock_src w) (clock_pos w)
          (proc_src w) (proc_pos w)
          (fun n => if Nat.eqb n (range_pos w) then choice else range_src w n)
          (range_pos w).

(** The layer that [addLayer name source size] builds in world [w]. *)
Definition added_layer (w : World) (name source : string) (size : Z)
  : Layer.t :=
  Layer.mk
    (id_at w (if size =? 0 then S (rand_pos w) else rand_pos w))
    name
    (clock_src w (clock_pos w))
    (if size =? 0 then rand_src w (rand_pos w) mod (142 * 1024 * 1024)
     else size)
    source.

(** The container that [CmdRun] builds in world [w], before its layers. *)
Definition new_container (w : World) (cmd : string) (cmd_args : list string)
  : Container.t :=
  Container.mk (id_at w (rand_pos w)) cmd cmd_args []
    (clock_src w (clock_pos w))
    (rand_src w (S (rand_pos w)) mod 42)
    (rand_src w (S (S (rand_pos w))) mod (24 * 1024 * 1024))
    false.

(** The word that names a method in a request. *)
Definition command_word (m : Method) : string :=
  match m with
  | MHelp => "help" | MLayers => "layers" | MGet => "get" | MPut => "put"
  | MExport => "export" | MRun => "run" | MClone => "clone"
  | MList => "list" | MUsage => "usage"
  end.

(** What a handler does to the registry, with what it stores: nothing, a
    layer under its own identifier, or a container, not running, under its
    own identifier, whose layers are those of a non-empty layer list. *)
Inductive change (s s' : St) : Prop :=
| ch_none :
    docker s' = docker s -> change s s'
| ch_layer (l : Layer.t) :
    docker s'
    = mkDocker (<[Layer.Id l := l]> (layers (docker s)))
               (containers (docker s)) ->
    change s s'
| ch_container (names : list string) (ls : list Layer.t)
    (c : Container.t) :
    names <> [] ->
    resolve_all (docker s) names = Some ls ->
    Container.Layers c = ls ->
    Container.Running c = false ->
    docker s'
    = mkDocker (layers (docker s))
               (<[Container.Id c := c]> (containers (docker s))) ->
    change s s'.

Definition careful {A} (m : M A) : Prop :=
  forall s, change s (snd (m s)).

(** The shape of the registry: a layer is stored under its own identifier;
    a container is stored under its own identifier, has at least one
    layer, and each of its layers bears the identifier of a stored layer. *)
Record WF (d : Docker) : Prop := mkWF {
  wf_layer_key :
    forall k l, layers d !! k = Some l -> Layer.Id l = k;
  wf_container_key :
    forall k c, containers d !! k = Some c -> Container.Id c = k;
  wf_container_layers :
    forall k c, containers d !! k = Some c -> Container.Layers c <> [];
  wf_layer_refs :
    forall k c l, containers d !! k = Some c -> l ∈ Container.Layers c ->
      is_Some (layers d !! Layer.Id l)
}.

(** A computation that ends with a value, whatever the state. *)
Definition succeeds {A} (m : M A) : Prop :=
  forall s, exists a, fst (m s) = Val a.

(** The value of a hexadecimal digit, as [hex_digit] writes it. *)
Definition unhex_digit (a : ascii) : Z :=
  let v := byte_val a in
  if v <? 58 then v - 48 else v - 87.

Fixpoint unhex_bytes (h : string) : string :=
  match h with
  | String hi (String lo r) =>
      String (ascii_of_N (Z.to_N (16 * unhex_digit hi + unhex_digit lo)))
             (unhex_bytes r)
  | _ => EmptyString
  end.

(** What [flags.Parse] prints, and the state after it. *)
Definition usage_of (f : FlagSet) : Out :=
  OSubcmdUsage (fs_name f) (fs_signature f) (fs_description f).

Definition parse_output (r : FlagSet * option FlagErr) : list Out :=
  match snd r with
  | None => []
  | Some ErrHelp => [usage_of (fst r)]
  | Some err => [OFlagErr err; usage_of (fst r)]
  end.

Definition after_parse (s : St) (r : FlagSet * option FlagErr) : St :=
  mkSt (docker s) (world s) (out s ++ parse_output r) (runs s).

(** The filter of [CmdLayers]: no filter, or the name of the layer. *)
Definition name_matches (nameFilter : string) (l : Layer.t) : bool :=
  String.eqb nameFilter "" || String.eqb nameFilter (Layer.Name l).

(** One write per element, each with the next reading of the clock,
    starting at reading [p]. *)
Fixpoint stamped {A} (g : A -> Z -> Out) (clock : nat -> Z) (p : nat)
    (l : list A) : list Out :=
  match l with
  | [] => []
  | x :: r => g x (clock p) :: stamped g clock (S p) r
  end.

(** A lower-case hexadecimal digit. *)
Definition is_hex_digit (a : ascii) : bool :=
  let v := byte_val a in
  ((48 <=? v) && (v <=? 57)) || ((97 <=? v) && (v <=? 102)).

(** The arguments [-l n1 ... -l nk] of a layer list. *)
Definition layer_flags (names : list string) : list string :=
  flat_map (fun n => ["-l"; n]) names.

(** A flag set whose [ArgList] [name] holds [l], with [args] left over. *)
Definition with_list (f : FlagSet) (name : string) (l args : list string)
  : FlagSet :=
  mkFlagSet (fs_name f) (fs_signature f) (fs_description f) (fs_bools f)
            (<[name := l]> (fs_lists f)) args.

(** The width [CmdList] gives to its command column. *)
Definition list_column (d : Docker) : Z :=
  let longestCol :=
    fold_left (fun acc kv =>
                 let l := len (CmdString (snd kv)) in
                 if l >? acc then l else acc)
              (map_to_list (containers d)) 0 in
  if longestCol >? 50 then 50
  else if longestCol <? 5 then 8 else longestCol.

(** * Properties of the process runner *)

Lemma release_set_running (c : Container.t) :
  Container.Running c = false ->
  release (Container.set_Running true c) = c.
Proof. destruct c; simpl; intros ->; reflexivity. Qed.

Lemma Run_body_container (c : Container.t) (stdin : string)
    (po : ProcOutcome) :
  rr_container (Run_body c stdin po) = c.
Proof.
  unfold Run_body, copy_in_task, copy_out_task; simpl.
  destruct (po_start po), (po_wait po), (po_copy po); reflexivity.
Qed.

(** C1.  A container whose running flag is set is refused at once: [Run]
    returns the error "Already running", performs no step (no process is
    started, no goroutine launched), and leaves the container as it was;
    inside a handler the registry, the world and the output are untouched
    as well. *)
Theorem Run_already_running (c : Container.t) (stdin : string)
    (po : ProcOutcome) (s : St) :
  Container.Running c = true ->
  rr_err (Run c stdin po) = Some "Already running"
  /\ rr_site (Run c stdin po) = AtAlreadyRunning
  /\ rr_steps (Run c stdin po) = []
  /\ rr_copy_out (Run c stdin po) = None
  /\ rr_copy_in (Run c stdin po) = None
  /\ rr_container (Run c stdin po) = c
  /\ fst (container_Run c stdin s) = Val (Some "Already running")
  /\ docker (snd (container_Run c stdin s)) = docker s
  /\ world (snd (container_Run c stdin s)) = world s
  /\ out (snd (container_Run c stdin s)) = out s.
Proof.
  intros Hrun. unfold container_Run, Run. rewrite Hrun. simpl.
  repeat split; reflexivity.
Qed.

(** C2.  A container that is not running at entry is not running when
    [Run] returns, whatever the process and the copies did (spawn failure,
    exit error, copy error, success): the receiver afterwards is the
    receiver of the body passed through the one deferred [release], and
    it equals the container at entry. *)
Theorem Run_releases_running (c : Container.t) (stdin : string)
    (po : ProcOutcome) :
  Container.Running c = false ->
  Container.Running (rr_container (Run c stdin po)) = false
  /\ rr_container (Run c stdin po)
     = release (rr_container
                  (Run_body (Container.set_Running true c) stdin po))
  /\ rr_container (Run c stdin po) = c
  /\ rr_site (Run c stdin po)
     = rr_site (Run_body (Container.set_Running true c) stdin po)
  /\ rr_err (Run c stdin po)
     = rr_err (Run_body (Container.set_Running true c) stdin po).
Proof.
  intros Hidle. unfold Run. rewrite Hidle. simpl.
  rewrite Run_body_container.
  rewrite (release_set_running c Hidle).
  repeat split; auto.
Qed.

(** C6.  When the process was started and [cmd.Wait()] reports an error,
    [Run] returns that error and has received from neither channel,
    whatever the copies did; and [Run] returns at the output-copy error
    only when the process was started and waited for without error, in
    which case the error returned is the one of the copy. *)
Theorem Run_wait_error_first (c : Container.t) (stdin : string)
    (po : ProcOutcome) :
  Container.Running c = false ->
  (forall e, po_start po = None -> po_wait po = Some e ->
     rr_err (Run c stdin po) = Some e
     /\ rr_site (Run c stdin po) = AtWaitErr
     /\ rr_steps (Run c stdin po)
        = [SStart (Container.Cmd c) (Container.Args c);
           SGo CopyOut; SGo CopyIn; SWait]
     /\ (forall t, SRecv t ∉ rr_steps (Run c stdin po)))
  /\ (rr_site (Run c stdin po) = AtCopyOutErr ->
      po_start po = None /\ po_wait po = None
      /\ po_copy po = rr_err (Run c stdin po)
      /\ is_Some (rr_err (Run c stdin po)))
  /\ (forall e, po_start po = None -> po_wait po = None ->
      po_copy po = Some e ->
      rr_err (Run c stdin po) = Some e
      /\ rr_site (Run c stdin po) = AtCopyOutErr).
Proof.
  intros Hidle. unfold Run. rewrite Hidle. simpl.
  unfold Run_body, copy_in_task, copy_out_task; simpl.
  split; [| split].
  - intros e Hs Hw. rewrite Hs, Hw. simpl.
    repeat split; auto.
    intros t Hin. rewrite !elem_of_cons in Hin.
    destruct Hin as [H | [H | [H | [H | H]]]]; try discriminate.
    by apply elem_of_nil in H.
  - destruct (po_start po), (po_wait po), (po_copy po) eqn:Hc;
      simpl; try discriminate.
    intros _. repeat split; eauto.
  - intros e Hs Hw Hc. rewrite Hs, Hw. simpl. rewrite Hc. simpl. auto.
Qed.

(** C9.  Whatever the caller sends on its input, the input goroutine of
    a run does exactly two things, closing the child's input sink and
    closing the caller's stream; it writes nothing to the child, reports
    no error, and [Run] never returns at the check of its result. *)
Theorem Run_discards_stdin (c : Container.t) (stdin : string)
    (po : ProcOutcome) :
  (forall t, rr_copy_in (Run c stdin po) = Some t ->
     task_io t = [CloseChildStdin; CloseStdin] /\ task_ret t = None)
  /\ child_stdin_bytes (Run c stdin po) = []
  /\ (forall bytes t, rr_copy_in (Run c stdin po) = Some t ->
        WriteChildStdin bytes ∉ task_io t)
  /\ rr_site (Run c stdin po) <> AtCopyInErr
  /\ (Container.Running c = false -> po_start po = None ->
      rr_copy_in (Run c stdin po) = Some (copy_in_task stdin)).
Proof.
  assert (Hin : rr_copy_in (Run c stdin po) = None
                \/ rr_copy_in (Run c stdin po) = Some (copy_in_task stdin)).
  { unfold Run, Run_body, copy_out_task; simpl.
    destruct (Container.Running c); simpl; auto.
    destruct (po_start po), (po_wait po), (po_copy po); simpl; auto. }
  split; [| split; [| split; [| split]]].
  - intros t Ht. destruct Hin as [Hin | Hin]; rewrite Hin in Ht;
      inversion Ht; subst; auto.
  - unfold child_stdin_bytes.
    destruct Hin as [Hin | Hin]; rewrite Hin; reflexivity.
  - intros bytes t Ht Hmem.
    destruct Hin as [Hin | Hin]; rewrite Hin in Ht; inversion Ht; subst.
    simpl in Hmem. rewrite !elem_of_cons in Hmem.
    destruct Hmem as [H | [H | H]]; try discriminate.
    by apply elem_of_nil in H.
  - unfold Run, Run_body, copy_in_task, copy_out_task; simpl.
    destruct (Container.Running c); simpl; try discriminate.
    destruct (po_start po), (po_wait po), (po_copy po); simpl; discriminate.
  - intros Hidle Hs. unfold Run, Run_body, copy_out_task.
    rewrite Hidle. simpl. rewrite Hs.
    destruct (po_wait po), (po_copy po); reflexivity.
Qed.

(** * Properties of the dispatcher *)

Lemma for_each_write {A} (g : A -> Out) (l : list A) (s : St) :
  for_each l (fun x => write (g x)) s
  = (Val tt, mkSt (docker s) (world s) (out s ++ map g l) (runs s)).
Proof.
  revert s. induction l as [| x l IH]; intros s; simpl.
  - unfold ret. rewrite app_nil_r. destruct s; reflexivity.
  - unfold bind, write at 1. simpl. rewrite IH. simpl.
    rewrite <- app_assoc. reflexivity.
Qed.

Lemma write_summary_spec (s : St) :
  write_summary s
  = (Val tt, mkSt (docker s) (world s) (out s ++ summary) (runs s)).
Proof.
  unfold write_summary, bind. unfold write at 1. cbv beta iota.
  rewrite for_each_write. cbn [docker world out runs].
  rewrite <- app_assoc. reflexivity.
Qed.

(** C7.  [getMethod] looks a non-empty name up under its normal form
    (first byte upper-cased, remainder lower-cased, after ["Cmd"]);
    ["Run"], ["run"] and ["RUN"] all yield the method [CmdRun]; and two
    non-empty names with the same normal form yield the same method. *)
Theorem getMethod_case_normalizing :
  (forall name, name <> "" ->
     getMethod name = Val (MethodByName ("Cmd" ++ normalize name)))
  /\ getMethod "Run" = Val (Some MRun)
  /\ getMethod "run" = Val (Some MRun)
  /\ getMethod "RUN" = Val (Some MRun)
  /\ (forall n1 n2, n1 <> "" -> n2 <> "" ->
        normalize n1 = normalize n2 -> getMethod n1 = getMethod n2).
Proof.
  assert (H : forall name, name <> "" ->
            getMethod name = Val (MethodByName ("Cmd" ++ normalize name))).
  { intros [| a r] Hne; [congruence | reflexivity]. }
  split; [exact H |].
  split; [reflexivity |]. split; [reflexivity |]. split; [reflexivity |].
  intros n1 n2 H1 H2 Heq. rewrite (H n1 H1), (H n2 H2), Heq. reflexivity.
Qed.

(** C8.  A request whose command name is empty, or is the name of no
    method, gets the command summary written on its output and nothing
    else: the usage handler returns no error, no error line is written,
    and the registry is left as it was.  The same summary is what [help]
    without an argument writes, again without an error. *)
Theorem ServeHTTP_unrecognized (cmd : string) (args : list string)
    (body : string) (s : St) :
  cmd = "" \/ getMethod cmd = Val None ->
  ServeHTTP cmd args body s
  = (Val tt, mkSt (docker s) (world s) (out s ++ summary) (runs s))
  /\ fst (CmdUsage body [cmd] s) = Val None
  /\ ServeHTTP "help" [] body s
     = (Val tt, mkSt (docker s) (world s) (out s ++ summary) (runs s))
  /\ fst (CmdHelp invoke body [] s) = Val None.
Proof.
  intros Hcmd. split_and!.
  - unfold ServeHTTP.
    destruct (String.eqb cmd "") eqn:Heq.
    + unfold CmdUsage, bind. rewrite write_summary_spec. reflexivity.
    + destruct Hcmd as [-> | Hnone]; [discriminate |].
      unfold bind at 1, lift. rewrite Hnone.
      unfold CmdUsage, bind. rewrite write_summary_spec. reflexivity.
  - unfold CmdUsage, bind. rewrite write_summary_spec. reflexivity.
  - unfold ServeHTTP. cbn [String.eqb Ascii.eqb Bool.eqb].
    unfold bind at 1, lift.
    change (getMethod "help") with (@Val (option Method) (Some MHelp)).
    cbv beta iota. unfold invoke. cbn [call].
    unfold CmdHelp, bind. rewrite write_summary_spec. reflexivity.
  - unfold CmdHelp, bind. rewrite write_summary_spec. reflexivity.
Qed.

(** * Properties of the registry *)

Lemma mod_range (v n : Z) : 0 < n -> 0 <= v mod n < n.
Proof. intros H. apply Z.mod_pos_bound. exact H. Qed.

(** C10 (as the code has it).  [addLayer] returns a layer with the given
    name and source and with the identifier that [randomId] generates at
    that moment, and stores it in the layer map under that identifier;
    the container map is untouched.  A non-zero size is stored as given;
    for size zero the stored size is the value of [rand.Int31n], which
    lies in [[0, 142*1024*1024)]: it can be zero. *)
Theorem addLayer_stores (name source : string) (size : Z) (s : St) :
  exists layer s',
    addLayer name source size s = (Val layer, s')
    /\ Layer.Name layer = name
    /\ Layer.Source layer = source
    /\ Layer.Id layer
       = id_at (world s)
           (if size =? 0 then S (rand_pos (world s))
            else rand_pos (world s))
    /\ layers (docker s') !! Layer.Id layer = Some layer
    /\ layers (docker s') = <[Layer.Id layer := layer]> (layers (docker s))
    /\ containers (docker s') = containers (docker s)
    /\ (size <> 0 -> Layer.Size layer = size)
    /\ (size = 0 ->
        Layer.Size layer
        = rand_src (world s) (rand_pos (world s)) mod (142 * 1024 * 1024)
        /\ 0 <= Layer.Size layer < 142 * 1024 * 1024).
Proof.
  unfold addLayer, randomId, randomBytes, rand_Int, rand_Int31n, id_at.
  destruct (size =? 0) eqn:Hz.
  - apply Z.eqb_eq in Hz.
    eexists _, _. split; [reflexivity |]. simpl.
    split_and!; try reflexivity.
    + apply lookup_insert_eq.
    + intros Hne. congruence.
    + intros _. split; [reflexivity |]. apply mod_range. lia.
  - apply Z.eqb_neq in Hz.
    eexists _, _. split; [reflexivity |]. simpl.
    split_and!; try reflexivity.
    + apply lookup_insert_eq.
    + intros Hzero. congruence.
Qed.

(** * The effect of the handlers on the registry *)

Lemma frame_refl (s : St) : frame s s.
Proof. split; [reflexivity | lia]. Qed.

Lemma frame_trans (s1 s2 s3 : St) : frame s1 s2 -> frame s2 s3 -> frame s1 s3.
Proof. intros [H1 L1] [H2 L2]. split; [congruence | lia]. Qed.

Lemma id_at_frame (s s' : St) (i : nat) :
  frame s s' -> id_at (world s') i = id_at (world s) i.
Proof. intros [H _]. unfold id_at. rewrite H. reflexivity. Qed.

Lemma quiet_step_refl (s : St) : quiet_step s s.
Proof. split; [reflexivity | apply frame_refl]. Qed.

Lemma quiet_step_trans (s1 s2 s3 : St) :
  quiet_step s1 s2 -> quiet_step s2 s3 -> quiet_step s1 s3.
Proof.
  intros [D1 F1] [D2 F2]. split; [congruence | eapply frame_trans; eauto].
Qed.

Lemma quiet_tame_step (s s' : St) : quiet_step s s' -> tame_step s s'.
Proof. intros [D F]. split; [exact F | apply eff_none; exact D]. Qed.

Lemma quiet_then_tame (s1 s2 s3 : St) :
  quiet_step s1 s2 -> tame_step s2 s3 -> tame_step s1 s3.
Proof.
  intros [D1 F1] [F2 E]. split; [eapply frame_trans; eauto |].
  pose proof F1 as [Hsrc Hpos].
  destruct E as [D2 | l p Hp Hid D2 | c p Hp Hid Hrun D2].
  - apply eff_none. congruence.
  - apply (eff_layer _ _ l p); [lia | |].
    + rewrite Hid. apply id_at_frame. exact F1.
    + rewrite D2, D1. reflexivity.
  - apply (eff_container _ _ c p); [lia | | exact Hrun |].
    + rewrite Hid. apply id_at_frame. exact F1.
    + rewrite D2, D1. reflexivity.
Qed.

Lemma tame_then_quiet (s1 s2 s3 : St) :
  tame_step s1 s2 -> quiet_step s2 s3 -> tame_step s1 s3.
Proof.
  intros [F1 E] [D2 F2]. split; [eapply frame_trans; eauto |].
  pose proof F2 as [Hsrc Hpos].
  destruct E as [D1 | l p Hp Hid D1 | c p Hp Hid Hrun D1].
  - apply eff_none. congruence.
  - apply (eff_layer _ _ l p); [lia | exact Hid | congruence].
  - apply (eff_container _ _ c p); [lia | exact Hid | exact Hrun | congruence].
Qed.

Lemma quiet_tame {A} (m : M A) : quiet m -> tame m.
Proof. intros H s. apply quiet_tame_step, H. Qed.

Lemma quiet_ret {A} (a : A) : quiet (ret a).
Proof. intros s. apply quiet_step_refl. Qed.

Lemma quiet_lift {A} (r : Res A) : quiet (lift r).
Proof. intros s. apply quiet_step_refl. Qed.

Lemma quiet_write (o : Out) : quiet (write o).
Proof. intros s. split; [reflexivity | split; simpl; [reflexivity | lia]]. Qed.

Lemma quiet_log_run (r : RunResult) : quiet (log_run r).
Proof. intros s. split; [reflexivity | split; simpl; [reflexivity | lia]]. Qed.

Lemma quiet_get_docker : quiet get_docker.
Proof. intros s. apply quiet_step_refl. Qed.

Lemma quiet_time_Now : quiet time_Now.
Proof. intros s. split; [reflexivity | split; simpl; [reflexivity | lia]]. Qed.

Lemma quiet_next_proc : quiet next_proc.
Proof. intros s. split; [reflexivity | split; simpl; [reflexivity | lia]]. Qed.

Lemma quiet_rand_next : quiet rand_next.
Proof. intros s. split; [reflexivity | split; simpl; [reflexivity | lia]]. Qed.

Lemma quiet_bind {A B} (m : M A) (k : A -> M B) :
  quiet m -> (forall a, quiet (k a)) -> quiet (bind m k).
Proof.
  intros Hm Hk s. unfold bind. specialize (Hm s).
  destruct (m s) as [[a | msg |] s1] eqn:E; simpl in Hm; try exact Hm.
  eapply quiet_step_trans; [exact Hm | apply Hk].
Qed.

Lemma quiet_bind_tame {A B} (m : M A) (k : A -> M B) :
  quiet m -> (forall a, tame (k a)) -> tame (bind m k).
Proof.
  intros Hm Hk s. unfold bind. specialize (Hm s).
  destruct (m s) as [[a | msg |] s1] eqn:E; simpl in Hm;
    try (apply quiet_tame_step; exact Hm).
  eapply quiet_then_tame; [exact Hm | apply Hk].
Qed.

Lemma tame_bind_quiet {A B} (m : M A) (k : A -> M B) :
  tame m -> (forall a, quiet (k a)) -> tame (bind m k).
Proof.
  intros Hm Hk s. unfold bind. specialize (Hm s).
  destruct (m s) as [[a | msg |] s1] eqn:E; simpl in Hm; try exact Hm.
  eapply tame_then_quiet; [exact Hm | apply Hk].
Qed.

Lemma quiet_for_each {A} (l : list A) (body : A -> M unit) :
  (forall x, quiet (body x)) -> quiet (for_each l body).
Proof.
  intros Hb. induction l as [| x l IH]; simpl.
  - apply quiet_ret.
  - apply quiet_bind; [apply Hb | intros _; exact IH].
Qed.

Lemma quiet_rand_Int31n (n : Z) : quiet (rand_Int31n n).
Proof.
  apply quiet_bind; [apply quiet_rand_next | intros; apply quiet_ret].
Qed.

Lemma quiet_randomId : quiet randomId.
Proof.
  unfold randomId, randomBytes, rand_Int.
  repeat (apply quiet_bind; [| intros]);
    first [apply quiet_rand_next | apply quiet_ret].
Qed.

Lemma quiet_flags_Usage (f : FlagSet) : quiet (flags_Usage f).
Proof. apply quiet_write. Qed.

Lemma quiet_flags_Parse (f : FlagSet) (args : list string) :
  quiet (flags_Parse f args).
Proof.
  unfold flags_Parse. destruct (flag_Parse f args) as [f' [e |]].
  - destruct e;
      repeat (apply quiet_bind; [| intros]);
      first [apply quiet_write | apply quiet_flags_Usage | apply quiet_ret].
  - apply quiet_ret.
Qed.

Lemma quiet_container_Run (c : Container.t) (stdin : string) :
  quiet (container_Run c stdin).
Proof.
  unfold container_Run.
  apply quiet_bind.
  - destruct (Container.Running c);
      [apply quiet_ret | apply quiet_next_proc].
  - intros po.
    apply quiet_bind; [apply quiet_for_each; intros; apply quiet_write |].
    intros _. apply quiet_bind; [apply quiet_log_run |].
    intros _. apply quiet_ret.
Qed.

Lemma add_layers_inl (d : Docker) (names : list string)
    (c c' : Container.t) :
  add_layers d names c = inl c' ->
  Container.Id c' = Container.Id c
  /\ Container.Cmd c' = Container.Cmd c
  /\ Container.Args c' = Container.Args c
  /\ Container.Running c' = Container.Running c.
Proof.
  revert c. induction names as [| name names IH]; intros c H; simpl in H.
  - inversion H; subst; auto.
  - destruct (layers d !! name) as [layer |].
    + apply IH in H. simpl in H. exact H.
    + destruct (containers d !! name) as [src |]; [| discriminate].
      apply IH in H. simpl in H. exact H.
Qed.

Lemma resolved_false (d : Docker) (name : string) :
  resolved d name = false <->
  layers d !! name = None /\ containers d !! name = None.
Proof.
  unfold resolved. rewrite orb_false_iff, !bool_decide_eq_false.
  rewrite <- !eq_None_not_Some. reflexivity.
Qed.

Lemma resolved_true (d : Docker) (name : string) :
  resolved d name = true <->
  is_Some (layers d !! name) \/ is_Some (containers d !! name).
Proof.
  unfold resolved. rewrite orb_true_iff, !bool_decide_eq_true. reflexivity.
Qed.

(** The loop stops at the first name that does not resolve. *)
Lemma add_layers_unresolved (d : Docker) (names : list string) :
  (exists name, name ∈ names /\ resolved d name = false) ->
  exists pre name post,
    names = (pre ++ name :: post)%list
    /\ Forall (fun n => resolved d n = true) pre
    /\ resolved d name = false
    /\ forall c, add_layers d names c
                 = inr ("No such layer or container: " ++ name).
Proof.
  induction names as [| n names IH]; intros (name & Hin & Hres).
  - by apply elem_of_nil in Hin.
  - destruct (resolved d n) eqn:Hn.
    + apply elem_of_cons in Hin. destruct Hin as [-> | Hin]; [congruence |].
      destruct IH as (pre & name' & post & Heq & Hpre & Hres' & Hadd);
        [eauto |].
      exists (n :: pre), name', post. subst names.
      split; [reflexivity |]. split; [constructor; assumption |].
      split; [assumption |].
      intros c. simpl. apply resolved_true in Hn.
      destruct (layers d !! n) as [layer |]; [apply Hadd |].
      destruct (containers d !! n) as [src |]; [apply Hadd |].
      destruct Hn as [[? H] | [? H]]; discriminate.
    + exists [], n, names. split; [reflexivity |]. split; [constructor |].
      split; [assumption |].
      intros c. simpl. apply resolved_false in Hn. destruct Hn as [-> ->].
      reflexivity.
Qed.

Lemma quiet_range_map {V} (m : gmap string V) : quiet (range_map m).
Proof. intros s. split; [reflexivity | split; simpl; [reflexivity | lia]]. Qed.

Ltac solve_quiet :=
  repeat match goal with
    | |- quiet (ret _) => apply quiet_ret
    | |- quiet (range_map _) => apply quiet_range_map
    | |- quiet (lift _) => apply quiet_lift
    | |- quiet (write _) => apply quiet_write
    | |- quiet (log_run _) => apply quiet_log_run
    | |- quiet (flags_Usage _) => apply quiet_flags_Usage
    | |- quiet (flags_Parse _ _) => apply quiet_flags_Parse
    | |- quiet get_docker => apply quiet_get_docker
    | |- quiet time_Now => apply quiet_time_Now
    | |- quiet randomId => apply quiet_randomId
    | |- quiet (rand_Int31n _) => apply quiet_rand_Int31n
    | |- quiet (container_Run _ _) => apply quiet_container_Run
    | |- quiet (for_each _ _) => apply quiet_for_each; intros
    | |- quiet (bind _ _) => apply quiet_bind; [| intros]
    | |- quiet (match ?x with _ => _ end) => destruct x
    | |- quiet (if ?b then _ else _) => destruct b
    end.

Lemma tame_addLayer (name source : string) (size : Z) :
  tame (addLayer name source size).
Proof.
  intros s.
  unfold addLayer, randomId, randomBytes, rand_Int, rand_Int31n.
  destruct (size =? 0); cbn.
  - split; [split; simpl; [reflexivity | lia] |].
    eapply (eff_layer _ _ (Layer.mk _ name _ _ source)
              (S (rand_pos (world s)))); simpl;
      [lia | reflexivity | reflexivity].
  - split; [split; simpl; [reflexivity | lia] |].
    eapply (eff_layer _ _ (Layer.mk _ name _ _ source)
              (rand_pos (world s))); simpl;
      [lia | reflexivity | reflexivity].
Qed.

Lemma quiet_write_summary : quiet write_summary.
Proof. unfold write_summary. solve_quiet. Qed.

Lemma quiet_CmdUsage (stdin : string) (args : list string) :
  quiet (CmdUsage stdin args).
Proof.
  unfold CmdUsage. apply quiet_bind; [apply quiet_write_summary |].
  intros _. apply quiet_ret.
Qed.

Lemma quiet_CmdLayers (stdin : string) (args : list string) :
  quiet (CmdLayers stdin args).
Proof. unfold CmdLayers. solve_quiet. Qed.

Lemma quiet_CmdList (stdin : string) (args : list string) :
  quiet (CmdList stdin args).
Proof. unfold CmdList. solve_quiet. Qed.

Lemma tame_CmdGet (stdin : string) (args : list string) :
  tame (CmdGet stdin args).
Proof.
  unfold CmdGet. destruct args as [| arg0 rest].
  - apply quiet_tame. solve_quiet.
  - apply quiet_bind_tame; [solve_quiet |]. intros _.
    apply tame_bind_quiet; [apply tame_addLayer |]. intros layer.
    solve_quiet.
Qed.

Lemma tame_CmdPut (stdin : string) (args : list string) :
  tame (CmdPut stdin args).
Proof.
  unfold CmdPut. destruct args as [| arg0 rest].
  - apply quiet_tame. solve_quiet.
  - apply tame_bind_quiet; [apply tame_addLayer |]. intros layer.
    solve_quiet.
Qed.

Lemma tame_CmdExport (stdin : string) (args : list string) :
  tame (CmdExport stdin args).
Proof.
  unfold CmdExport.
  apply quiet_bind_tame; [solve_quiet |]. intros [flags [e |]].
  - apply quiet_tame. solve_quiet.
  - destruct (flags_NArg flags <? 2); [apply quiet_tame; solve_quiet |].
    apply quiet_bind_tame; [solve_quiet |]. intros d.
    destruct (containers d !! flags_Arg flags 0) as [container |].
    + apply tame_bind_quiet; [apply tame_addLayer |]. intros layer.
      solve_quiet.
    + apply quiet_tame. solve_quiet.
Qed.

(** The container that [CmdRun] builds in state [s] before it resolves
    the layers, and the world after the values it has read. *)
Lemma CmdRun_parsed (stdin : string) (args : list string) (s : St)
    (f : FlagSet) :
  flag_Parse run_flags args = (f, None) ->
  list_flag f "l" <> [] ->
  fs_args f <> [] ->
  let w := world s in
  let w' := mkWorld (rand_src w) (S (S (S (rand_pos w))))
                    (clock_src w) (S (clock_pos w))
                    (proc_src w) (proc_pos w)
                    (range_src w) (range_pos w) in
  let container :=
    Container.mk (id_at w (rand_pos w)) (flags_Arg f 0)
      (drop 1 (fs_args f)) []
      (clock_src w (clock_pos w))
      (rand_src w (S (rand_pos w)) mod 42)
      (rand_src w (S (S (rand_pos w))) mod (24 * 1024 * 1024))
      false in
  CmdRun stdin args s
  = match add_layers (docker s) (list_flag f "l") container with
    | inr msg => (Val (Some msg), mkSt (docker s) w' (out s) (runs s))
    | inl c =>
        container_Run c stdin
          (mkSt (mkDocker (layers (docker s))
                   (<[Container.Id c := c]> (containers (docker s))))
                w' (out s) (runs s))
    end.
Proof.
  intros Hparse Hl Hargs. unfold CmdRun, flags_Parse. rewrite Hparse.
  unfold bind at 1, ret at 1. cbv beta iota.
  destruct (list_flag f "l") as [| l0 ls] eqn:El; [congruence |].
  replace (Z.of_nat (length (l0 :: ls)) <? 1) with false
    by (symmetry; apply Z.ltb_ge; simpl length; lia).
  unfold flags_NArg, flags_Args.
  destruct (fs_args f) as [| a0 rest] eqn:Ea; [congruence |].
  replace (Z.of_nat (length (a0 :: rest)) <? 1) with false
    by (symmetry; apply Z.ltb_ge; simpl length; lia).
  assert (Hdrop : (if Z.of_nat (length (a0 :: rest)) >? 1
                   then drop 1 (a0 :: rest) else []) = drop 1 (a0 :: rest)).
  { destruct rest as [| a1 rest]; [reflexivity |].
    replace (Z.of_nat (length (a0 :: a1 :: rest)) >? 1) with true
      by (symmetry; apply Z.gtb_lt; simpl length; lia).
    reflexivity. }
  rewrite Hdrop.
  cbv beta iota zeta delta
    [bind randomId randomBytes rand_Int rand_Int31n rand_next time_Now
     get_docker put_docker ret id_at ComputeId errors_New fst snd
     docker world out runs
     rand_src rand_pos clock_src clock_pos proc_src proc_pos].
  destruct (add_layers _ _ _) as [c | msg]; reflexivity.
Qed.

Lemma tame_CmdRun (stdin : string) (args : list string) :
  tame (CmdRun stdin args).
Proof.
  intros s.
  destruct (flag_Parse run_flags args) as [f e] eqn:Hparse.
  destruct e as [e |].
  { apply quiet_tame_step.
    unfold CmdRun. unfold bind at 1.
    pose proof (quiet_flags_Parse run_flags args s) as Hq.
    unfold flags_Parse in *. rewrite Hparse in *.
    destruct e; simpl in *; exact Hq. }
  destruct (list_flag f "l") as [| l0 ls] eqn:El.
  { apply quiet_tame_step.
    unfold CmdRun, flags_Parse. rewrite Hparse.
    unfold bind at 1, ret at 1. cbv beta iota. rewrite El.
    simpl. apply quiet_step_refl. }
  destruct (fs_args f) as [| a0 rest] eqn:Ea.
  { apply quiet_tame_step.
    unfold CmdRun, flags_Parse. rewrite Hparse.
    unfold bind at 1, ret at 1. cbv beta iota. rewrite El.
    unfold flags_NArg. rewrite Ea. simpl.
    destruct (Z.of_nat (S (length ls)) <? 1); apply quiet_step_refl. }
  rewrite (CmdRun_parsed stdin args s f Hparse)
    by (rewrite ?El, ?Ea; congruence).
  cbv zeta.
  destruct (add_layers _ _ _) as [c | msg] eqn:Hadd.
  - apply add_layers_inl in Hadd. simpl in Hadd.
    destruct Hadd as (Hid & _ & _ & Hrun).
    eapply tame_then_quiet; [| apply quiet_container_Run].
    split; [split; simpl; [reflexivity | lia] |].
    apply (eff_container _ _ c (rand_pos (world s))); simpl;
      [lia | exact Hid | exact Hrun | reflexivity].
  - apply quiet_tame_step.
    split; [reflexivity | split; simpl; [reflexivity | lia]].
Qed.

Lemma tame_CmdClone (stdin : string) (args : list string) :
  tame (CmdClone stdin args).
Proof.
  unfold CmdClone.
  apply quiet_bind_tame; [solve_quiet |]. intros [flags e].
  destruct (negb (bool_flag flags "r")); [apply quiet_tame; solve_quiet |].
  destruct (negb (flags_NArg flags =? 1)); [apply quiet_tame; solve_quiet |].
  apply quiet_bind_tame; [solve_quiet |]. intros d.
  destruct (containers d !! flags_Arg flags 0) as [container |].
  - apply tame_CmdRun.
  - apply quiet_tame. solve_quiet.
Qed.

Lemma tame_CmdHelp (invoke' : Method -> Cmd) (stdin : string)
    (args : list string) :
  (forall m stdin' args', tame (invoke' m stdin' args')) ->
  tame (CmdHelp invoke' stdin args).
Proof.
  intros Hinv. unfold CmdHelp. destruct args as [| arg0 rest].
  - apply quiet_tame.
    apply quiet_bind; [apply quiet_write_summary | intros; apply quiet_ret].
  - apply quiet_bind_tame; [solve_quiet |]. intros [m |].
    + apply tame_bind_quiet; [apply Hinv | intros; apply quiet_ret].
    + apply quiet_tame. solve_quiet.
Qed.

Lemma tame_call (fuel : nat) (m : Method) (stdin : string)
    (args : list string) :
  tame (call fuel m stdin args).
Proof.
  revert m stdin args. induction fuel as [| n IH]; intros m stdin args.
  - intros s. simpl. apply quiet_tame_step, quiet_step_refl.
  - destruct m; simpl.
    + apply tame_CmdHelp. exact IH.
    + apply quiet_tame, quiet_CmdLayers.
    + apply tame_CmdGet.
    + apply tame_CmdPut.
    + apply tame_CmdExport.
    + apply tame_CmdRun.
    + apply tame_CmdClone.
    + apply quiet_tame, quiet_CmdList.
    + apply quiet_tame, quiet_CmdUsage.
Qed.

Lemma tame_ServeHTTP (cmd : string) (args : list string) (body : string) :
  tame (ServeHTTP cmd args body).
Proof.
  unfold ServeHTTP. destruct (String.eqb cmd "").
  - apply quiet_tame.
    apply quiet_bind; [apply quiet_CmdUsage | intros; apply quiet_ret].
  - apply quiet_bind_tame; [solve_quiet |]. intros [m |].
    + apply tame_bind_quiet; [apply tame_call |]. intros err. solve_quiet.
    + apply quiet_tame.
      apply quiet_bind; [apply quiet_CmdUsage | intros; apply quiet_ret].
Qed.

(** * The invariant of the registry *)

Lemma ids_distinct_inj (w : World) (n : nat) :
  ids_distinct w n <->
  (forall i j, (i < n)%nat -> (j < n)%nat ->
     id_at w i = id_at w j -> i = j).
Proof.
  unfold ids_distinct. rewrite NoDup_alt. split.
  - intros H i j Hi Hj Heq.
    apply (H i j (id_at w i)).
    + rewrite list_lookup_fmap, lookup_seq_lt by lia. reflexivity.
    + rewrite list_lookup_fmap, lookup_seq_lt by lia. simpl. congruence.
  - intros H i j x Hi Hj.
    rewrite list_lookup_fmap in Hi, Hj.
    destruct (seq 0 n !! i) as [i' |] eqn:Ei; [| discriminate].
    destruct (seq 0 n !! j) as [j' |] eqn:Ej; [| discriminate].
    apply lookup_seq in Ei, Ej. destruct Ei as [-> Hi'], Ej as [-> Hj'].
    simpl in *. apply H; [lia | lia | congruence].
Qed.

Lemma ids_distinct_frame (s s' : St) (n n' : nat) :
  frame s s' -> (n <= n')%nat ->
  ids_distinct (world s') n' -> ids_distinct (world s) n.
Proof.
  intros F Hle. rewrite !ids_distinct_inj. intros H i j Hi Hj Heq.
  apply H; [lia | lia |]. rewrite !(id_at_frame s s') by exact F. exact Heq.
Qed.

Lemma generated_frame (s s' : St) (k : string) :
  frame s s' -> generated (world s) k -> generated (world s') k.
Proof.
  intros F (i & Hi & ->). exists i. destruct F as [Hsrc Hpos].
  split; [lia |]. unfold id_at. rewrite Hsrc. reflexivity.
Qed.

Lemma Inv_New (w : World) : Inv (mkSt New w [] []).
Proof.
  constructor; simpl.
  - intros k l H. rewrite lookup_empty in H. discriminate.
  - intros k c H. rewrite lookup_empty in H. discriminate.
  - intros _ k _. apply lookup_empty.
Qed.

(** A newly generated identifier is none of the earlier ones. *)
Lemma fresh_not_generated (s s' : St) (p : nat) (k : string) :
  frame s s' ->
  (rand_pos (world s) <= p < rand_pos (world s'))%nat ->
  ids_distinct (world s') (rand_pos (world s')) ->
  generated (world s) k -> k <> id_at (world s) p.
Proof.
  intros F Hp Hd (i & Hi & ->) Heq.
  rewrite ids_distinct_inj in Hd.
  assert (i = p); [| lia].
  apply Hd; [lia | lia |].
  rewrite !(id_at_frame s s') by exact F. exact Heq.
Qed.

Lemma Inv_step (s s' : St) : tame_step s s' -> Inv s -> Inv s'.
Proof.
  intros [F E] [IL IC ID].
  assert (Hprefix : ids_distinct (world s') (rand_pos (world s')) ->
                    ids_distinct (world s) (rand_pos (world s))).
  { apply ids_distinct_frame; [exact F | apply F]. }
  destruct E as [D | l p Hp Hid D | c p Hp Hid Hrun D].
  - constructor; rewrite D.
    + intros k l H. eapply generated_frame; eauto.
    + intros k c H. destruct (IC k c H) as (? & ? & ?).
      split_and!; auto. eapply generated_frame; eauto.
    + intros Hd. apply ID, Hprefix, Hd.
  - constructor; rewrite D; simpl.
    + intros k l' H. destruct (decide (Layer.Id l = k)) as [<- | Hne].
      * exists p. split; [lia |]. rewrite Hid. symmetry.
        apply id_at_frame. exact F.
      * rewrite lookup_insert_ne in H by exact Hne.
        eapply generated_frame; eauto.
    + intros k c H. destruct (IC k c H) as (? & ? & ?).
      split_and!; auto. eapply generated_frame; eauto.
    + intros Hd k Hk. destruct (decide (Layer.Id l = k)) as [<- | Hne].
      * destruct (containers (docker s) !! Layer.Id l) as [c |] eqn:Ec;
          [| reflexivity].
        exfalso. destruct (IC _ _ Ec) as (_ & _ & Hgen).
        apply (fresh_not_generated s s' p _ F Hp Hd Hgen). exact Hid.
      * rewrite lookup_insert_ne in Hk by exact Hne.
        apply ID; [apply Hprefix, Hd | exact Hk].
  - constructor; rewrite D; simpl.
    + intros k l H. eapply generated_frame; eauto.
    + intros k c' H. destruct (decide (Container.Id c = k)) as [<- | Hne].
      * rewrite lookup_insert_eq in H. inversion H; subst c'.
        split_and!; auto.
        exists p. split; [lia |]. rewrite Hid. symmetry.
        apply id_at_frame. exact F.
      * rewrite lookup_insert_ne in H by exact Hne.
        destruct (IC k c' H) as (? & ? & ?).
        split_and!; auto. eapply generated_frame; eauto.
    + intros Hd k Hk. destruct (decide (Container.Id c = k)) as [<- | Hne].
      * exfalso. destruct Hk as [l Hl]. pose proof (IL _ _ Hl) as Hgen.
        apply (fresh_not_generated s s' p _ F Hp Hd Hgen). exact Hid.
      * rewrite lookup_insert_ne by exact Hne.
        apply ID; [apply Hprefix, Hd | exact Hk].
Qed.

Lemma reachable_Inv (s : St) : reachable s -> Inv s.
Proof.
  induction 1 as [w | s cmd args body _ IH].
  - apply Inv_New.
  - eapply Inv_step; [apply tame_ServeHTTP | exact IH].
Qed.


(** * Creating containers: [run] and [clone] *)

(** C4 (as the code has it).  When the layer list of a [run] holds a name
    that is neither a layer id nor a container id, the registry is left
    as it was, whatever else the arguments are; and when the arguments
    parse without error and name a command, the call returns the error
    "No such layer or container: " followed by the first such name,
    having written nothing and run nothing. *)
Theorem CmdRun_unresolved_reference (stdin : string) (args : list string)
    (s : St) (f : FlagSet) (e : option FlagErr) :
  flag_Parse run_flags args = (f, e) ->
  (exists name, name ∈ list_flag f "l" /\ resolved (docker s) name = false) ->
  docker (snd (CmdRun stdin args s)) = docker s
  /\ (e = None -> fs_args f <> [] ->
      exists pre name post,
        list_flag f "l" = (pre ++ name :: post)%list
        /\ Forall (fun n => resolved (docker s) n = true) pre
        /\ resolved (docker s) name = false
        /\ fst (CmdRun stdin args s)
           = Val (Some ("No such layer or container: " ++ name))
        /\ out (snd (CmdRun stdin args s)) = out s
        /\ runs (snd (CmdRun stdin args s)) = runs s).
Proof.
  intros Hparse Hex.
  assert (Hne : list_flag f "l" <> []).
  { destruct Hex as (name & Hin & _). intros Hnil. rewrite Hnil in Hin.
    by apply elem_of_nil in Hin. }
  destruct (add_layers_unresolved (docker s) _ Hex)
    as (pre & name & post & Hl & Hpre & Hres & Hadd).
  destruct e as [e |].
  { split; [| discriminate].
    unfold CmdRun. unfold bind at 1.
    pose proof (quiet_flags_Parse run_flags args s) as [Hq _].
    unfold flags_Parse in *. rewrite Hparse in *.
    destruct e; simpl in *; exact Hq. }
  destruct (fs_args f) as [| a0 rest] eqn:Ea.
  { split; [| congruence].
    unfold CmdRun, flags_Parse. rewrite Hparse.
    unfold bind at 1, ret at 1. cbv beta iota.
    unfold flags_NArg. rewrite Ea. simpl.
    destruct (Z.of_nat (length (list_flag f "l")) <? 1); reflexivity. }
  assert (Ha : fs_args f <> []) by (rewrite Ea; congruence).
  pose proof (CmdRun_parsed stdin args s f Hparse Hne Ha) as Heq.
  cbv zeta in Heq. rewrite Hadd in Heq. rewrite Heq. simpl.
  split; [reflexivity |]. intros _ _.
  exists pre, name, post. split_and!; auto.
Qed.




(** The arguments [CmdClone] hands to [CmdRun] parse as one layer name
    and a command with its arguments. *)
Lemma run_parse_clone (k cmd : string) (cargs : list string) :
  exists f,
    flag_Parse run_flags ("-l" :: k :: "--" :: cmd :: cargs) = (f, None)
    /\ list_flag f "l" = [k]
    /\ fs_args f = cmd :: cargs.
Proof.
  eexists. split; [| split].
  - unfold flag_Parse. cbn [length parse_loop]. vm_compute. reflexivity.
  - vm_compute. reflexivity.
  - reflexivity.
Qed.


(** * The bounds of the model are never reached *)

Lemma parseOne_Seen_shorter (f f' : FlagSet) :
  parseOne f = Seen f' ->
  (length (fs_args f') < length (fs_args f))%nat.
Proof.
  unfold parseOne. intros H.
  repeat case_match; simplify_eq; simpl in *;
    repeat match goal with
           | E : fs_args _ = _ |- _ => rewrite E in *; clear E
           end; subst; simpl; lia.
Qed.

Lemma parse_loop_enough (n m : nat) (f : FlagSet) :
  (length (fs_args f) < n)%nat -> (length (fs_args f) < m)%nat ->
  parse_loop n f = parse_loop m f.
Proof.
  revert m f. induction n as [| n IH]; intros m f Hn Hm; [lia |].
  destruct m as [| m]; [lia |]. simpl.
  destruct (parseOne f) as [f' | f' | e f'] eqn:E; try reflexivity.
  apply parseOne_Seen_shorter in E. apply IH; lia.
Qed.

(** More fuel than [flag_Parse] gives does not change the result. *)
Lemma parse_loop_fuel (n : nat) (f : FlagSet) (args : list string) :
  (length args < n)%nat ->
  parse_loop n (set_args args f) = flag_Parse f args.
Proof.
  intros H. unfold flag_Parse. apply parse_loop_enough; simpl; lia.
Qed.

Lemma getMethod_dash_help : getMethod "--help" = Val None.
Proof. reflexivity. Qed.

(** Two nested calls are all [CmdHelp] ever makes: [help help] asks the
    inner [CmdHelp] about ["--help"], which is the name of no method. *)
Lemma call_depth (n : nat) (m : Method) (stdin : string)
    (args : list string) (s : St) :
  call (2 + n) m stdin args s = call 2 m stdin args s.
Proof.
  destruct m; try reflexivity.
  cbn [call Nat.add]. unfold CmdHelp at 1 3.
  destruct args as [| arg0 rest]; [reflexivity |].
  unfold bind at 1 3, lift.
  destruct (getMethod arg0) as [[m |] | msg |]; try reflexivity.
  destruct m; reflexivity.
Qed.

Lemma returns_bind {A B} (m : M A) (k : A -> M B) :
  returns m -> (forall a, returns (k a)) -> returns (bind m k).
Proof.
  intros Hm Hk s. unfold bind. specialize (Hm s).
  destruct (m s) as [[a | msg |] s1]; simpl in *;
    [apply Hk | discriminate | congruence].
Qed.

Lemma returns_for_each {A} (l : list A) (body : A -> M unit) :
  (forall x, returns (body x)) -> returns (for_each l body).
Proof.
  intros Hb. induction l as [| x l IH]; simpl.
  - intros s. discriminate.
  - apply returns_bind; [apply Hb | intros _; exact IH].
Qed.

Lemma returns_lift_getMethod (name : string) : returns (lift (getMethod name)).
Proof. intros s. destruct name; discriminate. Qed.

Ltac solve_returns :=
  repeat match goal with
    | |- returns (ret _) => intros ?; discriminate
    | |- returns (write _) => intros ?; discriminate
    | |- returns (log_run _) => intros ?; discriminate
    | |- returns (put_docker _) => intros ?; discriminate
    | |- returns get_docker => intros ?; discriminate
    | |- returns time_Now => intros ?; discriminate
    | |- returns (range_map _) => intros ?; discriminate
    | |- returns next_proc => intros ?; discriminate
    | |- returns rand_next => intros ?; discriminate
    | |- returns (flags_Usage _) => intros ?; discriminate
    | |- returns (lift (getMethod _)) => apply returns_lift_getMethod
    | |- returns (for_each _ _) => apply returns_for_each; intros
    | |- returns (bind _ _) => apply returns_bind; [| intros]
    | |- returns (match ?x with _ => _ end) => destruct x
    | |- returns (if ?b then _ else _) => destruct b
    | |- returns (let (_, _) := ?x in _) => destruct x
    end.

Lemma returns_flags_Parse (f : FlagSet) (args : list string) :
  returns (flags_Parse f args).
Proof. unfold flags_Parse. solve_returns. Qed.

Lemma returns_addLayer (name source : string) (size : Z) :
  returns (addLayer name source size).
Proof.
  unfold addLayer, randomId, randomBytes, rand_Int, rand_Int31n.
  solve_returns.
Qed.

Lemma returns_write_summary : returns write_summary.
Proof. unfold write_summary. solve_returns. Qed.

Lemma returns_CmdRun (stdin : string) (args : list string) :
  returns (CmdRun stdin args).
Proof.
  unfold CmdRun. apply returns_bind; [apply returns_flags_Parse |].
  intros [flags e].
  unfold container_Run, randomId, randomBytes, rand_Int, rand_Int31n.
  solve_returns.
Qed.

Ltac unfold_handlers :=
  unfold CmdLayers, CmdGet, CmdPut, CmdExport, CmdClone, CmdList, CmdUsage.

Lemma returns_call (n : nat) (m : Method) (stdin : string)
    (args : list string) :
  returns (call (2 + n) m stdin args).
Proof.
  intros s. rewrite call_depth. revert s.
  change (returns (call 2 m stdin args)).
  pose proof returns_addLayer. pose proof returns_CmdRun.
  pose proof returns_flags_Parse. pose proof returns_write_summary.
  assert (Hinner : forall m' stdin',
             returns (call 1 m' stdin' ["--help"])).
  { intros m' stdin'.
    destruct m'; cbn [call]; unfold_handlers;
      try (solve_returns; auto; fail).
    intros s. unfold CmdHelp, bind, lift.
    rewrite getMethod_dash_help. discriminate. }
  destruct m; cbn [call]; unfold_handlers;
    try (solve_returns; auto; fail).
  unfold CmdHelp. destruct args as [| arg0 rest]; [solve_returns; auto |].
  intros s. unfold bind at 1, lift.
  destruct (getMethod arg0) as [[m' |] | msg |] eqn:E;
    try discriminate.
  - apply returns_bind; [apply Hinner | intros; discriminate].
  - destruct arg0; discriminate.
Qed.

(** * Further properties of the process runner *)

(** X1.  For a container that is not running, the error [Run] returns is
    the first one in the order start, wait, output copy (the input
    goroutine never has one), and the steps it takes are a prefix of
    start, the two goroutines, wait, the two receptions; the process is
    waited for before either channel is read. *)
Theorem Run_error_precedence (c : Container.t) (stdin : string)
    (po : ProcOutcome) :
  Container.Running c = false ->
  rr_err (Run c stdin po)
  = match po_start po with
    | Some e => Some e
    | None => match po_wait po with
              | Some e => Some e
              | None => po_copy po
              end
    end
  /\ (exists n,
        rr_steps (Run c stdin po)
        = take n [SStart (Container.Cmd c) (Container.Args c);
                  SGo CopyOut; SGo CopyIn; SWait;
                  SRecv CopyIn; SRecv CopyOut])
  /\ (rr_err (Run c stdin po) = None <-> rr_site (Run c stdin po) = AtEnd)
  /\ (is_Some (rr_copy_out (Run c stdin po)) <-> po_start po = None).
Proof.
  intros Hidle. unfold Run. rewrite Hidle. simpl.
  unfold Run_body, copy_in_task, copy_out_task; simpl.
  destruct (po_start po) as [e1 |].
  - simpl. split_and!; [reflexivity | by exists 1%nat | | ].
    + split; discriminate.
    + split; [intros [? ?]; discriminate | discriminate].
  - destruct (po_wait po) as [e2 |].
    + simpl. split_and!; [reflexivity | by exists 4%nat | | ].
      * split; discriminate.
      * split; eauto.
    + destruct (po_copy po) as [e3 |]; simpl.
      * split_and!; [reflexivity | by exists 6%nat | | ].
        -- split; discriminate.
        -- split; eauto.
      * split_and!; [reflexivity | by exists 6%nat | | ].
        -- split; reflexivity.
        -- split; eauto.
Qed.

(** What [container.Run] does inside a handler, as an equation. *)
Lemma container_Run_eq (c : Container.t) (stdin : string) (s : St) :
  Container.Running c = false ->
  let po := proc_src (world s) (proc_pos (world s)) in
  container_Run c stdin s
  = (Val (rr_err (Run c stdin po)),
     mkSt (docker s) (advance 0 0 1 (world s))
          (out s ++ match po_start po with
                    | Some _ => []
                    | None => [OBytes (po_copied po)]
                    end)
          (runs s ++ [Run c stdin po])).
Proof.
  intros Hidle po. unfold container_Run. rewrite Hidle.
  unfold bind at 1, next_proc. cbv beta iota zeta.
  fold po.
  assert (Hout : run_output (Run c stdin po)
                 = match po_start po with
                   | Some _ => []
                   | None => [OBytes (po_copied po)]
                   end).
  { unfold run_output, Run. rewrite Hidle. simpl.
    unfold Run_body, copy_in_task, copy_out_task; simpl.
    destruct (po_start po), (po_wait po), (po_copy po); reflexivity. }
  rewrite Hout.
  destruct (po_start po); simpl; unfold bind, ret, write, log_run; simpl.
  - rewrite app_nil_r. reflexivity.
  - reflexivity.
Qed.

(** * Further properties of [run] *)

Lemma add_layers_resolve (d : Docker) (names : list string)
    (c : Container.t) :
  match resolve_all d names with
  | Some ls =>
      add_layers d names c
      = inl (Container.set_Layers (Container.Layers c ++ ls)%list c)
  | None => exists msg, add_layers d names c = inr msg
  end.
Proof.
  revert c. induction names as [| name names IH]; intros c; simpl.
  - rewrite app_nil_r. destruct c; reflexivity.
  - unfold layers_of.
    destruct (layers d !! name) as [layer |].
    + specialize (IH (Container.set_Layers
                        (Container.Layers c ++ [layer])%list c)).
      destruct (resolve_all d names) as [rest |].
      * rewrite IH. simpl. rewrite <- app_assoc. reflexivity.
      * exact IH.
    + destruct (containers d !! name) as [src |]; simpl.
      * specialize (IH (Container.set_Layers
                          (Container.Layers c ++ Container.Layers src)%list c)).
        destruct (resolve_all d names) as [rest |].
        -- rewrite IH. simpl. rewrite <- app_assoc. reflexivity.
        -- exact IH.
      * eexists. reflexivity.
Qed.

(** X3.  The loop that resolves a layer list succeeds exactly when every
    name is the identifier of a layer or of a container; it then appends,
    in the order of the list, the layer of a layer identifier and all the
    layers of a container identifier, a layer identifier taking
    precedence; the other fields of the container are untouched. *)
Theorem add_layers_appends_in_order (d : Docker) (names : list string)
    (c : Container.t) :
  (forall c', add_layers d names c = inl c' <->
     exists ls, resolve_all d names = Some ls
                /\ c' = Container.set_Layers
                          (Container.Layers c ++ ls)%list c)
  /\ (Forall (fun n => resolved d n = true) names <->
      is_Some (resolve_all d names))
  /\ (forall name layer src,
        layers d !! name = Some layer -> containers d !! name = Some src ->
        layers_of d name = Some [layer]).
Proof.
  split_and!.
  - intros c'. pose proof (add_layers_resolve d names c) as H.
    destruct (resolve_all d names) as [ls |].
    + rewrite H. split.
      * intros Heq. inversion Heq. eauto.
      * intros (ls' & Hls & ->). inversion Hls. reflexivity.
    + destruct H as [msg H]. rewrite H. split; [discriminate |].
      intros (ls' & Hls & _). discriminate.
  - induction names as [| n names IH]; simpl.
    + split; [eauto | constructor].
    + rewrite Forall_cons, IH, resolved_true. unfold layers_of.
      destruct (layers d !! n) as [layer |],
               (containers d !! n) as [src |],
               (resolve_all d names) as [rest |]; simpl;
        split; try (intros [[[? ?] | [? ?]] [? ?]]; try discriminate);
        try (intros [? ?]; discriminate); eauto.
  - intros name layer src Hl _. unfold layers_of. rewrite Hl. reflexivity.
Qed.

Lemma CmdRun_success_eq (stdin : string) (args : list string)
    (s : St) (f : FlagSet) (ls : list Layer.t) :
  flag_Parse run_flags args = (f, None) ->
  fs_args f <> [] ->
  list_flag f "l" <> [] ->
  resolve_all (docker s) (list_flag f "l") = Some ls ->
  let c := Container.set_Layers ls
             (new_container (world s) (flags_Arg f 0) (drop 1 (fs_args f))) in
  let po := proc_src (world s) (proc_pos (world s)) in
  CmdRun stdin args s
  = (Val (rr_err (Run c stdin po)),
     mkSt (mkDocker (layers (docker s))
                    (<[Container.Id c := c]> (containers (docker s))))
          (advance 3 1 1 (world s))
          (out s ++ match po_start po with
                    | Some _ => []
                    | None => [OBytes (po_copied po)]
                    end)
          (runs s ++ [Run c stdin po])).
Proof.
  intros Hparse Ha Hl Hres c po.
  rewrite (CmdRun_parsed stdin args s f Hparse Hl Ha). cbv zeta.
  pose proof (add_layers_resolve (docker s) (list_flag f "l")
                (new_container (world s) (flags_Arg f 0)
                   (drop 1 (fs_args f)))) as Hadd.
  rewrite Hres in Hadd. unfold new_container in Hadd at 1.
  rewrite Hadd. cbn [Container.Layers new_container app].
  fold c. rewrite container_Run_eq by reflexivity.
  reflexivity.
Qed.

(** X4.  A [run] whose arguments parse, with at least one layer name and
    with a command, all names resolving: the container is stored under the
    identifier generated for it, with that command, those arguments, the
    resolved layers in order and the flag down, before the process is
    started; the result is the result of [Run], and the container stays
    stored when the process fails. *)
Theorem CmdRun_registers_then_runs (stdin : string) (args : list string)
    (s : St) (f : FlagSet) (ls : list Layer.t) :
  flag_Parse run_flags args = (f, None) ->
  fs_args f <> [] ->
  list_flag f "l" <> [] ->
  resolve_all (docker s) (list_flag f "l") = Some ls ->
  let c := Container.set_Layers ls
             (new_container (world s) (flags_Arg f 0) (drop 1 (fs_args f))) in
  let po := proc_src (world s) (proc_pos (world s)) in
  CmdRun stdin args s
  = (Val (rr_err (Run c stdin po)),
     mkSt (mkDocker (layers (docker s))
                    (<[Container.Id c := c]> (containers (docker s))))
          (advance 3 1 1 (world s))
          (out s ++ match po_start po with
                    | Some _ => []
                    | None => [OBytes (po_copied po)]
                    end)
          (runs s ++ [Run c stdin po]))
  /\ Container.Running c = false
  /\ 0 <= Container.FilesChanged c < 42
  /\ 0 <= Container.BytesChanged c < 24 * 1024 * 1024.
Proof.
  intros Hparse Ha Hl Hres c po.
  split; [apply CmdRun_success_eq; assumption |].
  split; [reflexivity |].
  split; apply mod_range; lia.
Qed.

(** X5.  [run] refuses before it creates anything: on a flag error it
    returns no error at all; without a layer name it asks for one, also
    when the command is missing too; with layer names and no command it
    reports that.  In each case the registry and the world are as before
    and nothing is run. *)
Theorem CmdRun_rejects_before_creating (stdin : string) (args : list string)
    (s : St) (f : FlagSet) (e : option FlagErr) :
  flag_Parse run_flags args = (f, e) ->
  (forall err, e = Some err ->
     fst (CmdRun stdin args s) = Val None
     /\ docker (snd (CmdRun stdin args s)) = docker s
     /\ world (snd (CmdRun stdin args s)) = world s
     /\ runs (snd (CmdRun stdin args s)) = runs s)
  /\ (e = None -> list_flag f "l" = [] ->
      CmdRun stdin args s
      = (Val (Some "Please specify at least one layer"), s))
  /\ (e = None -> list_flag f "l" <> [] -> fs_args f = [] ->
      CmdRun stdin args s = (Val (Some "No command specified"), s)).
Proof.
  intros Hparse. unfold CmdRun, flags_Parse. rewrite Hparse. split_and!.
  - intros err ->.
    destruct err; unfold bind, write, flags_Usage, write, ret; simpl;
      split_and!; reflexivity.
  - intros -> Hl. unfold bind at 1, ret at 1. cbv beta iota.
    rewrite Hl. reflexivity.
  - intros -> Hl Ha. unfold bind at 1, ret at 1. cbv beta iota.
    destruct (list_flag f "l") as [| l0 l1]; [congruence |].
    replace (Z.of_nat (length (l0 :: l1)) <? 1) with false
      by (symmetry; apply Z.ltb_ge; simpl length; lia).
    unfold flags_NArg. rewrite Ha. reflexivity.
Qed.

(** * Further properties of the layer commands *)

Lemma flags_Parse_eq (g : FlagSet) (args : list string) (s : St) :
  flags_Parse g args s
  = (Val (flag_Parse g args), after_parse s (flag_Parse g args)).
Proof.
  unfold flags_Parse, after_parse, parse_output.
  destruct (flag_Parse g args) as [f [e |]]; simpl.
  - destruct e; unfold bind, flags_Usage, write, ret, usage_of; simpl;
      rewrite <- ?app_assoc; reflexivity.
  - unfold ret. rewrite app_nil_r. destruct s; reflexivity.
Qed.

Lemma after_parse_ok (s : St) (f : FlagSet) : after_parse s (f, None) = s.
Proof.
  unfold after_parse, parse_output. simpl. rewrite app_nil_r.
  destruct s; reflexivity.
Qed.

Lemma addLayer_eq (name source : string) (size : Z) (s : St) :
  addLayer name source size s
  = (Val (added_layer (world s) name source size),
     mkSt (mkDocker
             (<[Layer.Id (added_layer (world s) name source size)
                := added_layer (world s) name source size]>
                (layers (docker s)))
             (containers (docker s)))
          (advance (if size =? 0 then 2 else 1) 1 0 (world s))
          (out s) (runs s)).
Proof.
  unfold addLayer, added_layer, randomId, randomBytes, rand_Int,
    rand_Int31n, id_at, advance.
  destruct (size =? 0); reflexivity.
Qed.

Lemma added_layer_fields (w : World) (name source : string) (size : Z) :
  Layer.Name (added_layer w name source size) = name
  /\ Layer.Source (added_layer w name source size) = source
  /\ (size <> 0 -> Layer.Size (added_layer w name source size) = size)
  /\ (size = 0 ->
      0 <= Layer.Size (added_layer w name source size) < 142 * 1024 * 1024).
Proof.
  unfold added_layer. simpl. split_and!; try reflexivity.
  - intros Hne. apply Z.eqb_neq in Hne. rewrite Hne. reflexivity.
  - intros ->. simpl. apply mod_range. lia.
Qed.

Lemma CmdGet_eq (stdin arg0 : string) (rest : list string) (s : St) :
  CmdGet stdin (arg0 :: rest) s
  = (Val None,
     mkSt (mkDocker
             (<[Layer.Id (added_layer (world s) arg0 "download" 0)
                := added_layer (world s) arg0 "download" 0]>
                (layers (docker s)))
             (containers (docker s)))
          (advance 2 1 0 (world s))
          (out s ++ [OBytes ("Downloading from " ++ arg0 ++ "..." ++ newline);
                     ONewLayer (added_layer (world s) arg0 "download" 0)])
          (runs s)).
Proof.
  unfold CmdGet. unfold bind at 1, write at 1. cbv beta iota.
  unfold bind at 1. rewrite addLayer_eq. cbv beta iota.
  unfold bind, write, ret. simpl. rewrite <- app_assoc. reflexivity.
Qed.

Lemma CmdPut_eq (stdin arg0 : string) (rest : list string) (s : St) :
  CmdPut stdin (arg0 :: rest) s
  = (Val None,
     mkSt (mkDocker
             (<[Layer.Id (added_layer (world s) arg0 "upload" 0)
                := added_layer (world s) arg0 "upload" 0]>
                (layers (docker s)))
             (containers (docker s)))
          (advance 2 1 0 (world s))
          (out s ++ [ONewLayer (added_layer (world s) arg0 "upload" 0)])
          (runs s)).
Proof.
  unfold CmdPut. unfold bind at 1. rewrite addLayer_eq. cbv beta iota.
  unfold bind, write, ret. simpl. reflexivity.
Qed.

(** X6.  [get] and [put] without an argument fail with "Not enough
    arguments" and change nothing.  With arguments they look at the first
    one only: one layer of that name is stored, its source "download" or
    "upload", its size drawn at random, and the call reports it; [get]
    first announces the download. *)
Theorem CmdGet_CmdPut_add_one_layer (stdin arg0 : string)
    (rest : list string) (s : St) :
  CmdGet stdin [] s = (Val (Some "Not enough arguments"), s)
  /\ CmdPut stdin [] s = (Val (Some "Not enough arguments"), s)
  /\ (let l := added_layer (world s) arg0 "download" 0 in
      CmdGet stdin (arg0 :: rest) s
      = (Val None,
         mkSt (mkDocker (<[Layer.Id l := l]> (layers (docker s)))
                        (containers (docker s)))
              (advance 2 1 0 (world s))
              (out s ++ [OBytes ("Downloading from " ++ arg0 ++ "..."
                                   ++ newline);
                         ONewLayer l])
              (runs s))
      /\ Layer.Name l = arg0 /\ Layer.Source l = "download"
      /\ 0 <= Layer.Size l < 142 * 1024 * 1024)
  /\ (let l := added_layer (world s) arg0 "upload" 0 in
      CmdPut stdin (arg0 :: rest) s
      = (Val None,
         mkSt (mkDocker (<[Layer.Id l := l]> (layers (docker s)))
                        (containers (docker s)))
              (advance 2 1 0 (world s))
              (out s ++ [ONewLayer l])
              (runs s))
      /\ Layer.Name l = arg0 /\ Layer.Source l = "upload"
      /\ 0 <= Layer.Size l < 142 * 1024 * 1024).
Proof.
  split; [reflexivity |]. split; [reflexivity |]. split.
  - intros l. split; [apply CmdGet_eq |].
    split_and!; try reflexivity; apply mod_range; lia.
  - intros l. split; [apply CmdPut_eq |].
    split_and!; try reflexivity; apply mod_range; lia.
Qed.

(** X7.  [export CONTAINER LAYER]: on a flag error the call returns no
    error; with fewer than two names it fails with "Not enough arguments",
    with an unknown container with "No such container", and the registry
    is as before.  Otherwise one layer is stored, named by the second
    name, its source "export:" followed by the container's identifier,
    and its size the container's changed bytes, unless these are zero:
    then the size is drawn at random, as for any layer added with size
    zero.  The containers are untouched. *)
Theorem CmdExport_layer_from_container (stdin : string) (args : list string)
    (s : St) (f : FlagSet) (e : option FlagErr) :
  flag_Parse export_flags args = (f, e) ->
  (forall err, e = Some err ->
     fst (CmdExport stdin args s) = Val None
     /\ docker (snd (CmdExport stdin args s)) = docker s)
  /\ (e = None -> (length (fs_args f) < 2)%nat ->
      CmdExport stdin args s = (Val (Some "Not enough arguments"), s))
  /\ (e = None -> (2 <= length (fs_args f))%nat ->
      containers (docker s) !! flags_Arg f 0 = None ->
      CmdExport stdin args s = (Val (Some "No such container"), s))
  /\ (forall c, e = None -> (2 <= length (fs_args f))%nat ->
      containers (docker s) !! flags_Arg f 0 = Some c ->
      let l := added_layer (world s) (flags_Arg f 1)
                 ("export:" ++ Container.Id c) (Container.BytesChanged c) in
      CmdExport stdin args s
      = (Val None,
         mkSt (mkDocker (<[Layer.Id l := l]> (layers (docker s)))
                        (containers (docker s)))
              (advance (if Container.BytesChanged c =? 0 then 2 else 1) 1 0
                       (world s))
              (out s ++ [ONewLayer l]) (runs s))
      /\ (Container.BytesChanged c <> 0 ->
          Layer.Size l = Container.BytesChanged c)
      /\ (Container.BytesChanged c = 0 ->
          Layer.Size l
          = rand_src (world s) (rand_pos (world s)) mod (142 * 1024 * 1024))).
Proof.
  intros Hparse.
  assert (Hunf : CmdExport stdin args
                 = bind (flags_Parse export_flags args)
                     (fun x => match x with
                      | (flags, err) =>
                        match err with
                        | Some _ => ret None
                        | None =>
                          if flags_NArg flags <? 2
                          then ret (errors_New "Not enough arguments")
                          else
                            do d <- get_docker;
                            match containers d !! flags_Arg flags 0 with
                            | None => ret (errors_New "No such container")
                            | Some container =>
                                do layer <- addLayer (flags_Arg flags 1)
                                  ("export:" ++ Container.Id container)
                                  (Container.BytesChanged container);
                                do_ write (ONewLayer layer);
                                ret None
                            end
                        end
                      end)) by reflexivity.
  rewrite Hunf. clear Hunf. unfold flags_Parse. rewrite Hparse.
  split_and!.
  - intros err ->.
    destruct err; unfold bind, write, flags_Usage, write, ret; simpl;
      split; reflexivity.
  - intros -> Hlen. unfold bind at 1, ret at 1. cbv beta iota.
    unfold flags_NArg.
    replace (Z.of_nat (length (fs_args f)) <? 2) with true
      by (symmetry; apply Z.ltb_lt; lia).
    reflexivity.
  - intros -> Hlen Hnone. unfold bind at 1, ret at 1. cbv beta iota.
    unfold flags_NArg.
    replace (Z.of_nat (length (fs_args f)) <? 2) with false
      by (symmetry; apply Z.ltb_ge; lia).
    unfold bind, get_docker. rewrite Hnone. reflexivity.
  - intros c -> Hlen Hsome. cbv zeta. split_and!.
    + unfold bind at 1, ret at 1. cbv beta iota.
      unfold flags_NArg.
      replace (Z.of_nat (length (fs_args f)) <? 2) with false
        by (symmetry; apply Z.ltb_ge; lia).
      unfold bind at 1, get_docker at 1. cbv beta iota. rewrite Hsome.
      unfold bind at 1. rewrite addLayer_eq. cbv beta iota.
      unfold bind, write, ret. simpl. reflexivity.
    + intros Hne. unfold added_layer. simpl.
      apply Z.eqb_neq in Hne. rewrite Hne. reflexivity.
    + intros Hz. unfold added_layer. simpl. rewrite Hz. reflexivity.
Qed.

(** * Further properties of [clone] *)

(** A boolean flag with a one-byte name [c], given without a value: it
    is set. *)
Lemma parseOne_bool_flag (f : FlagSet) (c : ascii) (rest : list string)
    (b : bool) :
  Ascii.eqb c "-"%char = false ->
  Ascii.eqb c "="%char = false ->
  fs_bools f !! String c "" = Some b ->
  parseOne (set_args (String "-" (String c "") :: rest) f)
  = Seen (flags_Bool (String c "") true (set_args rest f)).
Proof.
  intros Hm He Hb. unfold parseOne. cbn [fs_args set_args].
  cbn [Ascii.eqb Bool.eqb negb]. rewrite ?Hm, ?He.
  cbn [andb orb split_value cut_eq fs_bools fs_lists fs_args set_args].
  rewrite ?Hm, ?He. cbn [orb fs_bools fs_lists fs_args set_args].
  rewrite Hb. reflexivity.
Qed.

(** The same flag, given a value that is no boolean: the flag is left
    false, and the parser stops with the arguments that follow. *)
Lemma parseOne_bad_bool (f : FlagSet) (c : ascii) (v : string)
    (rest : list string) (b : bool) :
  Ascii.eqb c "-"%char = false ->
  Ascii.eqb c "="%char = false ->
  fs_bools f !! String c "" = Some b ->
  ParseBool v = None ->
  parseOne (set_args (String "-" (String c (String "=" v)) :: rest) f)
  = Fail (InvalidBool v (String c ""))
         (flags_Bool (String c "") false (set_args rest f)).
Proof.
  intros Hm He Hb Hv. unfold parseOne. cbn [fs_args set_args].
  cbn [Ascii.eqb Bool.eqb negb]. rewrite ?Hm, ?He.
  cbn [andb orb split_value cut_eq Ascii.eqb Bool.eqb
       fs_bools fs_lists fs_args set_args].
  rewrite ?Hm, ?He.
  cbn [andb orb split_value cut_eq Ascii.eqb Bool.eqb
       fs_bools fs_lists fs_args set_args].
  rewrite Hb, Hv. reflexivity.
Qed.

(** X8.  [clone] refuses without touching the registry: with [-r] false
    it fails with the message that only the reset mode exists; with no
    identifier, or more than one, it prints its usage and returns no
    error; with an identifier that names no container it fails with "No
    such container: " followed by that identifier.  The error of the flag
    parser is printed and not looked at: the call goes on with the flags
    and the arguments as the parser left them.  So a value of [-r] that
    is no boolean, which leaves the flag false, gets the message of the
    reset mode. *)
Theorem CmdClone_refusals (stdin : string) (args : list string) (s : St)
    (f : FlagSet) (e : option FlagErr) :
  flag_Parse clone_flags args = (f, e) ->
  docker (after_parse s (f, e)) = docker s
  /\ (bool_flag f "r" = false ->
      CmdClone stdin args s
      = (Val (Some "Only reset mode is available for now. Please use -r"),
         after_parse s (f, e)))
  /\ (bool_flag f "r" = true -> length (fs_args f) <> 1%nat ->
      CmdClone stdin args s
      = (Val None,
         mkSt (docker s) (world s)
              (out s ++ parse_output (f, e) ++ [usage_of f]) (runs s)))
  /\ (forall k, bool_flag f "r" = true -> fs_args f = [k] ->
      containers (docker s) !! k = None ->
      CmdClone stdin args s
      = (Val (Some ("No such container: " ++ k)), after_parse s (f, e)))
  /\ (forall v rest, ParseBool v = None -> args = ("-r=" ++ v) :: rest ->
      bool_flag f "r" = false
      /\ e = Some (InvalidBool v "r")
      /\ fs_args f = rest
      /\ CmdClone stdin args s
         = (Val (Some "Only reset mode is available for now. Please use -r"),
            mkSt (docker s) (world s)
                 (out s ++ [OFlagErr (InvalidBool v "r"); usage_of f])
                 (runs s))).
Proof.
  intros Hparse.
  assert (Hbad : forall v rest, ParseBool v = None ->
            args = ("-r=" ++ v) :: rest ->
            bool_flag f "r" = false /\ e = Some (InvalidBool v "r")
            /\ fs_args f = rest).
  { intros v rest Hv ->.
    change ("-r=" ++ v) with (String "-" (String "r" (String "=" v)))
      in Hparse.
    unfold flag_Parse in Hparse. cbn [length parse_loop] in Hparse.
    rewrite (parseOne_bad_bool clone_flags "r" v rest true) in Hparse
      by (try exact Hv; reflexivity).
    inversion Hparse. split_and!; reflexivity. }
  assert (Hunf : CmdClone stdin args s
                 = (if negb (bool_flag f "r")
                    then ret (errors_New
                      "Only reset mode is available for now. Please use -r")
                    else if negb (flags_NArg f =? 1)
                    then do_ flags_Usage f; ret None
                    else
                      do d <- get_docker;
                      match containers d !! flags_Arg f 0 with
                      | None => ret (errors_New ("No such container: "
                                                   ++ flags_Arg f 0))
                      | Some container =>
                          CmdRun stdin
                            ("-l" :: Container.Id container :: "--"
                               :: Container.Cmd container
                               :: Container.Args container)
                      end) (after_parse s (f, e))).
  { unfold CmdClone. unfold bind at 1.
    rewrite flags_Parse_eq, Hparse. reflexivity. }
  rewrite Hunf. clear Hunf.
  split_and!.
  - reflexivity.
  - intros ->. reflexivity.
  - intros -> Hlen. cbn [negb]. unfold flags_NArg.
    replace (Z.of_nat (length (fs_args f)) =? 1) with false
      by (symmetry; apply Z.eqb_neq; lia).
    cbn [negb]. unfold bind, flags_Usage, write, ret, after_parse, usage_of.
    simpl. rewrite <- app_assoc. reflexivity.
  - intros k -> Ha Hnone. cbn [negb]. unfold flags_NArg, flags_Arg.
    rewrite Ha. cbn [length negb]. change (Z.of_nat 1 =? 1) with true.
    cbn [negb]. unfold bind, get_docker. cbn [docker after_parse].
    change (default "" ([k] !! 0%nat)) with k. rewrite Hnone. reflexivity.
  - intros v rest Hv Hargs.
    destruct (Hbad v rest Hv Hargs) as (Hr & He & Ha).
    split_and!; try assumption.
    rewrite Hr. cbn [negb]. unfold ret, errors_New, after_parse.
    rewrite He. reflexivity.
Qed.

(** X9.  [clone] of a container [C] is a [run] of [-l C.Id -- C.Cmd
    C.Args...]: thanks to the [--], the command and the arguments of [C]
    are taken over as they are, also when they look like flags.  The new
    container gets what [C]'s identifier resolves to: the layer of that
    identifier if there is one, else the layers of the container stored
    under it.  All this with [-r] true after the parsing, which a value
    of [-r] that is no boolean prevents. *)
Theorem CmdClone_runs_verbatim (stdin : string) (args : list string)
    (s : St) (f : FlagSet) (e : option FlagErr) (k : string)
    (C : Container.t) (ls : list Layer.t) :
  flag_Parse clone_flags args = (f, e) ->
  bool_flag f "r" = true ->
  fs_args f = [k] ->
  containers (docker s) !! k = Some C ->
  layers_of (docker s) (Container.Id C) = Some ls ->
  let s1 := after_parse s (f, e) in
  let c := Container.set_Layers ls
             (new_container (world s) (Container.Cmd C) (Container.Args C)) in
  let po := proc_src (world s) (proc_pos (world s)) in
  CmdClone stdin args s
  = (Val (rr_err (Run c stdin po)),
     mkSt (mkDocker (layers (docker s))
                    (<[Container.Id c := c]> (containers (docker s))))
          (advance 3 1 1 (world s))
          (out s1 ++ match po_start po with
                     | Some _ => []
                     | None => [OBytes (po_copied po)]
                     end)
          (runs s ++ [Run c stdin po]))
  /\ Container.Cmd c = Container.Cmd C
  /\ Container.Args c = Container.Args C
  /\ Container.Layers c = ls.
Proof.
  intros Hparse Hr Ha HC Hls s1 c po.
  split; [| split_and!; reflexivity].
  unfold CmdClone. unfold bind at 1.
  rewrite flags_Parse_eq, Hparse. cbv beta iota. fold s1.
  rewrite Hr. cbn [negb]. unfold flags_NArg, flags_Arg. rewrite Ha.
  cbn [length negb]. change (Z.of_nat 1 =? 1) with true. cbn [negb].
  unfold bind at 1, get_docker at 1. cbv beta iota.
  change (default "" ([k] !! 0%nat)) with k.
  change (docker s1) with (docker s). rewrite HC.
  destruct (run_parse_clone (Container.Id C) (Container.Cmd C)
              (Container.Args C)) as (f' & Hp' & Hl' & Ha').
  assert (Hres : resolve_all (docker s1) (list_flag f' "l") = Some ls).
  { rewrite Hl'. simpl. change (docker s1) with (docker s).
    rewrite Hls. rewrite app_nil_r. reflexivity. }
  pose proof (CmdRun_parsed stdin _ s1 f' Hp') as Heq.
  rewrite Heq by (rewrite ?Hl', ?Ha'; congruence). cbv zeta.
  pose proof (add_layers_resolve (docker s1) (list_flag f' "l")
                (new_container (world s1) (flags_Arg f' 0)
                   (drop 1 (fs_args f')))) as Hadd.
  rewrite Hres in Hadd. unfold new_container in Hadd at 1.
  rewrite Hadd. cbn [Container.Layers new_container app].
  unfold flags_Arg. rewrite Ha'.
  change (default "" ((Container.Cmd C :: Container.Args C) !! 0%nat))
    with (Container.Cmd C).
  change (drop 1 (Container.Cmd C :: Container.Args C))
    with (Container.Args C).
  change (world s1) with (world s). fold c.
  rewrite container_Run_eq by reflexivity.
  reflexivity.
Qed.

(** * Further properties of the listings *)

(** Whatever the world chooses, a [range] visits every entry once. *)
Lemma insert_at_Permutation {A} (k : nat) (x : A) (l : list A) :
  insert_at k x l ≡ₚ x :: l.
Proof.
  revert k. induction l as [| y l IH]; intros [| k]; simpl; try reflexivity.
  rewrite IH. apply perm_swap.
Qed.

Lemma shuffle_Permutation {A} (choice : nat -> nat) (l : list A) :
  shuffle choice l ≡ₚ l.
Proof.
  induction l as [| x l IH]; simpl; [reflexivity |].
  rewrite insert_at_Permutation, IH. reflexivity.
Qed.

Lemma insert_at_middle {A} (x : A) (l1 l2 : list A) :
  insert_at (length l1) x (l1 ++ l2) = (l1 ++ x :: l2)%list.
Proof.
  induction l1 as [| y l1 IH]; simpl; [reflexivity | by rewrite IH].
Qed.

Lemma shuffle_ext {A} (c1 c2 : nat -> nat) (l : list A) :
  (forall n, (n < length l)%nat -> c1 n = c2 n) ->
  shuffle c1 l = shuffle c2 l.
Proof.
  induction l as [| x l IH]; intros H; simpl; [reflexivity |].
  rewrite IH by (intros n Hn; apply H; simpl; lia).
  rewrite (H (length l)) by (simpl; lia). reflexivity.
Qed.

(** Every order of the entries is the order of some choice. *)
Lemma shuffle_onto {A} (l p : list A) :
  p ≡ₚ l -> exists choice, shuffle choice l = p.
Proof.
  revert p. induction l as [| x l IH]; intros p Hp.
  - exists (fun _ => O). apply Permutation_nil_r in Hp. subst p. reflexivity.
  - assert (Hx : x ∈ p) by (rewrite Hp; left).
    apply list_elem_of_split in Hx. destruct Hx as (p1 & p2 & ->).
    assert (Hr : (p1 ++ p2)%list ≡ₚ l).
    { apply (Permutation_cons_inv (a := x)). rewrite <- Hp.
      apply Permutation_middle. }
    destruct (IH _ Hr) as [c Hc].
    exists (fun n => if Nat.eqb n (length l) then length p1 else c n).
    simpl. rewrite Nat.eqb_refl.
    rewrite (shuffle_ext _ c)
      by (intros n Hn; destruct (Nat.eqb_spec n (length l));
          [lia | reflexivity]).
    rewrite Hc. apply insert_at_middle.
Qed.

Lemma NoDup_List_filter {A} (f : A -> bool) (l : list A) :
  NoDup l -> NoDup (List.filter f l).
Proof.
  induction 1 as [| x l Hx _ IH]; simpl; [constructor |].
  destruct (f x); [| exact IH].
  constructor; [| exact IH].
  intros Hin. apply Hx. apply list_elem_of_In.
  apply list_elem_of_In, List.filter_In in Hin. tauto.
Qed.

Lemma for_each_write_filter {A} (skip : A -> bool) (g : A -> Out)
    (l : list A) (s : St) :
  for_each l (fun x => if skip x then ret tt else write (g x)) s
  = (Val tt,
     mkSt (docker s) (world s)
          (out s ++ map g (List.filter (fun x => negb (skip x)) l))
          (runs s)).
Proof.
  revert s. induction l as [| x l IH]; intros s; simpl.
  - unfold ret. rewrite app_nil_r. destruct s; reflexivity.
  - unfold bind. destruct (skip x); simpl.
    + unfold ret at 1. apply IH.
    + unfold write at 1. rewrite IH. simpl.
      rewrite <- app_assoc. reflexivity.
Qed.

Lemma for_each_stamped {A} (skip : A -> bool) (g : A -> Z -> Out)
    (l : list A) (s : St) :
  for_each l (fun x => if skip x then ret tt
                       else do now <- time_Now; write (g x now)) s
  = (Val tt,
     mkSt (docker s)
          (advance 0 (length (List.filter (fun x => negb (skip x)) l)) 0
                   (world s))
          (out s ++ stamped g (clock_src (world s)) (clock_pos (world s))
                      (List.filter (fun x => negb (skip x)) l))
          (runs s)).
Proof.
  revert s. induction l as [| x l IH]; intros s; simpl.
  - unfold ret, advance. simpl. rewrite app_nil_r.
    destruct s as [d [? ? ? ? ? ?] o r]; reflexivity.
  - unfold bind at 1. destruct (skip x); simpl.
    + unfold ret at 1. apply IH.
    + unfold bind at 1, time_Now at 1, write at 1. cbv beta iota zeta.
      rewrite IH. unfold advance. simpl.
      rewrite <- app_assoc. simpl.
      rewrite Nat.add_succ_r. reflexivity.
Qed.

(** X10.  [layers] never changes the registry and never fails.  With more
    than one name it only prints its usage.  Otherwise it visits the stored
    layers once each, in the order the run time chooses, which may be any
    order.  With [-q] it writes one line per visited layer that passes the
    filter, holding the key under which the layer is stored; without [-q]
    it writes a header, one row per such layer, each with its own reading
    of the clock, and flushes.  No filter, or the empty one, lets every
    layer pass; otherwise the name must be equal.  The error of the flag
    parser is not looked at: after [-q] and a [-q=] with a value that is
    no boolean, the flag is false and the table is written. *)
Theorem CmdLayers_lists_matching_layers (stdin : string)
    (args : list string) (s : St) (f : FlagSet) (e : option FlagErr) :
  flag_Parse layers_flags args = (f, e) ->
  let nameFilter := if flags_NArg f =? 1 then flags_Arg f 0 else "" in
  let visited := range_order (world s) 0 (map_to_list (layers (docker s))) in
  let shown := List.filter (fun kv => name_matches nameFilter (snd kv))
                           visited in
  ((1 < length (fs_args f))%nat ->
   CmdLayers stdin args s
   = (Val None,
      mkSt (docker s) (world s)
           (out s ++ parse_output (f, e) ++ [usage_of f]) (runs s)))
  /\ ((length (fs_args f) <= 1)%nat -> bool_flag f "q" = true ->
      CmdLayers stdin args s
      = (Val None,
         mkSt (docker s) (ranged 1 (world s))
              (out s ++ parse_output (f, e)
                 ++ map (fun kv => OBytes (fst kv ++ newline)) shown)
              (runs s)))
  /\ ((length (fs_args f) <= 1)%nat -> bool_flag f "q" = false ->
      CmdLayers stdin args s
      = (Val None,
         mkSt (docker s) (ranged 1 (advance 0 (length shown) 0 (world s)))
              (out s ++ parse_output (f, e) ++ [OLayersHeader]
                 ++ stamped (fun kv now => OLayersRow (snd kv) now)
                      (clock_src (world s)) (clock_pos (world s)) shown
                 ++ [OLayersFlush])
              (runs s)))
  /\ visited ≡ₚ map_to_list (layers (docker s))
  /\ NoDup shown
  /\ (forall k l, (k, l) ∈ shown
                  <-> layers (docker s) !! k = Some l
                      /\ name_matches nameFilter l = true)
  /\ (forall order, order ≡ₚ map_to_list (layers (docker s)) ->
        exists choice,
          range_order (with_next_range choice (world s)) 0
                      (map_to_list (layers (docker s))) = order)
  /\ (forall v rest, ParseBool v = None ->
        args = "-q" :: ("-q=" ++ v) :: rest ->
        bool_flag f "q" = false /\ e = Some (InvalidBool v "q")
        /\ fs_args f = rest).
Proof.
  intros Hparse nameFilter visited shown.
  assert (Hskip : forall kv : string * Layer.t,
            negb (negb (String.eqb nameFilter "")
                  && negb (String.eqb nameFilter (Layer.Name (snd kv))))
            = name_matches nameFilter (snd kv)).
  { intros kv. unfold name_matches.
    destruct (String.eqb nameFilter ""),
             (String.eqb nameFilter (Layer.Name (snd kv))); reflexivity. }
  assert (Hshown : forall l : list (string * Layer.t),
            List.filter
              (fun kv : string * Layer.t =>
                 negb (negb (String.eqb nameFilter "")
                       && negb (String.eqb nameFilter
                                  (Layer.Name (snd kv))))) l
            = List.filter (fun kv => name_matches nameFilter (snd kv)) l).
  { intros l. apply List.filter_ext. exact Hskip. }
  assert (Hperm : visited ≡ₚ map_to_list (layers (docker s))).
  { apply shuffle_Permutation. }
  assert (Hunf : CmdLayers stdin args s
                 = (if flags_NArg f >? 1 then do_ flags_Usage f; ret None
                    else
                      do d <- get_docker;
                      if bool_flag f "q" then
                        do entries <- range_map (layers d);
                        do_ for_each entries
                              (fun kv =>
                                 if negb (String.eqb nameFilter "")
                                    && negb (String.eqb nameFilter
                                               (Layer.Name (snd kv)))
                                 then ret tt
                                 else write (OBytes (fst kv ++ newline)));
                        ret None
                      else
                        do_ write OLayersHeader;
                        do entries <- range_map (layers d);
                        do_ for_each entries
                              (fun kv =>
                                 if negb (String.eqb nameFilter "")
                                    && negb (String.eqb nameFilter
                                               (Layer.Name (snd kv)))
                                 then ret tt
                                 else do now <- time_Now;
                                      write (OLayersRow (snd kv) now));
                        do_ write OLayersFlush;
                        ret None) (after_parse s (f, e))).
  { unfold CmdLayers. unfold bind at 1.
    change (flags_Bool "q" false
              (Subcmd "layers" "[OPTIONS] [NAME]"
                 "Show available filesystem layers")) with layers_flags.
    rewrite flags_Parse_eq, Hparse. reflexivity. }
  rewrite Hunf. clear Hunf. unfold flags_NArg in *.
  split_and!.
  - intros Hlen.
    replace (Z.of_nat (length (fs_args f)) >? 1) with true
      by (symmetry; apply Z.gtb_lt; lia).
    unfold bind, flags_Usage, write, ret, after_parse, usage_of. simpl.
    rewrite <- app_assoc. reflexivity.
  - intros Hlen Hq.
    replace (Z.of_nat (length (fs_args f)) >? 1) with false
      by (symmetry; rewrite Z.gtb_ltb; apply Z.ltb_ge; lia).
    unfold bind at 1, get_docker at 1. cbv beta iota. rewrite Hq.
    unfold bind at 1, range_map at 1. cbv beta iota zeta.
    unfold bind at 1.
    rewrite (for_each_write_filter
               (fun kv : string * Layer.t =>
                  negb (String.eqb nameFilter "")
                  && negb (String.eqb nameFilter (Layer.Name (snd kv))))
               (fun kv => OBytes (fst kv ++ newline))).
    rewrite Hshown.
    unfold ret. cbn [docker after_parse out world runs].
    rewrite <- app_assoc. reflexivity.
  - intros Hlen Hq.
    replace (Z.of_nat (length (fs_args f)) >? 1) with false
      by (symmetry; rewrite Z.gtb_ltb; apply Z.ltb_ge; lia).
    unfold bind at 1, get_docker at 1. cbv beta iota. rewrite Hq.
    unfold bind at 1, write at 1. cbv beta iota.
    unfold bind at 1, range_map at 1. cbv beta iota zeta.
    unfold bind at 1.
    rewrite (for_each_stamped
               (fun kv : string * Layer.t =>
                  negb (String.eqb nameFilter "")
                  && negb (String.eqb nameFilter (Layer.Name (snd kv))))
               (fun kv now => OLayersRow (snd kv) now)).
    rewrite Hshown.
    unfold bind, write, ret. cbn [docker after_parse out world runs].
    cbv beta iota. cbn [docker after_parse out world runs].
    rewrite <- !app_assoc. reflexivity.
  - exact Hperm.
  - unfold shown. apply NoDup_List_filter. rewrite Hperm.
    apply NoDup_map_to_list.
  - intros k l. unfold shown.
    rewrite list_elem_of_In, List.filter_In, <- list_elem_of_In.
    rewrite Hperm, elem_of_map_to_list. reflexivity.
  - intros order Horder.
    destruct (shuffle_onto (map_to_list (layers (docker s))) order Horder)
      as [choice Hchoice].
    exists choice. unfold range_order, with_next_range.
    cbn [range_src range_pos Nat.add]. rewrite Nat.eqb_refl. exact Hchoice.
  - intros v rest Hv ->.
    change ("-q=" ++ v) with (String "-" (String "q" (String "=" v)))
      in Hparse.
    unfold flag_Parse in Hparse. cbn [length parse_loop] in Hparse.
    rewrite (parseOne_bool_flag layers_flags "q" _ false) in Hparse
      by reflexivity.
    change (flags_Bool "q" true
              (set_args (String "-" (String "q" (String "=" v)) :: rest)
                 layers_flags))
      with (set_args (String "-" (String "q" (String "=" v)) :: rest)
              (flags_Bool "q" true layers_flags)) in Hparse.
    rewrite (parseOne_bad_bool _ "q" v rest true) in Hparse
      by (try exact Hv; reflexivity).
    inversion Hparse. split_and!; reflexivity.
Qed.

Lemma fold_longest_ge {A} (g : A -> Z) (l : list A) (acc : Z) :
  acc <= fold_left (fun a x => if g x >? a then g x else a) l acc
  /\ forall x, In x l ->
       g x <= fold_left (fun a x => if g x >? a then g x else a) l acc.
Proof.
  revert acc. induction l as [| y l IH]; intros acc; simpl.
  - split; [lia | intros x []].
  - destruct (IH (if g y >? acc then g y else acc)) as [H1 H2].
    assert (Hy : acc <= (if g y >? acc then g y else acc)
                 /\ g y <= (if g y >? acc then g y else acc)).
    { destruct (g y >? acc) eqn:E; [apply Z.gtb_lt in E |
        rewrite Z.gtb_ltb in E; apply Z.ltb_ge in E]; lia. }
    split; [lia |].
    intros x [-> | Hin]; [lia | apply H2, Hin].
Qed.

Lemma fold_longest_lt {A} (g : A -> Z) (l : list A) (acc b : Z) :
  acc < b -> (forall x, In x l -> g x < b) ->
  fold_left (fun a x => if g x >? a then g x else a) l acc < b.
Proof.
  revert acc. induction l as [| y l IH]; intros acc Hacc Hall; simpl.
  - exact Hacc.
  - apply IH.
    + destruct (g y >? acc); [apply Hall; left; reflexivity | exact Hacc].
    + intros x Hx. apply Hall. right. exact Hx.
Qed.

Lemma fold_longest_Permutation {A} (g : A -> Z) (l l' : list A) :
  l ≡ₚ l' ->
  forall acc,
    fold_left (fun a x => if g x >? a then g x else a) l acc
    = fold_left (fun a x => if g x >? a then g x else a) l' acc.
Proof.
  induction 1 as [| x l l' _ IH | x y l | l l' l'' _ IH1 _ IH2];
    intros acc; simpl.
  - reflexivity.
  - apply IH.
  - f_equal.
    destruct (Z.gtb_spec (g y) acc), (Z.gtb_spec (g x) acc);
      repeat match goal with
             | |- context [?a >? ?b] => destruct (Z.gtb_spec a b)
             end; lia.
  - rewrite IH1. apply IH2.
Qed.

(** X11.  [list] changes nothing in the registry, ignores its arguments
    and never fails: it writes a header and one row per stored container,
    each with its own reading of the clock, visiting the containers once
    each in the order the run time chooses for its second loop.  The width
    of the command column does not depend on the order of the first loop:
    it is at least 5 and at most 50, and wide enough for every command
    line of up to 50 bytes; when every command line is shorter than 5
    bytes, and so for an empty registry, it is 8. *)
Theorem CmdList_rows_and_width (stdin : string) (args : list string)
    (s : St) :
  let cs := map_to_list (containers (docker s)) in
  let visited := range_order (world s) 1 cs in
  CmdList stdin args s
  = (Val None,
     mkSt (docker s) (ranged 2 (advance 0 (length cs) 0 (world s)))
          (out s ++ OListHeader (list_column (docker s))
             :: stamped (fun kv now =>
                           OListRow (list_column (docker s)) (snd kv) now)
                  (clock_src (world s)) (clock_pos (world s)) visited)
          (runs s))
  /\ visited ≡ₚ cs
  /\ (forall k c, (k, c) ∈ visited <-> containers (docker s) !! k = Some c)
  /\ 5 <= list_column (docker s) <= 50
  /\ (forall k c, containers (docker s) !! k = Some c ->
        Z.min (len (CmdString c)) 50 <= list_column (docker s))
  /\ ((forall k c, containers (docker s) !! k = Some c ->
         len (CmdString c) < 5) ->
      list_column (docker s) = 8)
  /\ (containers (docker s) = ∅ -> list_column (docker s) = 8).
Proof.
  intros cs visited.
  assert (Hperm : visited ≡ₚ cs) by apply shuffle_Permutation.
  split_and!.
  - unfold CmdList. unfold bind at 1, get_docker at 1. cbv beta iota zeta.
    unfold bind at 1, range_map at 1. cbv beta iota zeta.
    fold cs.
    rewrite (fold_longest_Permutation
               (fun kv : string * Container.t => len (CmdString (snd kv)))
               _ cs (shuffle_Permutation _ cs)).
    change (if fold_left _ cs 0 >? 50 then 50 else _)
      with (list_column (docker s)).
    unfold bind at 1, write at 1. cbv beta iota.
    unfold bind at 1, range_map at 1. cbv beta iota zeta.
    cbn [docker world out runs range_src range_pos].
    fold cs.
    unfold bind at 1.
    pose proof (for_each_stamped (fun _ : string * Container.t => false)
                  (fun kv now => OListRow (list_column (docker s)) (snd kv) now)
                  (shuffle (range_src (world s) (S (range_pos (world s)))) cs))
      as H.
    cbn [negb] in H.
    rewrite H. clear H.
    replace (List.filter (fun _ : string * Container.t => true)
               (shuffle (range_src (world s) (S (range_pos (world s)))) cs))
      with visited
      by (symmetry; apply forallb_filter_id, forallb_forall; auto).
    rewrite (Permutation_length Hperm).
    unfold ret. cbn [docker world out runs].
    rewrite <- app_assoc. reflexivity.
  - exact Hperm.
  - intros k c. rewrite Hperm. apply elem_of_map_to_list.
  - unfold list_column.
    match goal with
    | |- context [fold_left ?step ?l 0] => generalize (fold_left step l 0)
    end.
    intros m. destruct (m >? 50) eqn:E1; [lia |].
    destruct (m <? 5) eqn:E2; [lia |]. apply Z.ltb_ge in E2. exact E2.
  - unfold list_column.
    match goal with
    | |- context [fold_left ?step ?l 0] => generalize (fold_left step l 0)
    end.
    intros m. destruct (m >? 50) eqn:E1; [lia |].
    rewrite Z.gtb_ltb in E1. apply Z.ltb_ge in E1.
    destruct (m <? 5) eqn:E2; [lia | exact E1].
  - intros k c Hk. unfold list_column.
    destruct (fold_longest_ge (fun kv : string * Container.t =>
                                 len (CmdString (snd kv)))
                (map_to_list (containers (docker s))) 0) as [H0 Hall].
    specialize (Hall (k, c)). simpl in Hall.
    assert (Hin : In (k, c) (map_to_list (containers (docker s)))).
    { apply list_elem_of_In, elem_of_map_to_list. exact Hk. }
    specialize (Hall Hin).
    repeat match goal with
           | |- context [if ?b then _ else _] => destruct b eqn:?
           end;
      repeat match goal with
             | H : (_ >? _) = true |- _ => apply Z.gtb_lt in H
             | H : (_ >? _) = false |- _ =>
                 rewrite Z.gtb_ltb in H; apply Z.ltb_ge in H
             | H : (_ <? _) = true |- _ => apply Z.ltb_lt in H
             | H : (_ <? _) = false |- _ => apply Z.ltb_ge in H
             end; lia.
  - intros Hshort. unfold list_column.
    pose proof (fold_longest_lt (fun kv : string * Container.t =>
                                   len (CmdString (snd kv)))
                  (map_to_list (containers (docker s))) 0 5) as Hlt.
    cbv beta in Hlt.
    assert (Hm : fold_left (fun (a : Z) (x : string * Container.t) =>
                   if len (CmdString (snd x)) >? a
                   then len (CmdString (snd x)) else a)
                   (map_to_list (containers (docker s))) 0 < 5).
    { apply Hlt; [lia |]. intros [k c] Hin. simpl.
      apply (Hshort k c). apply elem_of_map_to_list, list_elem_of_In, Hin. }
    revert Hm.
    match goal with
    | |- context [fold_left ?step ?l 0] => generalize (fold_left step l 0)
    end.
    intros m Hm. destruct (m >? 50) eqn:E1; [apply Z.gtb_lt in E1; lia |].
    destruct (m <? 5) eqn:E2; [reflexivity | apply Z.ltb_ge in E2; lia].
  - intros Hempty. unfold list_column. rewrite Hempty, map_to_list_empty.
    reflexivity.
Qed.

(** * Further properties of the dispatcher *)

Lemma succeeds_bind {A B} (m : M A) (k : A -> M B) :
  succeeds m -> (forall a, succeeds (k a)) -> succeeds (bind m k).
Proof.
  intros Hm Hk s. unfold bind. destruct (Hm s) as [a Ha].
  destruct (m s) as [r s1]. simpl in Ha. subst r. apply Hk.
Qed.

Lemma succeeds_for_each {A} (l : list A) (body : A -> M unit) :
  (forall x, succeeds (body x)) -> succeeds (for_each l body).
Proof.
  intros Hb. induction l as [| x l IH]; simpl.
  - intros s. eexists. reflexivity.
  - apply succeeds_bind; [apply Hb | intros _; exact IH].
Qed.

Ltac solve_succeeds :=
  repeat match goal with
    | |- succeeds (ret _) => intros ?; eexists; reflexivity
    | |- succeeds (write _) => intros ?; eexists; reflexivity
    | |- succeeds (log_run _) => intros ?; eexists; reflexivity
    | |- succeeds (put_docker _) => intros ?; eexists; reflexivity
    | |- succeeds get_docker => intros ?; eexists; reflexivity
    | |- succeeds time_Now => intros ?; eexists; reflexivity
    | |- succeeds (range_map _) => intros ?; eexists; reflexivity
    | |- succeeds next_proc => intros ?; eexists; reflexivity
    | |- succeeds rand_next => intros ?; eexists; reflexivity
    | |- succeeds (flags_Usage _) => intros ?; eexists; reflexivity
    | |- succeeds (for_each _ _) => apply succeeds_for_each; intros
    | |- succeeds (bind _ _) => apply succeeds_bind; [| intros]
    | |- succeeds (match ?x with _ => _ end) => destruct x
    | |- succeeds (if ?b then _ else _) => destruct b
    | |- succeeds (let (_, _) := ?x in _) => destruct x
    end.

Lemma succeeds_flags_Parse (f : FlagSet) (args : list string) :
  succeeds (flags_Parse f args).
Proof. unfold flags_Parse. solve_succeeds. Qed.

Lemma succeeds_addLayer (name source : string) (size : Z) :
  succeeds (addLayer name source size).
Proof.
  unfold addLayer, randomId, randomBytes, rand_Int, rand_Int31n.
  solve_succeeds.
Qed.

Lemma succeeds_write_summary : succeeds write_summary.
Proof. unfold write_summary. solve_succeeds. Qed.

Lemma succeeds_CmdRun (stdin : string) (args : list string) :
  succeeds (CmdRun stdin args).
Proof.
  unfold CmdRun. apply succeeds_bind; [apply succeeds_flags_Parse |].
  intros [flags e].
  unfold container_Run, randomId, randomBytes, rand_Int, rand_Int31n.
  solve_succeeds.
Qed.

(** Every handler but [CmdHelp] ends with a value. *)
Lemma succeeds_handlers (n : nat) (m : Method) (stdin : string)
    (args : list string) :
  m <> MHelp -> succeeds (call (S n) m stdin args).
Proof.
  intros Hm.
  pose proof succeeds_addLayer. pose proof succeeds_CmdRun.
  pose proof succeeds_flags_Parse. pose proof succeeds_write_summary.
  destruct m; try congruence; cbn [call]; unfold_handlers;
    solve_succeeds; auto.
Qed.

(** The handler that [help] calls, with its one argument. *)
Lemma succeeds_help_target (m : Method) (stdin : string) :
  succeeds (call 1 m stdin ["--help"]).
Proof.
  destruct (decide (m = MHelp)) as [-> | Hm].
  - intros s. cbn [call]. unfold CmdHelp, bind, lift.
    rewrite getMethod_dash_help. eexists. reflexivity.
  - apply succeeds_handlers. exact Hm.
Qed.

(** X12.  [help NAME]: when [NAME] names no method, the request gets the
    line "Error: No such command: NAME" and nothing else happens.  When it
    names a method, that method is called with the one argument [--help];
    further arguments are ignored, and whatever the method returns, no
    error line is written.  So [help get] and [help put], whose handlers
    read no flags, store a layer named [--help]. *)
Theorem help_with_a_name (a : string) (rest : list string) (body : string)
    (s : St) :
  (getMethod a = Val None ->
   ServeHTTP "help" (a :: rest) body s
   = (Val tt,
      mkSt (docker s) (world s)
           (out s ++ [OBytes ("Error: No such command: " ++ a ++ newline)])
           (runs s)))
  /\ (forall m, getMethod a = Val (Some m) ->
      ServeHTTP "help" (a :: rest) body s
      = (Val tt, snd (call 1 m body ["--help"] s)))
  /\ (getMethod a = Val (Some MGet) ->
      let l := added_layer (world s) "--help" "download" 0 in
      docker (snd (ServeHTTP "help" (a :: rest) body s))
      = mkDocker (<[Layer.Id l := l]> (layers (docker s)))
                 (containers (docker s)))
  /\ (getMethod a = Val (Some MPut) ->
      let l := added_layer (world s) "--help" "upload" 0 in
      docker (snd (ServeHTTP "help" (a :: rest) body s))
      = mkDocker (<[Layer.Id l := l]> (layers (docker s)))
                 (containers (docker s))).
Proof.
  assert (Hunf : ServeHTTP "help" (a :: rest) body s
                 = (do err <- CmdHelp (call 1) body (a :: rest);
                    match err with
                    | Some msg => write (OBytes ("Error: " ++ msg ++ newline))
                    | None => ret tt
                    end) s).
  { unfold ServeHTTP. cbn [String.eqb Ascii.eqb Bool.eqb].
    unfold bind at 1, lift.
    change (getMethod "help") with (@Val (option Method) (Some MHelp)).
    reflexivity. }
  assert (Hcall : forall m, getMethod a = Val (Some m) ->
            ServeHTTP "help" (a :: rest) body s
            = (Val tt, snd (call 1 m body ["--help"] s))).
  { intros m Hm. rewrite Hunf. unfold CmdHelp, bind, lift. rewrite Hm.
    destruct (succeeds_help_target m body s) as [r Hr].
    destruct (call 1 m body ["--help"] s) as [r' s'].
    simpl in Hr. subst r'. reflexivity. }
  split_and!.
  - intros Hnone. rewrite Hunf. unfold CmdHelp, bind, lift. rewrite Hnone.
    reflexivity.
  - exact Hcall.
  - intros Hm l. rewrite (Hcall _ Hm). cbn [call].
    rewrite CmdGet_eq. reflexivity.
  - intros Hm l. rewrite (Hcall _ Hm). cbn [call].
    rewrite CmdPut_eq. reflexivity.
Qed.


(** * Further invariants of the registry *)

(** X14.  No request removes anything from the registry, and a request
    adds at most one entry to it, a layer or a container. *)
Theorem ServeHTTP_adds_at_most_one (cmd : string) (args : list string)
    (body : string) (s : St) :
  let d := docker s in
  let d' := docker (snd (ServeHTTP cmd args body s)) in
  (forall k, is_Some (layers d !! k) -> is_Some (layers d' !! k))
  /\ (forall k, is_Some (containers d !! k) -> is_Some (containers d' !! k))
  /\ (size (layers d) + size (containers d)
      <= size (layers d') + size (containers d')
      <= S (size (layers d) + size (containers d)))%nat.
Proof.
  intros d d'. destruct (tame_ServeHTTP cmd args body s) as [_ E].
  fold d d' in E. unfold d'.
  destruct E as [D | l p _ _ D | c p _ _ _ D]; rewrite D; fold d; simpl.
  - split_and!; auto; lia.
  - split_and!; auto.
    + intros k Hk. rewrite lookup_insert_is_Some. destruct (decide (Layer.Id l = k)); auto.
    + destruct (layers d !! Layer.Id l) eqn:E.
      * rewrite map_size_insert_Some by eauto. lia.
      * rewrite map_size_insert_None by eauto. lia.
    + destruct (layers d !! Layer.Id l) eqn:E.
      * rewrite map_size_insert_Some by eauto. lia.
      * rewrite map_size_insert_None by eauto. lia.
  - split_and!; auto.
    + intros k Hk. rewrite lookup_insert_is_Some.
      destruct (decide (Container.Id c = k)); auto.
    + destruct (containers d !! Container.Id c) eqn:E.
      * rewrite map_size_insert_Some by eauto. lia.
      * rewrite map_size_insert_None by eauto. lia.
    + destruct (containers d !! Container.Id c) eqn:E.
      * rewrite map_size_insert_Some by eauto. lia.
      * rewrite map_size_insert_None by eauto. lia.
Qed.

(** X15.  In a state the service can reach, as long as the identifiers
    generated up to the end of a request are pairwise distinct, the request
    leaves every layer and every container that is stored as it is: what
    is stored is never overwritten. *)
Theorem stored_entries_are_immutable (s : St) (cmd : string)
    (args : list string) (body : string) :
  reachable s ->
  ids_distinct (world (snd (ServeHTTP cmd args body s)))
               (rand_pos (world (snd (ServeHTTP cmd args body s)))) ->
  (forall k l, layers (docker s) !! k = Some l ->
     layers (docker (snd (ServeHTTP cmd args body s))) !! k = Some l)
  /\ (forall k c, containers (docker s) !! k = Some c ->
        containers (docker (snd (ServeHTTP cmd args body s))) !! k = Some c).
Proof.
  intros Hreach Hdist.
  pose proof (reachable_Inv s Hreach) as HI.
  destruct (tame_ServeHTTP cmd args body s) as [F E].
  destruct E as [D | l p Hp Hid D | c p Hp Hid Hrun D]; rewrite D; simpl.
  - auto.
  - split; [| auto]. intros k l0 Hk.
    rewrite lookup_insert_ne; [exact Hk |].
    rewrite Hid. intros Heq.
    apply (fresh_not_generated s _ p k F Hp Hdist); [| congruence].
    eapply inv_layers; eauto.
  - split; [auto |]. intros k c0 Hk.
    rewrite lookup_insert_ne; [exact Hk |].
    rewrite Hid. intros Heq.
    apply (fresh_not_generated s _ p k F Hp Hdist); [| congruence].
    eapply inv_containers; eauto.
Qed.

Lemma change_after_quiet (s1 s2 s3 : St) :
  quiet_step s1 s2 -> change s2 s3 -> change s1 s3.
Proof.
  intros [D _] E.
  destruct E as [D2 | l D2 | names ls c Hn Hr Hl Hrun D2].
  - apply ch_none. congruence.
  - apply (ch_layer _ _ l). rewrite D2, D. reflexivity.
  - apply (ch_container _ _ names ls c); auto; [congruence |].
    rewrite D2, D. reflexivity.
Qed.

Lemma change_before_quiet (s1 s2 s3 : St) :
  change s1 s2 -> quiet_step s2 s3 -> change s1 s3.
Proof.
  intros E [D _].
  destruct E as [D1 | l D1 | names ls c Hn Hr Hl Hrun D1].
  - apply ch_none. congruence.
  - apply (ch_layer _ _ l). congruence.
  - apply (ch_container _ _ names ls c); auto. congruence.
Qed.

Lemma quiet_careful {A} (m : M A) : quiet m -> careful m.
Proof. intros H s. apply ch_none, H. Qed.

Lemma quiet_bind_careful {A B} (m : M A) (k : A -> M B) :
  quiet m -> (forall a, careful (k a)) -> careful (bind m k).
Proof.
  intros Hm Hk s. unfold bind. specialize (Hm s).
  destruct (m s) as [[a | msg |] s1] eqn:E; simpl in Hm;
    try (apply ch_none, Hm).
  eapply change_after_quiet; [exact Hm | apply Hk].
Qed.

Lemma careful_bind_quiet {A B} (m : M A) (k : A -> M B) :
  careful m -> (forall a, quiet (k a)) -> careful (bind m k).
Proof.
  intros Hm Hk s. unfold bind. specialize (Hm s).
  destruct (m s) as [[a | msg |] s1] eqn:E; simpl in Hm; try exact Hm.
  eapply change_before_quiet; [exact Hm | apply Hk].
Qed.

Lemma careful_addLayer (name source : string) (size : Z) :
  careful (addLayer name source size).
Proof.
  intros s. rewrite addLayer_eq. simpl.
  apply (ch_layer _ _ (added_layer (world s) name source size)).
  reflexivity.
Qed.

Lemma careful_CmdRun (stdin : string) (args : list string) :
  careful (CmdRun stdin args).
Proof.
  intros s.
  destruct (flag_Parse run_flags args) as [f e] eqn:Hparse.
  destruct (tame_CmdRun stdin args s) as [_ _].
  destruct e as [e |].
  { apply ch_none. unfold CmdRun. unfold bind at 1.
    rewrite flags_Parse_eq, Hparse. reflexivity. }
  destruct (list_flag f "l") as [| l0 l1] eqn:El.
  { apply ch_none. unfold CmdRun. unfold bind at 1.
    rewrite flags_Parse_eq, Hparse. cbv beta iota. rewrite El. reflexivity. }
  destruct (fs_args f) as [| a0 rest] eqn:Ea.
  { apply ch_none. unfold CmdRun. unfold bind at 1.
    rewrite flags_Parse_eq, Hparse. cbv beta iota. rewrite El.
    unfold flags_NArg. rewrite Ea. simpl.
    destruct (Z.of_nat (S (length l1)) <? 1); reflexivity. }
  rewrite (CmdRun_parsed stdin args s f Hparse)
    by (rewrite ?El, ?Ea; congruence).
  cbv zeta. rewrite El.
  match goal with
  | |- context [add_layers ?d ?names ?c0] =>
      pose proof (add_layers_resolve d names c0) as Hadd
  end.
  destruct (resolve_all (docker s) (l0 :: l1)) as [ls |] eqn:Hres.
  - rewrite Hadd. cbn [Container.Layers app].
    eapply change_before_quiet; [| apply quiet_container_Run].
    match goal with
    | |- change _ (mkSt (mkDocker _ (<[_ := ?c]> _)) _ _ _) =>
        apply (ch_container _ _ (l0 :: l1) ls c)
    end; simpl; [discriminate | exact Hres | reflexivity | reflexivity
                | reflexivity].
  - destruct Hadd as [msg ->]. apply ch_none. reflexivity.
Qed.

Lemma careful_call (fuel : nat) (m : Method) (stdin : string)
    (args : list string) :
  careful (call fuel m stdin args).
Proof.
  revert m stdin args. induction fuel as [| n IH]; intros m stdin args.
  - intros s. apply ch_none. reflexivity.
  - destruct m; cbn [call].
    + unfold CmdHelp. destruct args as [| arg0 rest].
      * apply quiet_careful.
        apply quiet_bind; [apply quiet_write_summary | intros; apply quiet_ret].
      * apply quiet_bind_careful; [solve_quiet |]. intros [m |].
        -- apply careful_bind_quiet; [apply IH | intros; apply quiet_ret].
        -- apply quiet_careful. solve_quiet.
    + apply quiet_careful, quiet_CmdLayers.
    + unfold CmdGet. destruct args as [| arg0 rest].
      * apply quiet_careful. solve_quiet.
      * apply quiet_bind_careful; [solve_quiet |]. intros _.
        apply careful_bind_quiet; [apply careful_addLayer |]. intros layer.
        solve_quiet.
    + unfold CmdPut. destruct args as [| arg0 rest].
      * apply quiet_careful. solve_quiet.
      * apply careful_bind_quiet; [apply careful_addLayer |]. intros layer.
        solve_quiet.
    + unfold CmdExport.
      apply quiet_bind_careful; [solve_quiet |]. intros [flags [e |]].
      * apply quiet_careful. solve_quiet.
      * destruct (flags_NArg flags <? 2); [apply quiet_careful; solve_quiet |].
        apply quiet_bind_careful; [solve_quiet |]. intros d.
        destruct (containers d !! flags_Arg flags 0) as [container |].
        -- apply careful_bind_quiet; [apply careful_addLayer |].
           intros layer. solve_quiet.
        -- apply quiet_careful. solve_quiet.
    + apply careful_CmdRun.
    + unfold CmdClone.
      apply quiet_bind_careful; [solve_quiet |]. intros [flags e].
      destruct (negb (bool_flag flags "r"));
        [apply quiet_careful; solve_quiet |].
      destruct (negb (flags_NArg flags =? 1));
        [apply quiet_careful; solve_quiet |].
      apply quiet_bind_careful; [solve_quiet |]. intros d.
      destruct (containers d !! flags_Arg flags 0) as [container |].
      * apply careful_CmdRun.
      * apply quiet_careful. solve_quiet.
    + apply quiet_careful, quiet_CmdList.
    + apply quiet_careful, quiet_CmdUsage.
Qed.

Lemma careful_ServeHTTP (cmd : string) (args : list string) (body : string) :
  careful (ServeHTTP cmd args body).
Proof.
  unfold ServeHTTP. destruct (String.eqb cmd "").
  - apply quiet_careful.
    apply quiet_bind; [apply quiet_CmdUsage | intros; apply quiet_ret].
  - apply quiet_bind_careful; [solve_quiet |]. intros [m |].
    + apply careful_bind_quiet; [apply careful_call |]. intros err.
      solve_quiet.
    + apply quiet_careful.
      apply quiet_bind; [apply quiet_CmdUsage | intros; apply quiet_ret].
Qed.

Lemma resolve_all_WF (d : Docker) (names : list string)
    (ls : list Layer.t) :
  WF d -> resolve_all d names = Some ls ->
  (names <> [] -> ls <> [])
  /\ forall l, l ∈ ls -> is_Some (layers d !! Layer.Id l).
Proof.
  intros HW. revert ls. induction names as [| n names IH]; intros ls H.
  - simpl in H. inversion H; subst. split; [congruence |].
    intros l Hl. by apply elem_of_nil in Hl.
  - simpl in H. unfold layers_of in H.
    destruct (layers d !! n) as [layer |] eqn:El.
    + destruct (resolve_all d names) as [rest |]; [| discriminate].
      inversion H; subst. destruct (IH rest eq_refl) as [_ IH2].
      split; [discriminate |].
      intros l Hl. apply elem_of_cons in Hl. destruct Hl as [-> | Hl].
      * rewrite (wf_layer_key d HW n layer El). eauto.
      * apply IH2, Hl.
    + destruct (containers d !! n) as [src |] eqn:Ec; [| discriminate].
      simpl in H.
      destruct (resolve_all d names) as [rest |]; [| discriminate].
      inversion H; subst. destruct (IH rest eq_refl) as [_ IH2].
      split.
      * intros _ Hnil. apply app_eq_nil in Hnil. destruct Hnil as [Hnil _].
        exact (wf_container_layers d HW n src Ec Hnil).
      * intros l Hl. apply elem_of_app in Hl. destruct Hl as [Hl | Hl].
        -- exact (wf_layer_refs d HW n src l Ec Hl).
        -- apply IH2, Hl.
Qed.

Lemma WF_change (s s' : St) : change s s' -> WF (docker s) -> WF (docker s').
Proof.
  intros E HW.
  destruct E as [D | l D | names ls c Hn Hres Hl Hrun D]; rewrite D.
  - exact HW.
  - destruct HW as [W1 W2 W3 W4]. constructor; simpl; auto.
    + intros k l0 Hk. destruct (decide (Layer.Id l = k)) as [<- | Hne].
      * rewrite lookup_insert_eq in Hk. congruence.
      * rewrite lookup_insert_ne in Hk by exact Hne. eauto.
    + intros k c0 l0 Hk Hl0. rewrite lookup_insert_is_Some.
      destruct (decide (Layer.Id l = Layer.Id l0)); [auto |].
      right. split; [assumption | eauto].
  - destruct (resolve_all_WF _ _ _ HW Hres) as [Hne Hrefs].
    destruct HW as [W1 W2 W3 W4]. constructor; simpl; auto.
    + intros k c0 Hk. destruct (decide (Container.Id c = k)) as [<- | Hne'].
      * rewrite lookup_insert_eq in Hk. congruence.
      * rewrite lookup_insert_ne in Hk by exact Hne'. eauto.
    + intros k c0 Hk. destruct (decide (Container.Id c = k)) as [<- | Hne'].
      * rewrite lookup_insert_eq in Hk. inversion Hk; subst c0.
        rewrite Hl. apply Hne, Hn.
      * rewrite lookup_insert_ne in Hk by exact Hne'. eauto.
    + intros k c0 l0 Hk Hl0.
      destruct (decide (Container.Id c = k)) as [<- | Hne'].
      * rewrite lookup_insert_eq in Hk. inversion Hk; subst c0.
        rewrite Hl in Hl0. apply Hrefs, Hl0.
      * rewrite lookup_insert_ne in Hk by exact Hne'. eauto.
Qed.



(** X16.  The shape of the registry is kept by every request, and holds
    in every state the service can reach: each layer and each container is
    stored under its own identifier, each container has at least one
    layer, and each layer of a container bears the identifier of a layer
    that is stored. *)
Theorem registry_stays_well_formed :
  WF New
  /\ (forall cmd args body s,
        WF (docker s) -> WF (docker (snd (ServeHTTP cmd args body s))))
  /\ (forall s, reachable s -> WF (docker s)).
Proof.
  assert (H0 : WF New).
  { constructor; simpl; intros; rewrite lookup_empty in *; discriminate. }
  assert (Hstep : forall cmd args body s,
            WF (docker s) -> WF (docker (snd (ServeHTTP cmd args body s)))).
  { intros cmd args body s. apply WF_change, careful_ServeHTTP. }
  split_and!; auto.
  induction 1 as [w | s cmd args body _ IH]; [exact H0 | apply Hstep, IH].
Qed.

(** * Cloning *)


(** * Further properties of the names and the identifiers *)

Ltac byte_cases a :=
  destruct a as [[|] [|] [|] [|] [|] [|] [|] [|]].

Lemma MethodByName_Some (x : string) (m : Method) :
  MethodByName x = Some m <-> x = method_name m.
Proof.
  split.
  - intros H. unfold MethodByName in H. apply find_some in H.
    destruct H as [_ H]. apply String.eqb_eq in H. congruence.
  - intros ->. destruct m; reflexivity.
Qed.

(** The name of a method is ["Cmd"], a capital and the rest of its word;
    a byte is upper-cased to that capital exactly when it is lower-cased
    to the first letter of the word. *)
Lemma method_name_capital (m : Method) :
  exists u l W,
    method_name m = "Cmd" ++ String u W
    /\ command_word m = String l W
    /\ forall a, upper_byte a = u <-> lower_byte a = l.
Proof.
  destruct m; eexists _, _, _;
    (split; [reflexivity |]); (split; [reflexivity |]);
    intros a; byte_cases a; vm_compute; split; intros E;
    first [reflexivity | discriminate E].
Qed.

(** X17.  Dispatch on an ASCII name ignores case and nothing else: the
    name reaches a method exactly when, lower-cased, it is that method's
    word.  The nine words are the only ASCII names that reach a
    handler. *)
Theorem getMethod_ascii_case_insensitive (name : string) (m : Method) :
  isASCII name = true ->
  (getMethod name = Val (Some m)
   <-> string_map lower_byte name = command_word m).
Proof.
  intros Hascii. destruct name as [| a r].
  - simpl. split; [discriminate | destruct m; discriminate].
  - unfold isASCII in Hascii. cbn [string_forallb] in Hascii.
    apply andb_true_iff in Hascii. destruct Hascii as [Ha Hr].
    unfold getMethod, methodName, strings_ToUpper, strings_ToLower.
    assert (H1 : isASCII (String a "") = true)
      by (unfold isASCII; cbn [string_forallb]; rewrite Ha; reflexivity).
    rewrite H1. unfold isASCII at 1. rewrite Hr. cbn [string_map].
    generalize (string_map lower_byte r). intros R.
    destruct (method_name_capital m) as (u & l & W & Hm & Hc & Hul).
    rewrite Hc. split.
    + intros H. inversion H as [H']. apply MethodByName_Some in H'.
      rewrite Hm in H'. simpl in H'. inversion H' as [[Hu HW]].
      f_equal; [apply Hul; exact Hu | exact HW].
    + intros H. inversion H as [[Hl HW]]. f_equal.
      apply MethodByName_Some. rewrite Hm. simpl.
      apply Hul in Hl. rewrite Hl. reflexivity.
Qed.

Lemma unhex_hex_byte (a : ascii) :
  ascii_of_N
    (Z.to_N (16 * unhex_digit (hex_digit (byte_val a / 16))
             + unhex_digit (hex_digit (byte_val a mod 16)))) = a.
Proof. byte_cases a; reflexivity. Qed.

Lemma hex_byte_digits (a : ascii) :
  is_hex_digit (hex_digit (byte_val a / 16)) = true
  /\ is_hex_digit (hex_digit (byte_val a mod 16)) = true.
Proof. byte_cases a; split; reflexivity. Qed.

Lemma unhex_hex_bytes (b : string) : unhex_bytes (hex_bytes b) = b.
Proof.
  induction b as [| a r IH]; [reflexivity |].
  cbn [hex_bytes unhex_bytes]. rewrite unhex_hex_byte, IH. reflexivity.
Qed.

Lemma length_hex_bytes (b : string) :
  String.length (hex_bytes b) = (2 * String.length b)%nat.
Proof.
  induction b as [| a r IH]; [reflexivity |].
  cbn [hex_bytes String.length]. rewrite IH. lia.
Qed.

Lemma length_prefix_bytes (n : nat) (b : string) :
  String.length (prefix_bytes n b) = Nat.min n (String.length b).
Proof.
  revert b. induction n as [| n IH]; intros [| a r]; simpl; auto.
Qed.

(** X18.  [ComputeId] returns the error that ended the reading of its
    content, with the empty identifier, and no error when the content was
    read to its end.  The identifier it then returns is written in
    lower-case hexadecimal digits, two for each of the first eight bytes of
    the digest (sixteen for a digest of eight bytes or more), and those
    bytes can be read back from it: two contents get the same identifier
    exactly when their digests agree on these bytes.  [randomId] hands it a
    buffer, whose reading does not fail, so the error it drops is [nil]. *)
Theorem ComputeId_hex_of_digest_prefix (content : Reader) :
  snd (ComputeId content) = rd_err content
  /\ (forall err, rd_err content = Some err ->
        ComputeId content = ("", Some err))
  /\ (rd_err content = None ->
      unhex_bytes (fst (ComputeId content))
      = prefix_bytes 8 (sha256_Sum (rd_bytes content))
      /\ string_forallb is_hex_digit (fst (ComputeId content)) = true
      /\ String.length (fst (ComputeId content))
         = (2 * Nat.min 8 (String.length (sha256_Sum (rd_bytes content))))%nat
      /\ ((8 <= String.length (sha256_Sum (rd_bytes content)))%nat ->
          String.length (fst (ComputeId content)) = 16%nat)
      /\ (forall content', rd_err content' = None ->
            fst (ComputeId content) = fst (ComputeId content')
            <-> prefix_bytes 8 (sha256_Sum (rd_bytes content))
                = prefix_bytes 8 (sha256_Sum (rd_bytes content'))))
  /\ (forall b, snd (ComputeId (bytes_NewBuffer b)) = None)
  /\ (forall s,
        fst (randomId s)
        = Val (fst (ComputeId
                      (bytes_NewBuffer
                         (hex_int (rand_src (world s) (rand_pos (world s))
                                   mod 2 ^ 63)))))).
Proof.
  split_and!.
  - unfold ComputeId. destruct (rd_err content); reflexivity.
  - intros err He. unfold ComputeId. rewrite He. reflexivity.
  - intros He. unfold ComputeId. rewrite He. cbn [fst snd].
    assert (Hlen : String.length
                     (hex_bytes (prefix_bytes 8 (sha256_Sum (rd_bytes content))))
                   = (2 * Nat.min 8
                            (String.length (sha256_Sum (rd_bytes content))))%nat).
    { rewrite length_hex_bytes, length_prefix_bytes. reflexivity. }
    split_and!.
    + apply unhex_hex_bytes.
    + generalize (prefix_bytes 8 (sha256_Sum (rd_bytes content))). intros b.
      induction b as [| a r IH]; [reflexivity |].
      cbn [hex_bytes string_forallb].
      destruct (hex_byte_digits a) as [-> ->]. exact IH.
    + exact Hlen.
    + intros H8. rewrite Hlen. lia.
    + intros content' He'. rewrite He'. cbn [fst]. split.
      * intros H. apply (f_equal unhex_bytes) in H.
        rewrite !unhex_hex_bytes in H. exact H.
      * intros ->. reflexivity.
  - intros b. reflexivity.
  - intros s. unfold randomId, randomBytes, rand_Int, rand_next, bind, ret.
    reflexivity.
Qed.

(** * Further properties of the arguments of [run] *)

Lemma parseOne_layer_flag (f : FlagSet) (acc : list string) (x : string)
    (tail : list string) :
  fs_bools f !! "l" = None ->
  fs_lists f !! "l" = Some acc ->
  parseOne (set_args ("-l" :: x :: tail) f)
  = Seen (with_list f "l" (acc ++ [x]) tail).
Proof.
  intros Hb Hl. unfold parseOne. cbn [fs_args set_args].
  cbn [Ascii.eqb Bool.eqb negb andb orb String.eqb split_value cut_eq].
  cbn [fs_bools fs_lists fs_args set_args].
  rewrite Hb, Hl. reflexivity.
Qed.

Lemma parse_layer_flags (names : list string) :
  forall (acc rest : list string) (f : FlagSet) (n : nat),
    fs_bools f !! "l" = None ->
    fs_lists f !! "l" = Some acc ->
    (length (layer_flags names ++ rest) < n)%nat ->
    parse_loop n (set_args (layer_flags names ++ rest) f)
    = parse_loop n (with_list f "l" (acc ++ names) rest).
Proof.
  induction names as [| x names IH]; intros acc rest f n Hb Hl Hn.
  - simpl. rewrite app_nil_r. unfold with_list, set_args.
    rewrite insert_id by exact Hl. reflexivity.
  - destruct n as [| n]; [lia |].
    cbn [layer_flags flat_map app] in *.
    change (flat_map (fun n => ["-l"; n]) names) with (layer_flags names) in *.
    cbn [parse_loop]. rewrite (parseOne_layer_flag f acc x _ Hb Hl).
    assert (Hlen : (length (layer_flags names ++ rest) < n)%nat)
      by (simpl in Hn; lia).
    rewrite (parse_loop_enough n (S n)) by (simpl; lia).
    change (with_list f "l" (acc ++ [x])%list (layer_flags names ++ rest)%list)
      with (set_args (layer_flags names ++ rest)%list
              (with_list f "l" (acc ++ [x])%list [])).
    rewrite (IH (acc ++ [x])%list rest _ (S n)); simpl;
      [| exact Hb | apply lookup_insert_eq | lia].
    unfold with_list. simpl. rewrite insert_insert_eq, <- app_assoc.
    reflexivity.
Qed.

(** The arguments [-l n1 ... -l nk -- rest] of a [run]. *)
Lemma run_parse_layers (names rest : list string) :
  flag_Parse run_flags (layer_flags names ++ "--" :: rest)
  = (with_list run_flags "l" names rest, None).
Proof.
  unfold flag_Parse.
  rewrite (parse_layer_flags names [] ("--" :: rest) run_flags);
    [| reflexivity | reflexivity | lia].
  cbn [app]. cbn [parse_loop].
  reflexivity.
Qed.

(** X19.  [run -l n1 ... -l nk -- COMMAND ARGS...]: the layer names are
    collected in the order they are given and each is taken as it stands,
    as are the command and its arguments after the [--].  With at least
    one name, all of them resolving, the container stored has the resolved
    layers in that order, the command and the arguments; with no name at
    all the call fails with "Please specify at least one layer". *)
Theorem CmdRun_layer_list_in_order (stdin : string) (names : list string)
    (cmd : string) (cargs : list string) (s : St) :
  (exists f,
     flag_Parse run_flags (layer_flags names ++ "--" :: cmd :: cargs)
     = (f, None)
     /\ list_flag f "l" = names /\ fs_args f = cmd :: cargs)
  /\ (names = [] ->
      CmdRun stdin (layer_flags names ++ "--" :: cmd :: cargs)%list s
      = (Val (Some "Please specify at least one layer"), s))
  /\ (forall ls, names <> [] -> resolve_all (docker s) names = Some ls ->
      let c := Container.set_Layers ls (new_container (world s) cmd cargs) in
      let po := proc_src (world s) (proc_pos (world s)) in
      CmdRun stdin (layer_flags names ++ "--" :: cmd :: cargs)%list s
      = (Val (rr_err (Run c stdin po)),
         mkSt (mkDocker (layers (docker s))
                        (<[Container.Id c := c]> (containers (docker s))))
              (advance 3 1 1 (world s))
              (out s ++ match po_start po with
                        | Some _ => []
                        | None => [OBytes (po_copied po)]
                        end)
              (runs s ++ [Run c stdin po]))).
Proof.
  pose proof (run_parse_layers names (cmd :: cargs)) as Hparse.
  assert (Hl : list_flag (with_list run_flags "l" names (cmd :: cargs)) "l"
               = names).
  { unfold list_flag, with_list. cbn [fs_lists].
    rewrite lookup_insert_eq. reflexivity. }
  split_and!.
  - eexists. split; [exact Hparse |]. split; [exact Hl | reflexivity].
  - intros ->. unfold CmdRun. unfold bind at 1.
    rewrite flags_Parse_eq, Hparse, after_parse_ok. reflexivity.
  - intros ls Hne Hres.
    pose proof (CmdRun_success_eq stdin _ s _ ls Hparse) as Heq.
    rewrite Hl in Heq. cbn [fs_args with_list] in Heq.
    apply Heq; [discriminate | exact Hne | exact Hres].
Qed.

(** X21.  A layer that [get] has just stored can be run on: [run -l ID --
    COMMAND ARGS...], with the identifier of that layer, stores a
    container whose only layer is that layer, and runs the command. *)
Theorem get_then_run (stdin name cmd : string) (cargs : list string)
    (s : St) :
  let l := added_layer (world s) name "download" 0 in
  let s1 := snd (CmdGet stdin [name] s) in
  let c := Container.set_Layers [l] (new_container (world s1) cmd cargs) in
  let po := proc_src (world s) (proc_pos (world s)) in
  layers (docker s1) !! Layer.Id l = Some l
  /\ CmdRun stdin (layer_flags [Layer.Id l] ++ "--" :: cmd :: cargs)%list s1
     = (Val (rr_err (Run c stdin po)),
        mkSt (mkDocker (layers (docker s1))
                       (<[Container.Id c := c]> (containers (docker s))))
             (advance 3 1 1 (world s1))
             (out s1 ++ match po_start po with
                        | Some _ => []
                        | None => [OBytes (po_copied po)]
                        end)
             (runs s ++ [Run c stdin po]))
  /\ Container.Layers c = [l]
  /\ Container.Cmd c = cmd
  /\ Container.Args c = cargs.
Proof.
  intros l s1 c po.
  assert (Hs1 : s1 = mkSt (mkDocker (<[Layer.Id l := l]> (layers (docker s)))
                                    (containers (docker s)))
                          (advance 2 1 0 (world s))
                          (out s ++ [OBytes ("Downloading from " ++ name
                                               ++ "..." ++ newline);
                                     ONewLayer l])
                          (runs s)).
  { unfold s1. rewrite CmdGet_eq. reflexivity. }
  assert (Hl : layers (docker s1) !! Layer.Id l = Some l).
  { rewrite Hs1. apply lookup_insert_eq. }
  split_and!; try reflexivity; [exact Hl |].
  pose proof (run_parse_layers [Layer.Id l] (cmd :: cargs)) as Hparse.
  pose proof (CmdRun_success_eq stdin _ s1 _ [l] Hparse) as Heq.
  assert (Hlist : list_flag (with_list run_flags "l" [Layer.Id l]
                               (cmd :: cargs)) "l" = [Layer.Id l]).
  { unfold list_flag, with_list. cbn [fs_lists].
    rewrite lookup_insert_eq. reflexivity. }
  rewrite Hlist in Heq. cbn [fs_args with_list] in Heq.
  rewrite Heq.
  - rewrite Hs1. reflexivity.
  - discriminate.
  - discriminate.
  - cbn [resolve_all]. unfold layers_of. rewrite Hl. reflexivity.
Qed.

(** * Further properties of the request boundary *)

Lemma append_cons (c : ascii) (r p : string) :
  String c r ++ p = String c (r ++ p).
Proof. reflexivity. Qed.

Lemma append_nil (p : string) : "" ++ p = p.
Proof. reflexivity. Qed.

Lemma has_slash_cons (c : ascii) (r : string) :
  has_slash (String c r) = Ascii.eqb c "/"%char || has_slash r.
Proof.
  unfold has_slash. cbn [string_forallb].
  destruct (Ascii.eqb c "/"%char); reflexivity.
Qed.

Lemma strip_slash_free (p : string) :
  has_slash p = false -> strip_trailing_slashes p = p.
Proof.
  induction p as [| c r IH]; [reflexivity |].
  rewrite has_slash_cons. intros H. apply orb_false_iff in H.
  destruct H as [Hc Hr]. cbn [strip_trailing_slashes].
  rewrite (IH Hr). destruct r; [rewrite Hc |]; reflexivity.
Qed.

Lemma strip_app_fixed (pre q : string) :
  q <> "" -> strip_trailing_slashes q = q ->
  strip_trailing_slashes (pre ++ q) = pre ++ q.
Proof.
  intros Hne Hq. induction pre as [| c r IH]; [exact Hq |].
  rewrite append_cons. cbn [strip_trailing_slashes]. rewrite IH.
  destruct (r ++ q) eqn:E; [| reflexivity].
  destruct r; [rewrite append_nil in E; congruence |].
  rewrite append_cons in E. discriminate.
Qed.

Lemma strip_slash_name (name : string) :
  name <> "" -> has_slash name = false ->
  strip_trailing_slashes (String "/"%char name) = String "/"%char name.
Proof.
  intros Hne Hs. cbn [strip_trailing_slashes].
  rewrite (strip_slash_free name Hs).
  destruct name; [congruence | reflexivity].
Qed.

Lemma has_slash_app (p q : string) :
  has_slash (p ++ q) = has_slash p || has_slash q.
Proof.
  induction p as [| c r IH]; [reflexivity |].
  rewrite append_cons, !has_slash_cons, IH, orb_assoc. reflexivity.
Qed.

Lemma last_element_after_slash (dir name : string) :
  has_slash name = false ->
  last_element (dir ++ String "/"%char name) = name.
Proof.
  intros Hn. induction dir as [| c r IH].
  - rewrite append_nil. cbn [last_element]. rewrite Hn. reflexivity.
  - rewrite append_cons. cbn [last_element].
    rewrite has_slash_app, has_slash_cons. cbn [Ascii.eqb Bool.eqb].
    rewrite orb_true_r. exact IH.
Qed.

Lemma last_element_slash_free (p : string) :
  has_slash (last_element p) = false.
Proof.
  induction p as [| c r IH]; [reflexivity |].
  cbn [last_element]. destruct (has_slash r) eqn:Hr; [exact IH |].
  destruct (Ascii.eqb c "/"%char) eqn:Hc; [exact Hr |].
  rewrite has_slash_cons, Hc, Hr. reflexivity.
Qed.

(** X20.  The command that [URLToCall] reads off a request is never
    empty, so the test for the empty command in [ServeHTTP] never fires
    and dispatch cannot panic; it holds no slash, unless it is the root
    ["/"]; the empty path gives ["."]; a path that ends in a slash and a
    name yields that name, and the request is dispatched under it; and a
    request without the query key has no arguments. *)
Theorem URLToCall_command_never_empty (u : URL) (body : string) (s : St) :
  fst (URLToCall u) <> ""
  /\ (exists r, getMethod (fst (URLToCall u)) = Val r)
  /\ (has_slash (fst (URLToCall u)) = true -> fst (URLToCall u) = "/")
  /\ (url_Path u = "" -> fst (URLToCall u) = ".")
  /\ (forall dir name, name <> "" -> has_slash name = false ->
        url_Path u = dir ++ "/" ++ name ->
        fst (URLToCall u) = name
        /\ ServeHTTP_url u body s = ServeHTTP name (snd (URLToCall u)) body s)
  /\ (url_Query u !! ARG_URL_KEY = None -> snd (URLToCall u) = []).
Proof.
  assert (Hne : forall p, path_Base p <> "").
  { intros p. unfold path_Base.
    destruct (String.eqb p ""); [discriminate |].
    destruct (String.eqb (last_element (strip_trailing_slashes p)) "") eqn:E;
      [discriminate |].
    intros H. rewrite H in E. discriminate. }
  assert (Hname : forall dir name, name <> "" -> has_slash name = false ->
            path_Base (dir ++ "/" ++ name) = name).
  { intros dir name Hn Hs. unfold path_Base.
    assert (Hd : String.eqb (dir ++ "/" ++ name) "" = false).
    { destruct dir; reflexivity. }
    rewrite Hd.
    assert (Hstrip : strip_trailing_slashes (dir ++ "/" ++ name)
                     = dir ++ "/" ++ name).
    { change (dir ++ "/" ++ name) with (dir ++ String "/"%char name).
      apply strip_app_fixed; [discriminate |].
      apply strip_slash_name; assumption. }
    rewrite Hstrip.
    change (dir ++ "/" ++ name) with (dir ++ String "/"%char name).
    rewrite last_element_after_slash by exact Hs.
    destruct name; [congruence | reflexivity]. }
  split_and!.
  - apply Hne.
  - cbn [URLToCall fst]. specialize (Hne (url_Path u)).
    destruct (path_Base (url_Path u)); [congruence |].
    eexists. reflexivity.
  - cbn [URLToCall fst]. unfold path_Base.
    destruct (String.eqb (url_Path u) ""); [discriminate |].
    destruct (String.eqb (last_element (strip_trailing_slashes (url_Path u)))
                "") eqn:E; [reflexivity |].
    rewrite last_element_slash_free. discriminate.
  - intros Hp. cbn [URLToCall fst]. rewrite Hp. reflexivity.
  - intros dir name Hn Hs Hp. split.
    + cbn [URLToCall fst]. rewrite Hp. apply Hname; assumption.
    + unfold ServeHTTP_url, URLToCall. cbn [snd]. rewrite Hp.
      rewrite (Hname dir name Hn Hs). reflexivity.
  - intros Hq. cbn [URLToCall snd]. rewrite Hq. reflexivity.
Qed.

(** ** The summary of [help] against the dispatch *)

Lemma help_no_such_command (w : string) (body : string) (s : St) :
  getMethod w = Val None ->
  ServeHTTP "help" [w] body s
  = (Val tt,
     mkSt (docker s) (world s)
          (out s ++ [OBytes ("Error: No such command: " ++ w ++ newline)])
          (runs s)).
Proof.
  intros Hw. unfold ServeHTTP. cbn [String.eqb Ascii.eqb Bool.eqb].
  unfold bind at 1, lift.
  change (getMethod "help") with (@Val (option Method) (Some MHelp)).
  cbv beta iota. unfold invoke. cbn [call].
  unfold CmdHelp, bind, lift. rewrite Hw. reflexivity.
Qed.

(** X22.  The summary that [help] prints and the dispatch disagree.  Of the
    eleven commands the summary lists, five ([wait], [stop], [logs],
    [attach], [info]) name no method, and [help] on one of them answers "No
    such command"; the other six are served.  The methods [help], [put]
    and [usage] are reached by their word and are not listed.  No listed
    name is cut by the column of ten bytes. *)
Theorem help_summary_lists_missing_commands (body : string) (s : St) :
  (forall w, In w (map fst help_commands) ->
     (getMethod w = Val None
      <-> In w ["wait"; "stop"; "logs"; "attach"; "info"])
     /\ (getMethod w <> Val None ->
         exists m, getMethod w = Val (Some m) /\ command_word m = w))
  /\ (forall w, In w (map fst help_commands) -> getMethod w = Val None ->
        ServeHTTP "help" [w] body s
        = (Val tt,
           mkSt (docker s) (world s)
                (out s ++ [OBytes ("Error: No such command: " ++ w
                                     ++ newline)])
                (runs s)))
  /\ (forall m, getMethod (command_word m) = Val (Some m))
  /\ (forall m, In (command_word m) (map fst help_commands)
                <-> m <> MHelp /\ m <> MPut /\ m <> MUsage)
  /\ (forall cmd, In cmd help_commands ->
        pad10 (fst cmd)
        = fst cmd ++ spaces (10 - String.length (fst cmd))).
Proof.
  split_and!.
  - intros w Hw. cbn in Hw.
    repeat (destruct Hw as [<- | Hw]; [| ]); try contradiction;
      (split;
       [ split; [ intros H; vm_compute in H; first [discriminate H | cbn; tauto]
                | intros H; cbn in H;
                  first [reflexivity
                        | exfalso;
                          repeat (destruct H as [H | H];
                                  [discriminate H |]); exact H] ]
       | intros H;
         first [ exfalso; apply H; reflexivity
               | eexists; split; [reflexivity |];
                 vm_compute; reflexivity ] ]).
  - intros w _ Hw. apply help_no_such_command, Hw.
  - intros m. destruct m; reflexivity.
  - intros m. destruct m; cbn; split;
      first [ intros _; split_and!; discriminate
            | intros H; exfalso;
              repeat (destruct H as [H | H]; [discriminate H |]); exact H
            | intros H; tauto
            | intros [H1 [H2 H3]]; congruence ].
  - intros cmd Hc. cbn in Hc.
    repeat (destruct Hc as [<- | Hc]; [reflexivity |]). contradiction.
Qed.

End Dockerd.

(** * The properties on the sample inputs *)

Lemma Run_already_running_witness :
  Container.Running running_container = true
  /\ rr_err (Run running_container "input" failing_proc)
     = Some "Already running"
  /\ rr_steps (Run running_container "input" failing_proc) = []
  /\ rr_container (Run running_container "input" failing_proc)
     = running_container.
Proof.
  split; [reflexivity |].
  destruct (Run_already_running running_container "input" failing_proc
              (mkSt New sample_world [] []) eq_refl)
    as (He & _ & Hs & _ & _ & Hc & _).
  split; [exact He |]. split; [exact Hs | exact Hc].
Defined.

Lemma Run_releases_running_witness :
  Container.Running idle_container = false
  /\ Container.Running
       (rr_container (Run idle_container "input" failing_proc)) = false
  /\ rr_container (Run idle_container "input" failing_proc) = idle_container
  /\ rr_err (Run idle_container "input" failing_proc) = Some "exit status 1".
Proof.
  split; [reflexivity |].
  destruct (Run_releases_running idle_container "input" failing_proc eq_refl)
    as (Hr & _ & Hc & _ & He).
  split; [exact Hr |]. split; [exact Hc |]. rewrite He. reflexivity.
Defined.

Lemma Run_wait_error_first_witness :
  Container.Running idle_container = false
  /\ po_start failing_proc = None
  /\ po_wait failing_proc = Some "exit status 1"
  /\ po_copy failing_proc = Some "broken pipe"
  /\ rr_err (Run idle_container "input" failing_proc) = Some "exit status 1"
  /\ rr_steps (Run idle_container "input" failing_proc)
     = [SStart "echo" ["hi"]; SGo CopyOut; SGo CopyIn; SWait].
Proof.
  split; [reflexivity |]. split; [reflexivity |]. split; [reflexivity |].
  split; [reflexivity |].
  destruct (Run_wait_error_first idle_container "input" failing_proc eq_refl)
    as (Hw & _ & _).
  destruct (Hw "exit status 1" eq_refl eq_refl) as (He & _ & Hs & _).
  split; [exact He | exact Hs].
Defined.

Lemma Run_discards_stdin_witness :
  child_stdin_bytes (Run idle_container "typed by the caller" failing_proc) = []
  /\ rr_copy_in (Run idle_container "typed by the caller" failing_proc)
     = Some (mkTask [CloseChildStdin; CloseStdin] None).
Proof.
  destruct (Run_discards_stdin idle_container "typed by the caller"
              failing_proc) as (_ & Hb & _ & _ & Hin).
  split; [exact Hb |]. rewrite (Hin eq_refl eq_refl). reflexivity.
Defined.

Lemma getMethod_case_normalizing_witness :
  "rUn" <> "" /\ "RUN" <> ""
  /\ normalize sample_case sample_case "rUn"
     = normalize sample_case sample_case "RUN"
  /\ getMethod sample_case sample_case "rUn"
     = getMethod sample_case sample_case "RUN".
Proof.
  assert (H1 : "rUn" <> "") by discriminate.
  assert (H2 : "RUN" <> "") by discriminate.
  assert (H3 : normalize sample_case sample_case "rUn"
               = normalize sample_case sample_case "RUN") by reflexivity.
  split; [exact H1 |]. split; [exact H2 |]. split; [exact H3 |].
  destruct (getMethod_case_normalizing sample_case sample_case)
    as (_ & _ & _ & _ & H).
  exact (H "rUn" "RUN" H1 H2 H3).
Defined.

Lemma ServeHTTP_unrecognized_witness :
  getMethod sample_case sample_case "bogus" = Val None
  /\ ServeHTTP sample_case sample_case sample_digest "bogus" ["x"] ""
       (mkSt New sample_world [] [])
     = (Val tt, mkSt New sample_world ([] ++ summary) []).
Proof.
  split; [reflexivity |].
  exact (proj1 (ServeHTTP_unrecognized sample_case sample_case sample_digest
                  "bogus" ["x"] "" (mkSt New sample_world [] [])
                  (or_intror eq_refl))).
Defined.

(** With a random source that yields zero, the size synthesized for a
    layer added with size zero is zero. *)
Lemma addLayer_size_can_be_zero :
  exists layer s',
    addLayer sample_digest "base" "download" 0 (mkSt New zero_world [] [])
    = (Val layer, s')
    /\ layers (docker s') !! Layer.Id layer = Some layer
    /\ Layer.Size layer = 0
    /\ ~ (0 < Layer.Size layer).
Proof.
  eexists _, _. split; [vm_compute; reflexivity |].
  split; [vm_compute; reflexivity |]. split; [reflexivity |].
  simpl. lia.
Defined.

Lemma addLayer_stores_witness :
  exists layer s',
    addLayer sample_digest "base" "download" 0
      (mkSt New sample_world [] []) = (Val layer, s')
    /\ Layer.Name layer = "base"
    /\ Layer.Source layer = "download"
    /\ layers (docker s') !! Layer.Id layer = Some layer
    /\ Layer.Size layer = 1000.
Proof.
  destruct (addLayer_stores sample_digest "base" "download" 0
              (mkSt New sample_world [] []))
    as (layer & s' & Heq & Hn & Hs & _ & Hl & _ & _ & _ & Hz).
  exists layer, s'. split; [exact Heq |]. split; [exact Hn |].
  split; [exact Hs |]. split; [exact Hl |].
  destruct (Hz eq_refl) as [-> _]. reflexivity.
Defined.


(** [run -l nope], without a command: the layer list holds a name that
    resolves to nothing, and the error is the one of the missing command.
    [run -l nope -x true], with a flag that is not defined: the layer list
    holds the same name, and the call returns no error at all. *)
Lemma CmdRun_no_command_counterexample :
  (exists f,
     flag_Parse run_flags ["-l"; "nope"] = (f, None)
     /\ list_flag f "l" = ["nope"]
     /\ resolved New "nope" = false
     /\ fst (CmdRun sample_digest "" ["-l"; "nope"]
               (mkSt New sample_world [] []))
        = Val (Some "No command specified")
     /\ forall name,
          fst (CmdRun sample_digest "" ["-l"; "nope"]
                 (mkSt New sample_world [] []))
          <> Val (Some ("No such layer or container: " ++ name)))
  /\ (exists f,
        flag_Parse run_flags ["-l"; "nope"; "-x"; "true"]
        = (f, Some (NotDefined "x"))
        /\ list_flag f "l" = ["nope"]
        /\ fs_args f = ["true"]
        /\ fst (CmdRun sample_digest "" ["-l"; "nope"; "-x"; "true"]
                  (mkSt New sample_world [] []))
           = Val None).
Proof.
  split.
  - eexists. split; [vm_compute; reflexivity |].
    split; [vm_compute; reflexivity |].
    split; [vm_compute; reflexivity |].
    assert (H : fst (CmdRun sample_digest "" ["-l"; "nope"]
                       (mkSt New sample_world [] []))
                = Val (Some "No command specified"))
      by (vm_compute; reflexivity).
    split; [exact H |].
    intros name Hname. rewrite H in Hname. simpl in Hname. discriminate.
  - eexists. split; [vm_compute; reflexivity |].
    split; [vm_compute; reflexivity |].
    split; vm_compute; reflexivity.
Defined.

Lemma CmdRun_unresolved_reference_witness :
  exists f,
    flag_Parse run_flags ["-l"; "nope"; "true"] = (f, None)
    /\ "nope" ∈ list_flag f "l"
    /\ resolved New "nope" = false
    /\ fs_args f <> []
    /\ docker (snd (CmdRun sample_digest "" ["-l"; "nope"; "true"]
                      (mkSt New sample_world [] []))) = New
    /\ exists name,
         fst (CmdRun sample_digest "" ["-l"; "nope"; "true"]
                (mkSt New sample_world [] []))
         = Val (Some ("No such layer or container: " ++ name)).
Proof.
  eexists.
  assert (Hparse : flag_Parse run_flags ["-l"; "nope"; "true"] = (_, None))
    by (vm_compute; reflexivity).
  split; [exact Hparse |].
  match type of Hparse with _ = (?f, _) =>
    assert (Hin : "nope" ∈ list_flag f "l") by (vm_compute; constructor);
    assert (Hargs : fs_args f <> []) by (vm_compute; discriminate)
  end.
  assert (Hres : resolved New "nope" = false) by (vm_compute; reflexivity).
  split; [exact Hin |]. split; [exact Hres |]. split; [exact Hargs |].
  destruct (CmdRun_unresolved_reference sample_digest ""
              ["-l"; "nope"; "true"] (mkSt New sample_world [] []) _ _
              Hparse (ex_intro _ "nope" (conj Hin Hres)))
    as (Hd & Herr).
  split; [exact Hd |].
  destruct (Herr eq_refl Hargs) as (pre & name & post & _ & _ & _ & He & _).
  exists name. exact He.
Defined.


(** * The further properties on the sample inputs *)

Lemma Run_error_precedence_witness :
  Container.Running idle_container = false
  /\ rr_err (Run idle_container "input" failing_proc) = Some "exit status 1".
Proof.
  split; [reflexivity |].
  rewrite (proj1 (Run_error_precedence idle_container "input" failing_proc
                    eq_refl)).
  reflexivity.
Defined.

Lemma CmdRun_registers_then_runs_witness :
  let s1 := snd (CmdGet sample_digest "" ["base"]
                   (mkSt New sample_world [] [])) in
  let args := ["-l"; "3365392e2e2e2e2e"; "echo"; "hi"] in
  exists f ls,
    flag_Parse run_flags args = (f, None)
    /\ fs_args f <> []
    /\ list_flag f "l" <> []
    /\ resolve_all (docker s1) (list_flag f "l") = Some ls
    /\ fst (CmdRun sample_digest "" args s1) = Val None
    /\ is_Some (containers (docker (snd (CmdRun sample_digest "" args s1)))
                  !! "3365612e2e2e2e2e").
Proof.
  intros s1 args. eexists _, _.
  assert (Hp : flag_Parse run_flags args = (_, None))
    by (vm_compute; reflexivity).
  match type of Hp with _ = (?f, _) =>
    assert (Ha : fs_args f <> []) by (vm_compute; discriminate);
    assert (Hl : list_flag f "l" <> []) by (vm_compute; discriminate);
    assert (Hr : resolve_all (docker s1) (list_flag f "l") = Some _)
      by (vm_compute; reflexivity)
  end.
  split; [exact Hp |]. split; [exact Ha |]. split; [exact Hl |].
  split; [exact Hr |].
  destruct (CmdRun_registers_then_runs sample_digest "" args s1 _ _
              Hp Ha Hl Hr) as (Heq & _).
  rewrite Heq. cbn [fst snd docker containers]. split.
  - vm_compute. reflexivity.
  - vm_compute. eexists. reflexivity.
Defined.

Lemma CmdRun_rejects_before_creating_witness :
  exists f,
    flag_Parse run_flags ["-l"; "nope"] = (f, None)
    /\ list_flag f "l" <> []
    /\ fs_args f = []
    /\ CmdRun sample_digest "" ["-l"; "nope"] (mkSt New sample_world [] [])
       = (Val (Some "No command specified"), mkSt New sample_world [] []).
Proof.
  eexists.
  assert (Hp : flag_Parse run_flags ["-l"; "nope"] = (_, None))
    by (vm_compute; reflexivity).
  match type of Hp with _ = (?f, _) =>
    assert (Hl : list_flag f "l" <> []) by (vm_compute; discriminate);
    assert (Ha : fs_args f = []) by reflexivity
  end.
  split; [exact Hp |]. split; [exact Hl |]. split; [exact Ha |].
  destruct (CmdRun_rejects_before_creating sample_digest "" ["-l"; "nope"]
              (mkSt New sample_world [] []) _ _ Hp) as (_ & _ & H).
  exact (H eq_refl Hl Ha).
Defined.

Lemma CmdExport_layer_from_container_witness :
  let s0 := mkSt New sample_world [] [] in
  let s1 := snd (ServeHTTP sample_case sample_case sample_digest
                   "get" ["base"] "" s0) in
  let s2 := snd (ServeHTTP sample_case sample_case sample_digest
                   "run" ["-l"; "3365392e2e2e2e2e"; "echo"; "hi"] "" s1) in
  let args := ["3365612e2e2e2e2e"; "snapshot"] in
  exists f c,
    flag_Parse export_flags args = (f, None)
    /\ (2 <= length (fs_args f))%nat
    /\ containers (docker s2) !! flags_Arg f 0 = Some c
    /\ Container.BytesChanged c <> 0
    /\ fst (CmdExport sample_digest "" args s2) = Val None
    /\ Layer.Size (added_layer sample_digest (world s2) (flags_Arg f 1)
                     ("export:" ++ Container.Id c)
                     (Container.BytesChanged c)) = 1004.
Proof.
  intros s0 s1 s2 args. eexists _, _.
  assert (Hp : flag_Parse export_flags args = (_, None))
    by (vm_compute; reflexivity).
  match type of Hp with _ = (?f, _) =>
    assert (Hlen : (2 <= length (fs_args f))%nat) by (vm_compute; lia);
    assert (Hc : containers (docker s2) !! flags_Arg f 0 = Some _)
      by (vm_compute; reflexivity)
  end.
  match type of Hc with _ = Some ?c =>
    assert (Hb : Container.BytesChanged c <> 0) by (vm_compute; discriminate)
  end.
  split; [exact Hp |]. split; [exact Hlen |]. split; [exact Hc |].
  split; [exact Hb |].
  destruct (CmdExport_layer_from_container sample_digest "" args s2 _ _ Hp)
    as (_ & _ & _ & H).
  destruct (H _ eq_refl Hlen Hc) as (Heq & Hsize & _).
  split; [rewrite Heq; reflexivity |].
  rewrite (Hsize Hb). reflexivity.
Defined.

(** [clone -r=bogus nope]: the flag is left false, and the call answers
    with the message of the reset mode. *)
Lemma CmdClone_refusals_witness :
  exists f e,
    flag_Parse clone_flags ["-r=bogus"; "nope"] = (f, e)
    /\ ParseBool "bogus" = None
    /\ bool_flag f "r" = false
    /\ e = Some (InvalidBool "bogus" "r")
    /\ fst (CmdClone sample_digest "" ["-r=bogus"; "nope"]
              (mkSt New sample_world [] []))
       = Val (Some "Only reset mode is available for now. Please use -r").
Proof.
  eexists _, _.
  assert (Hp : flag_Parse clone_flags ["-r=bogus"; "nope"] = (_, _))
    by (vm_compute; reflexivity).
  assert (Hv : ParseBool "bogus" = None) by reflexivity.
  split; [exact Hp |]. split; [exact Hv |].
  destruct (CmdClone_refusals sample_digest ""
              ["-r=bogus"; "nope"]
              (mkSt New sample_world [] []) _ _ Hp) as (_ & _ & _ & _ & H).
  destruct (H "bogus" ["nope"] Hv eq_refl) as (Hr & He & _ & Heq).
  split; [exact Hr |]. split; [exact He |].
  rewrite Heq. reflexivity.
Defined.

Lemma CmdClone_runs_verbatim_witness :
  let s0 := mkSt New sample_world [] [] in
  let s1 := snd (ServeHTTP sample_case sample_case sample_digest
                   "get" ["base"] "" s0) in
  let s2 := snd (ServeHTTP sample_case sample_case sample_digest
                   "run" ["-l"; "3365392e2e2e2e2e"; "echo"; "hi"] "" s1) in
  let k := "3365612e2e2e2e2e" in
  exists f e C ls,
    flag_Parse clone_flags [k] = (f, e)
    /\ bool_flag f "r" = true
    /\ fs_args f = [k]
    /\ containers (docker s2) !! k = Some C
    /\ layers_of (docker s2) (Container.Id C) = Some ls
    /\ fst (CmdClone sample_digest "" [k] s2) = Val None
    /\ Container.Cmd C = "echo".
Proof.
  intros s0 s1 s2 k. eexists _, _, _, _.
  assert (Hp : flag_Parse clone_flags [k] = (_, _))
    by (vm_compute; reflexivity).
  match type of Hp with _ = (?f, _) =>
    assert (Hr : bool_flag f "r" = true) by (vm_compute; reflexivity);
    assert (Ha : fs_args f = [k]) by reflexivity
  end.
  assert (HC : containers (docker s2) !! k = Some _)
    by (vm_compute; reflexivity).
  match type of HC with _ = Some ?C =>
    assert (Hls : layers_of (docker s2) (Container.Id C) = Some _)
      by (vm_compute; reflexivity)
  end.
  split; [exact Hp |]. split; [exact Hr |]. split; [exact Ha |].
  split; [exact HC |]. split; [exact Hls |].
  destruct (CmdClone_runs_verbatim sample_digest "" [k] s2 _ _ k _ _
              Hp Hr Ha HC Hls) as (Heq & _).
  split; [| reflexivity].
  rewrite Heq. cbn [fst]. vm_compute. reflexivity.
Defined.

(** Two layers, listed with [-q] in one order and, when the run time
    chooses otherwise, in the other; and [-q -q=bogus], which gets the
    table. *)
Lemma CmdLayers_lists_matching_layers_witness :
  let s1 := snd (CmdGet sample_digest "" ["a"]
                   (mkSt New sample_world [] [])) in
  let s2 := snd (CmdGet sample_digest "" ["b"] s1) in
  let s2' := mkSt (docker s2)
                  (with_next_range (fun _ => 1%nat) (world s2))
                  (out s2) (runs s2) in
  (exists f,
     flag_Parse layers_flags ["-q"] = (f, None)
     /\ (length (fs_args f) <= 1)%nat
     /\ bool_flag f "q" = true
     /\ out (snd (CmdLayers "" ["-q"] s2))
        = (out s2 ++ [OBytes ("3365392e2e2e2e2e" ++ newline);
                      OBytes ("3365622e2e2e2e2e" ++ newline)])%list
     /\ out (snd (CmdLayers "" ["-q"] s2'))
        = (out s2 ++ [OBytes ("3365622e2e2e2e2e" ++ newline);
                      OBytes ("3365392e2e2e2e2e" ++ newline)])%list)
  /\ (exists f e,
        flag_Parse layers_flags ["-q"; "-q=bogus"] = (f, e)
        /\ (length (fs_args f) <= 1)%nat
        /\ bool_flag f "q" = false
        /\ exists la lb,
             out (snd (CmdLayers "" ["-q"; "-q=bogus"] s2))
             = (out s2 ++ [OFlagErr (InvalidBool "bogus" "q"); usage_of f;
                           OLayersHeader; OLayersRow la 5002;
                           OLayersRow lb 5003; OLayersFlush])%list).
Proof.
  intros s1 s2 s2'. split.
  - eexists.
    assert (Hp : flag_Parse layers_flags ["-q"] = (_, None))
      by (vm_compute; reflexivity).
    match type of Hp with _ = (?f, _) =>
      assert (Hlen : (length (fs_args f) <= 1)%nat) by (vm_compute; lia);
      assert (Hq : bool_flag f "q" = true) by (vm_compute; reflexivity)
    end.
    split; [exact Hp |]. split; [exact Hlen |]. split; [exact Hq |].
    pose proof (CmdLayers_lists_matching_layers "" ["-q"] s2 _ _ Hp) as H.
    pose proof (CmdLayers_lists_matching_layers "" ["-q"] s2' _ _ Hp) as H'.
    cbv zeta in H, H'.
    destruct H as (_ & H & _). destruct H' as (_ & H' & _).
    rewrite (H Hlen Hq), (H' Hlen Hq). cbn [snd out].
    split; vm_compute; reflexivity.
  - eexists _, _.
    assert (Hp : flag_Parse layers_flags ["-q"; "-q=bogus"] = (_, _))
      by (vm_compute; reflexivity).
    match type of Hp with _ = (?f, _) =>
      assert (Hlen : (length (fs_args f) <= 1)%nat) by (vm_compute; lia)
    end.
    split; [exact Hp |]. split; [exact Hlen |].
    pose proof (CmdLayers_lists_matching_layers "" ["-q"; "-q=bogus"] s2 _ _
                  Hp) as H.
    cbv zeta in H.
    destruct H as (_ & _ & H & _ & _ & _ & _ & Hbad).
    destruct (Hbad "bogus" [] eq_refl eq_refl) as (Hq & _ & _).
    split; [exact Hq |].
    rewrite (H Hlen Hq). cbn [snd out].
    eexists _, _. vm_compute. reflexivity.
Defined.

Lemma stored_entries_are_immutable_witness :
  let s0 := mkSt New sample_world [] [] in
  let s1 := snd (ServeHTTP sample_case sample_case sample_digest
                   "get" ["base"] "" s0) in
  let s2 := snd (ServeHTTP sample_case sample_case sample_digest
                   "run" ["-l"; "3365392e2e2e2e2e"; "echo"; "hi"] "" s1) in
  let s3 := snd (ServeHTTP sample_case sample_case sample_digest
                   "put" ["more"] "" s2) in
  exists C,
    reachable sample_case sample_case sample_digest s2
    /\ ids_distinct sample_digest (world s3) (rand_pos (world s3))
    /\ containers (docker s2) !! "3365612e2e2e2e2e" = Some C
    /\ containers (docker s3) !! "3365612e2e2e2e2e" = Some C.
Proof.
  intros s0 s1 s2 s3.
  assert (Hreach : reachable sample_case sample_case sample_digest s2).
  { apply reach_ServeHTTP, reach_ServeHTTP, reach_New. }
  assert (HC : exists C, containers (docker s2) !! "3365612e2e2e2e2e" = Some C).
  { vm_compute. eexists. reflexivity. }
  destruct HC as [C HC].
  assert (Hdist : ids_distinct sample_digest (world s3) (rand_pos (world s3))).
  { unfold ids_distinct.
    apply (bool_decide_unpack (NoDup (map (id_at sample_digest (world s3))
                                          (seq 0 (rand_pos (world s3)))))).
    vm_compute. exact I. }
  exists C. split; [exact Hreach |]. split; [exact Hdist |].
  split; [exact HC |].
  destruct (stored_entries_are_immutable sample_case sample_case
              sample_digest s2 "put" ["more"] "" Hreach Hdist) as [_ H].
  exact (H _ _ HC).
Defined.

Lemma getMethod_ascii_case_insensitive_witness :
  isASCII "LaYeRs" = true
  /\ string_map lower_byte "LaYeRs" = command_word MLayers
  /\ getMethod sample_case sample_case "LaYeRs" = Val (Some MLayers).
Proof.
  split; [reflexivity |]. split; [reflexivity |].
  exact (proj2 (getMethod_ascii_case_insensitive sample_case sample_case
                  "LaYeRs" MLayers eq_refl) eq_refl).
Defined.
